(** * Timetable scheduler (main.py): room labels, task generation,
      slot sequencing and the greedy per-group scheduler.

    Modelling choices.
    - Strings are byte strings ([string] of the Standard Library): the
      UTF-8 encoding of the Python text.  [str.strip], [str.upper], [int]
      and the regular expression classes [[A-Z]] and [\d] are modelled as
      they act on plain text ([Str.plain_text]): ASCII characters, and
      Thai characters other than the Thai digits, which have no case and
      are neither white space nor digits.  On other text (Unicode white
      space such as U+00A0, cased letters and digits of other scripts)
      Python does more than the model does; the statements that depend on
      it carry [Str.plain_text] as a hypothesis.
    - Credits and weights (Python floats) are rationals [Q], and their
      sums are exact.  The float sum of the code is the exact sum when
      the credits are multiples of 1/2 ([exact_credits]); a statement that
      fixes the outcome of comparing the total with 18 carries it as a
      hypothesis.
    - The dicts [slots_used] and [teacher_slots] are finite maps, their
      values finite sets and finite maps; a function that mutates them
      returns the new maps.
    - The DataFrame is a finite map from (row label, column) to cells; an
      absent key holds the initial empty string.
    - A function returns [None] where the Python code raises. *)

From Stdlib Require Import ZArith QArith Qround Ascii String List Lia Bool.
From Stdlib Require Import DecimalString DecimalPos Permutation Sorted.
From stdpp Require Import base gmap sets list strings.

Set Warnings "-clear-no-such-hyp,-level-tolerance".

Local Open Scope string_scope.
Local Open Scope Z_scope.

(** ** Characters and strings *)

Module Str.

Definition code (c : ascii) : N := N_of_ascii c.

(** [str.isspace] on plain text: TAB..CR, FS..US and the blank. *)
Definition is_space (c : ascii) : bool :=
  let n := code c in
  (((9 <=? n) && (n <=? 13)) || ((28 <=? n) && (n <=? 32)))%N.

(** The class [[A-Z]]. *)
Definition is_upper (c : ascii) : bool :=
  let n := code c in ((65 <=? n) && (n <=? 90))%N.

Definition is_lower (c : ascii) : bool :=
  let n := code c in ((97 <=? n) && (n <=? 122))%N.

(** The class [\d] on plain text. *)
Definition is_digit (c : ascii) : bool :=
  let n := code c in ((48 <=? n) && (n <=? 57))%N.

Definition upper_char (c : ascii) : ascii :=
  if is_lower c then ascii_of_N (code c - 32) else c.

(** [s.upper()] on plain text. *)
Fixpoint upper (s : string) : string :=
  match s with
  | EmptyString => EmptyString
  | String c r => String (upper_char c) (upper r)
  end.

Fixpoint lstrip (s : string) : string :=
  match s with
  | EmptyString => EmptyString
  | String c r => if is_space c then lstrip r else s
  end.

Fixpoint rstrip (s : string) : string :=
  match s with
  | EmptyString => EmptyString
  | String c r =>
      match rstrip r with
      | EmptyString => if is_space c then EmptyString else String c EmptyString
      | r' => String c r'
      end
  end.

(** [s.strip()] on plain text. *)
Definition strip (s : string) : string := rstrip (lstrip s).

(** Longest prefix of [s] whose characters satisfy [p], and the rest. *)
Fixpoint span (p : ascii -> bool) (s : string) : string * string :=
  match s with
  | EmptyString => (EmptyString, EmptyString)
  | String c r =>
      if p c then let '(a, b) := span p r in (String c a, b)
      else (EmptyString, s)
  end.

Definition all (p : ascii -> bool) (s : string) : bool :=
  forallb p (list_ascii_of_string s).

(** [s.split(sep)] for a one-character separator: the pieces between
    the occurrences of [sep]; never empty. *)
Fixpoint split (sep : ascii) (s : string) : list string :=
  match s with
  | EmptyString => [EmptyString]
  | String c r =>
      if Ascii.eqb c sep then EmptyString :: split sep r
      else match split sep r with
           | [] => [String c EmptyString]
           | p :: ps => String c p :: ps
           end
  end.

(** [sep.join(l)] *)
Definition join (sep : string) (l : list string) : string :=
  String.concat sep l.

(** [str(n)] and the [{n}] of an f-string, for an integer [n]. *)
Definition of_int (z : Z) : string :=
  NilEmpty.string_of_int (Z.to_int z).

Definition is_ascii (c : ascii) : bool := (code c <? 128)%N.

(** The second and third byte of a Thai character (U+0E00..U+0E7F, in
    UTF-8 the bytes E0 B8 80..BF and E0 B9 80..BF) that is not one of the
    Thai digits U+0E50..U+0E59 (E0 B9 90..99). *)
Definition thai_tail (b2 b3 : N) : bool :=
  (((b2 =? 184) && (128 <=? b3) && (b3 <=? 191))
   || ((b2 =? 185)
       && (((128 <=? b3) && (b3 <=? 143))
           || ((154 <=? b3) && (b3 <=? 191)))))%N.

(** Plain text: ASCII characters and Thai characters other than the Thai
    digits.  On it the functions above are the Python ones. *)
Fixpoint plain_text (s : string) : bool :=
  match s with
  | EmptyString => true
  | String c r =>
      if is_ascii c then plain_text r
      else match r with
           | String c2 (String c3 r') =>
               (code c =? 224)%N && thai_tail (code c2) (code c3)
               && plain_text r'
           | _ => false
           end
  end.

End Str.

(** ** Room labels (lines 64-66, 178-184, 350-351) *)

(** [re.match(r"([A-Z]+)(\d+)", s)]: the match is anchored at the start;
    both groups are greedy, and giving back a letter never helps (the next
    character would be a letter, not a digit), so the groups are the
    longest run of capitals and the longest run of digits after it. *)
Definition match_letters_digits (s : string) : option (string * string) :=
  let '(letters, rest) := Str.span Str.is_upper s in
  let '(digits, _) := Str.span Str.is_digit rest in
  match letters, digits with
  | String _ _, String _ _ => Some (letters, digits)
  | _, _ => None
  end.

(** Lines 178-184, for a [room] of plain text. *)
Definition convert_room_letter_to_number
    (room : string) (mapping : gmap string Z) : string :=
  match match_letters_digits (Str.upper (Str.strip room)) with
  | None => room
  | Some (letter, number) =>
      let new_prefix :=
        match mapping !! letter with
        | Some v => Str.of_int v
        | None => letter
        end in
      new_prefix +:+ number
  end.

(** [parts = room.split("/"); parts[0] + parts[-1]] *)
Definition short_room (room : string) : string :=
  let parts := Str.split "/" room in
  hd EmptyString parts +:+ List.last parts EmptyString.

Definition parse_room_building (room : string) : string :=
  Str.upper (hd EmptyString (Str.split "/" (Str.strip room))).

(** ** Data model *)

(** A subject dict as [load_subjects] builds it (lines 147-154).  A task
    is a copy of a subject dict ([s.copy()]). *)
Record subject := mkSubject {
  code : string;
  credit : Q;
  teacher : string;
  weight : Q;
  group : string;
  actual_room : list string
}.

Abbreviation task := subject.

(** [a == b] on two task dicts: field by field. *)
Definition task_eqb (a b : task) : bool :=
  String.eqb (code a) (code b) && Qeq_bool (credit a) (credit b)
  && String.eqb (teacher a) (teacher b) && Qeq_bool (weight a) (weight b)
  && String.eqb (group a) (group b)
  && bool_decide (actual_room a = actual_room b).

(** A lock dict as [add_lock] builds it (lines 439-444); [period] is the
    integer that [int(lk["period"])] yields. *)
Record lock := mkLock {
  name : string;
  rooms : list string;
  day : string;
  period : Z
}.

(** A table cell: a string (empty, a lock name or a diagnostic label) or
    the dict written at lines 251-255. *)
Inductive cell :=
| Text (s : string)
| Placement (pcode pteacher proom : string).

Definition cell_eqb_empty (c : cell) : bool :=
  match c with
  | Text s => String.eqb s ""
  | Placement _ _ _ => false
  end.

Definition is_placement (c : cell) : bool :=
  match c with Placement _ _ _ => true | Text _ => false end.

(** The DataFrame: row label (English day name) and column (period) to
    cell.  A key that is absent holds the initial [""]. *)
Abbreviation table := (gmap (string * Z) cell).

Definition table_at (tb : table) (k : string * Z) : cell :=
  default (Text "") (tb !! k).

Definition DAY_TH_TO_CODE : gmap string string :=
  list_to_map
    [("จันทร์", "M"); ("อังคาร", "T"); ("พุธ", "W");
     ("พฤหัสบดี", "TH"); ("ศุกร์", "F")].

Definition days : list string := ["M"; "T"; "W"; "TH"; "F"].

Definition day_map : gmap string string :=
  list_to_map (zip days ["Mon"; "Tue"; "Wed"; "Thu"; "Fri"]).

(** [f"{d}{p}"] *)
Definition slot_label (d : string) (p : Z) : string := d +:+ Str.of_int p.

(** ** Task generation (lines 159-163, 220-222) *)

(** [int(x)] on a rational: truncation towards zero. *)
Definition py_int (x : Q) : Z := Z.quot (Qnum x) (Zpos (Qden x)).

(** [max(1, int(s["credit"] * 2))], the length of the [range]. *)
Definition task_count (s : subject) : nat :=
  Z.to_nat (Z.max 1 (py_int (credit s * 2)%Q)).

(** [[s.copy() for _ in range(...)]] *)
Definition copies (s : subject) : list task := repeat s (task_count s).

Definition expand_tasks (subs : list subject) : list task :=
  flat_map copies subs.

(** [sorted(l, key=...)]: Python's sort is stable and only uses [<] on
    the keys; [lt a b] is [key(a) < key(b)]. *)
Fixpoint insert_by {A} (lt : A -> A -> bool) (x : A) (l : list A) : list A :=
  match l with
  | [] => [x]
  | y :: r => if lt y x then y :: insert_by lt x r else x :: l
  end.

Definition sorted_by {A} (lt : A -> A -> bool) (l : list A) : list A :=
  foldr (insert_by lt) [] l.

(** [<] on tuples of three: the first components that differ decide. *)
Definition key3_ltb (a b : string * Q * string) : bool :=
  let '(a1, a2, a3) := a in
  let '(b1, b2, b3) := b in
  if negb (String.eqb a1 b1) then String.ltb a1 b1
  else if negb (Qeq_bool a2 b2) then negb (Qle_bool b2 a2)
  else String.ltb a3 b3.

Definition room_key_full (room : string) : string := Str.strip room.

(** [<] on the keys [(-weight, group.strip(), code)] of [build_tasks]. *)
Definition build_key_ltb (a b : Q * string * string) : bool :=
  let '(a1, a2, a3) := a in
  let '(b1, b2, b3) := b in
  if negb (Qeq_bool a1 b1) then negb (Qle_bool b1 a1)
  else if negb (String.eqb a2 b2) then String.ltb a2 b2
  else String.ltb a3 b3.

Definition build_tasks (subs : list subject) : list task :=
  sorted_by
    (fun x y =>
       build_key_ltb ((- weight x)%Q, room_key_full (group x), code x)
                     ((- weight y)%Q, room_key_full (group y), code y))
    (expand_tasks subs).

Definition sort_by_building (task_list : list task) : list task :=
  sorted_by
    (fun x y =>
       key3_ltb (parse_room_building (group x), (- weight x)%Q, code x)
                (parse_room_building (group y), (- weight y)%Q, code y))
    task_list.

(** ** Slot sequencing (lines 272-310) *)

Definition append_red : list string :=
  flat_map (fun d => [slot_label d 2; slot_label d 3]) days.

Definition append_red_extra : list string :=
  flat_map (fun d => [slot_label d 6; slot_label d 7]) days.

Definition append_orange : list string :=
  flat_map (fun p => map (fun d => slot_label d p) days) [4; 1].

Definition append_yellow : list string :=
  flat_map (fun p => map (fun d => slot_label d p) days) [8; 9; 10; 11].

Definition generate_schedule_slots (total_credit : Q) : list string :=
  if Qle_bool total_credit 18 then
    append_red
    ++ map (fun d => slot_label d 6) days
    ++ map (fun d => slot_label d 7) days
    ++ append_orange ++ append_yellow
  else
    append_red ++ append_red_extra ++ append_orange ++ append_yellow.

(** ** The greedy scheduler (lines 188-269) *)

(** The two maps shared by all the calls of one run.  [slots_used] maps a
    slot label to the set of occupants (rooms, teachers, locked groups);
    [teacher_slots] maps a teacher to the slots taught and the room. *)
Abbreviation slots_used_t := (gmap string (gset string)).
Abbreviation teacher_slots_t := (gmap string (gmap string string)).

(** [fmt] (lines 199-207); [total_tasks] is [len(all_tasks)]. *)
Definition fmt (tr_rooms : gset string) (room_conf : bool)
    (total_tasks : nat) : string :=
  if Nat.eqb total_tasks 0 then "ไม่มีวิชา"
  else
    let parts :=
      ((if bool_decide (tr_rooms = ∅) then []
       else ["ครูชนที่ " +:+
             Str.join "," (sorted_by String.ltb
                             (elements (set_map (D:=gset string)
                                          short_room tr_rooms)))])
       ++ (if room_conf then ["ห้องเต็ม"] else []))%list in
    match parts with
    | [] => "ไม่ได้"
    | _ => "ไม่ได้(" +:+ Str.join ", " parts +:+ ")"
    end.

(** Failure ([None]) stands for the exception the Python code raises: a
    [KeyError] on [DAY_TH_TO_CODE], [day_map] or [slots_used], or the
    [AttributeError] of a slot label that the pattern does not match. *)

Definition lock_matches (grp : string) (lk : lock) : bool :=
  bool_decide ("ALL" ∈ rooms lk) || bool_decide (grp ∈ rooms lk).

(** One iteration of the loop of lines 209-215. *)
Definition apply_lock (grp : string) (st : table * slots_used_t) (lk : lock)
    : option (table * slots_used_t) :=
  let '(tb, su) := st in
  if lock_matches grp lk then
    d ← DAY_TH_TO_CODE !! day lk;
    let p := period lk in
    let sl := slot_label d p in
    row ← day_map !! d;
    let tb' := <[(row, p) := Text (name lk)]> tb in
    used ← su !! sl;
    Some (tb', <[sl := {[grp]} ∪ used]> su)
  else Some st.

Fixpoint apply_locks (grp : string) (locks : list lock)
    (st : table * slots_used_t) : option (table * slots_used_t) :=
  match locks with
  | [] => Some st
  | lk :: rest => st' ← apply_lock grp st lk; apply_locks grp rest st'
  end.

(** [all_tasks.remove(t)]: drops the first element equal to [t]. *)
Fixpoint remove_first (t : task) (l : list task) : list task :=
  match l with
  | [] => []
  | x :: r => if task_eqb x t then r else x :: remove_first t r
  end.

(** Line 232-233: [d, p = re.match(...).groups(); p = int(p)], and the
    row [day_map[d]]. *)
Definition parse_slot (sl : string) : option (string * Z) :=
  '(d, p) ← match_letters_digits sl;
  n ← NilEmpty.uint_of_string p;
  row ← day_map !! d;
  Some (row, Z.of_uint n).

(** The loop of lines 244-261 over the rooms of one task; [used] is
    [slots_used[sl]], looked up when the first room is tested.  Returns
    the first free room, if any, and the [room_conf] flag. *)
Fixpoint scan_rooms (used : option (gset string)) (rms : list string)
    (room_conf : bool) : option (option string * bool) :=
  match rms with
  | [] => Some (None, room_conf)
  | actual :: rest =>
      u ← used;
      if bool_decide (actual ∈ u) then scan_rooms used rest true
      else Some (Some actual, room_conf)
  end.

(** [teacher_slots.get(t, {})] *)
Definition teacher_busy (ts : teacher_slots_t) (t sl : string)
    : option string :=
  default ∅ (ts !! t) !! sl.

(** The loop of lines 239-264 over the candidate pool at one slot.
    Returns the task placed and its room, if any, with [tr_rooms] and
    [room_conf]. *)
Fixpoint scan_tasks (sl : string) (used : option (gset string))
    (ts : teacher_slots_t) (tasks : list task)
    (tr_rooms : gset string) (room_conf : bool)
    : option (option (task * string) * gset string * bool) :=
  match tasks with
  | [] => Some (None, tr_rooms, room_conf)
  | t :: rest =>
      match teacher_busy ts (teacher t) sl with
      | Some r => scan_tasks sl used ts rest ({[r]} ∪ tr_rooms) room_conf
      | None =>
          '(found, room_conf') ← scan_rooms used (actual_room t) room_conf;
          match found with
          | Some actual => Some (Some (t, actual), tr_rooms, room_conf')
          | None => scan_tasks sl used ts rest tr_rooms room_conf'
          end
      end
  end.

Record run_state := mkState {
  st_table : table;
  st_used : slots_used_t;
  st_teacher : teacher_slots_t;
  st_pool : list task
}.

(** One iteration of the loop of lines 231-267. *)
Definition slot_step (mapping : gmap string Z) (st : run_state)
    (sl : string) : option run_state :=
  k ← parse_slot sl;
  if negb (cell_eqb_empty (table_at (st_table st) k)) then Some st
  else
    '(res, tr_rooms, room_conf) ←
      scan_tasks sl (st_used st !! sl) (st_teacher st) (st_pool st) ∅ false;
    match res with
    | Some (t, actual) =>
        let actual_room_converted :=
          convert_room_letter_to_number actual mapping in
        u ← st_used st !! sl;
        Some {| st_table :=
                  <[k := Placement (code t) (teacher t)
                           actual_room_converted]> (st_table st);
                st_used := <[sl := {[teacher t; actual]} ∪ u]> (st_used st);
                st_teacher :=
                  <[teacher t :=
                      <[sl := actual]> (default ∅ (st_teacher st !! teacher t))]>
                    (st_teacher st);
                st_pool := remove_first t (st_pool st) |}
    | None =>
        Some {| st_table :=
                  <[k := Text (fmt tr_rooms room_conf (length (st_pool st)))]>
                    (st_table st);
                st_used := st_used st;
                st_teacher := st_teacher st;
                st_pool := st_pool st |}
    end.

Fixpoint walk_slots (mapping : gmap string Z) (slots : list string)
    (st : run_state) : option run_state :=
  match slots with
  | [] => Some st
  | sl :: rest => st' ← slot_step mapping st sl; walk_slots mapping rest st'
  end.

(** [sum(s["credit"] for s in subs)], as an exact sum: the float sum of
    the code when no addition rounds ([exact_credits]). *)
Definition sum_credit (subs : list subject) : Q :=
  fold_left (fun acc s => (acc + credit s)%Q) subs 0%Q.

Definition group_subjects (grp : string) (subjects : list subject)
    : list subject :=
  List.filter (fun s => String.eqb (group s) grp) subjects.

(** The candidate pool of lines 217-228; [red_n] is taken from the exact
    sum of the credits. *)
Definition candidate_pool (subs : list subject) : list task :=
  let total_credit := sum_credit subs in
  let red_n := if Qle_bool total_credit 18 then 15%nat else 20%nat in
  let tasks := expand_tasks subs in
  let red := take red_n tasks in
  let orange := take 10 (drop red_n tasks) in
  let yellow := drop (red_n + 10) tasks in
  sort_by_building red ++ sort_by_building orange ++ sort_by_building yellow.

(** [schedule_room]: the table and the leftover tasks it returns, and the
    two shared maps as it leaves them. *)
Definition schedule_room (grp : string) (subjects : list subject)
    (slots_used : slots_used_t) (teacher_slots : teacher_slots_t)
    (locks : list lock) (room_priority_map : gmap string Z)
    : option (table * list task * slots_used_t * teacher_slots_t) :=
  '(tb, su) ← apply_locks grp locks (∅, slots_used);
  let subs := group_subjects grp subjects in
  let all_tasks := candidate_pool subs in
  let ordered_slots := generate_schedule_slots (sum_credit subs) in
  st ← walk_slots room_priority_map ordered_slots
         (mkState tb su teacher_slots all_tasks);
  Some (st_table st, st_pool st, st_used st, st_teacher st).

(** The dict comprehension of lines 492 and 594: every slot unused. *)
Definition all_slot_labels : list string :=
  flat_map (fun d => map (fun p => slot_label d p) (seqZ 1 11)) days.

Definition fresh_slots_used : slots_used_t :=
  list_to_map (map (fun sl => (sl, ∅)) all_slot_labels).

(** The loop of lines 497-501 (and 597-620): one call per group, the two
    maps threaded through; returns the tables in the order of the calls. *)
Fixpoint schedule_all (grps : list string) (subjects : list subject)
    (su : slots_used_t) (ts : teacher_slots_t) (locks : list lock)
    (mapping : gmap string Z)
    : option (list table * slots_used_t * teacher_slots_t) :=
  match grps with
  | [] => Some ([], su, ts)
  | g :: rest =>
      '(tb, _, su', ts') ← schedule_room g subjects su ts locks mapping;
      '(tbs, su'', ts'') ← schedule_all rest subjects su' ts' locks mapping;
      Some (tb :: tbs, su'', ts'')
  end.

(** * Specification *)

(** The characters of a label produced by the conversion. *)
Definition is_label_char (c : ascii) : bool :=
  Str.is_upper c || Str.is_digit c || Ascii.eqb c "-".

(** The rooms that the teacher clashes of a scan over [tasks] record. *)
Definition busy_rooms (ts : teacher_slots_t) (sl : string)
    (tasks : list task) : gset string :=
  list_to_set (omap (fun t => teacher_busy ts (teacher t) sl) tasks).

(** The tasks that raise the room flag when no room is free for them. *)
Definition room_flag (ts : teacher_slots_t) (sl : string)
    (tasks : list task) : bool :=
  existsb (fun t => bool_decide (teacher_busy ts (teacher t) sl = None)
                    && negb (bool_decide (actual_room t = [])))
          tasks.

(** A task that cannot be placed at [sl]: its teacher is taken, or every
    room of its list is found in [used], the entry of [slots_used]. *)
Definition blocked (used : option (gset string)) (ts : teacher_slots_t)
    (sl : string) (t : task) : Prop :=
  is_Some (teacher_busy ts (teacher t) sl)
  \/ Forall (fun a => exists u, used = Some u /\ a ∈ u) (actual_room t).

(** The state after lines 250-260: the task placed in room [actual]. *)
Definition place (m : gmap string Z) (st : run_state) (sl : string)
    (k : string * Z) (u : gset string) (t : task) (actual : string)
    : run_state :=
  {| st_table :=
       <[k := Placement (code t) (teacher t)
                (convert_room_letter_to_number actual m)]> (st_table st);
     st_used := <[sl := {[teacher t; actual]} ∪ u]> (st_used st);
     st_teacher :=
       <[teacher t :=
           <[sl := actual]> (default ∅ (st_teacher st !! teacher t))]>
         (st_teacher st);
     st_pool := remove_first t (st_pool st) |}.

(** The state after line 267: the diagnostic label written. *)
Definition diagnose (st : run_state) (sl : string) (k : string * Z)
    : run_state :=
  {| st_table :=
       <[k := Text (fmt (busy_rooms (st_teacher st) sl (st_pool st))
                        (room_flag (st_teacher st) sl (st_pool st))
                        (length (st_pool st)))]> (st_table st);
     st_used := st_used st;
     st_teacher := st_teacher st;
     st_pool := st_pool st |}.

(** The three ways through the body of the slot loop. *)
Inductive step_outcome (m : gmap string Z) (st : run_state) (sl : string)
    (k : string * Z) : run_state -> Prop :=
| step_skip :
    cell_eqb_empty (table_at (st_table st) k) = false ->
    step_outcome m st sl k st
| step_place u pre t post actual :
    cell_eqb_empty (table_at (st_table st) k) = true ->
    st_used st !! sl = Some u ->
    st_pool st = (pre ++ t :: post)%list ->
    Forall (blocked (Some u) (st_teacher st) sl) pre ->
    teacher_busy (st_teacher st) (teacher t) sl = None ->
    actual ∈ actual_room t ->
    actual ∉ u ->
    step_outcome m st sl k (place m st sl k u t actual)
| step_diag :
    cell_eqb_empty (table_at (st_table st) k) = true ->
    Forall (blocked (st_used st !! sl) (st_teacher st) sl) (st_pool st) ->
    step_outcome m st sl k (diagnose st sl k).

(** The lock contract: one of the five day names, a period of the grid. *)
Definition lock_ok (lk : lock) : Prop :=
  is_Some (DAY_TH_TO_CODE !! day lk) /\ 1 <= period lk <= 11.

(** [slots_used] has the 55 keys that the callers create. *)
Definition has_slot_keys (su : slots_used_t) : Prop :=
  Forall (fun sl => is_Some (su !! sl)) all_slot_labels.

Global Instance lock_ok_dec lk : Decision (lock_ok lk).
Proof. unfold lock_ok. apply _. Defined.

Global Instance has_slot_keys_dec su : Decision (has_slot_keys su).
Proof. unfold has_slot_keys. apply _. Defined.

(** The cell of the table that a lock names. *)
Definition lock_cell (lk : lock) : option (string * Z) :=
  d ← DAY_TH_TO_CODE !! day lk;
  row ← day_map !! d;
  Some (row, period lk).

(** The table that the lock loop leaves. *)
Definition lock_table (grp : string) (locks : list lock) (tb : table)
    : table :=
  foldl (fun tb lk =>
           if lock_matches grp lk then
             match lock_cell lk with
             | Some k => <[k := Text (name lk)]> tb
             | None => tb
             end
           else tb)
        tb locks.

(** The number of placement dicts in a table. *)
Definition placements (tb : table) : nat :=
  size (filter (fun kc : string * Z * cell => is_placement kc.2) tb).

(** The last lock of the list that matches the group and names cell [k]. *)
Definition last_lock (grp : string) (locks : list lock) (k : string * Z)
    : option lock :=
  last (List.filter (fun lk => lock_matches grp lk
                               && bool_decide (lock_cell lk = Some k))
                    locks).

(** The room names of a teacher-clash label. *)
Definition clash_names (tr_rooms : gset string) : string :=
  Str.join "," (sorted_by String.ltb
                  (elements (set_map (D:=gset string) short_room tr_rooms))).

(** A cell without the room label that a placement displays. *)
Definition erase_room (c : cell) : cell :=
  match c with
  | Placement c t _ => Placement c t ""
  | Text s => Text s
  end.

(** A state whose table has lost the room labels. *)
Definition erase_state (st : run_state) : run_state :=
  {| st_table := erase_room <$> st_table st;
     st_used := st_used st;
     st_teacher := st_teacher st;
     st_pool := st_pool st |}.

(** What [schedule_room] decides: everything but the room labels. *)
Definition decisions
    (r : table * list task * slots_used_t * teacher_slots_t)
    : table * list task * slots_used_t * teacher_slots_t :=
  let '(tb, leftover, su, ts) := r in (erase_room <$> tb, leftover, su, ts).

(** [slots_used] only grows. *)
Definition used_le (su su' : slots_used_t) : Prop :=
  forall sl u, su !! sl = Some u -> exists u', su' !! sl = Some u' /\ u ⊆ u'.

(** The tracker after some placements, for a run started with
    [teacher_slots = ts0]: the old entries are kept, the room of a new
    entry is marked used at its slot, and no two new entries of a slot
    share a room. *)
Record tracker_inv (ts0 : teacher_slots_t) (su : slots_used_t)
    (ts : teacher_slots_t) : Prop := {
  tr_keep : forall t sl r,
    teacher_busy ts0 t sl = Some r -> teacher_busy ts t sl = Some r;
  tr_used : forall t sl r,
    teacher_busy ts0 t sl = None -> teacher_busy ts t sl = Some r ->
    exists u, su !! sl = Some u /\ r ∈ u;
  tr_inj : forall sl t1 t2 r,
    teacher_busy ts0 t1 sl = None -> teacher_busy ts0 t2 sl = None ->
    teacher_busy ts t1 sl = Some r -> teacher_busy ts t2 sl = Some r ->
    t1 = t2
}.

(** Every placement of the table is backed by an entry of the tracker
    made during the run: the teacher is recorded at the slot of the cell,
    with the room whose label the placement shows. *)
Definition booked (m : gmap string Z) (ts0 ts : teacher_slots_t)
    (tb : table) : Prop :=
  forall k c t l,
    tb !! k = Some (Placement c t l) ->
    exists sl r,
      sl ∈ all_slot_labels /\ parse_slot sl = Some k
      /\ teacher_busy ts0 t sl = None
      /\ teacher_busy ts t sl = Some r
      /\ l = convert_room_letter_to_number r m.

(** Two tables never place the same teacher in the same cell. *)
Definition apart (tb1 tb2 : table) : Prop :=
  forall k c1 t1 l1 c2 t2 l2,
    tb1 !! k = Some (Placement c1 t1 l1) ->
    tb2 !! k = Some (Placement c2 t2 l2) ->
    t1 <> t2.

(** What the slot loop keeps, for the table being filled and the tables
    [finished] by the earlier calls of the run. *)
Definition run_inv (m : gmap string Z) (ts0 : teacher_slots_t)
    (finished : list table) (st : run_state) : Prop :=
  tracker_inv ts0 (st_used st) (st_teacher st)
  /\ booked m ts0 (st_teacher st) (st_table st)
  /\ Forall (booked m ts0 (st_teacher st)) finished
  /\ Forall (apart (st_table st)) finished.

(** The labels of the periods that the sequencer uses. *)
Definition sequenced_slot_labels : list string :=
  flat_map (fun d => map (fun p => slot_label d p)
                         [1; 2; 3; 4; 6; 7; 8; 9; 10; 11])
           days.

(** The cell [k] of the table that [schedule_room] returns. *)
Definition cell_of (k : string * Z)
    (r : option (table * list task * slots_used_t * teacher_slots_t))
    : option cell :=
  match r with
  | Some (tb, _, _, _) => tb !! k
  | None => None
  end.

(** The cell [k] of each table that [schedule_all] returns. *)
Definition cells_at (k : string * Z)
    (r : option (list table * slots_used_t * teacher_slots_t))
    : option (list (option cell)) :=
  match r with
  | Some (tbs, _, _) => Some (map (fun tb : table => tb !! k) tbs)
  | None => None
  end.

(** ** Sample data *)

Definition ex_math : subject := mkSubject "M101" 2 "T1" 5 "G1" ["A1"].
Definition ex_eng : subject := mkSubject "E101" 1 "T1" 3 "G2" ["A1"; "B2"].
Definition ex_art : subject := mkSubject "A101" (1 # 2) "T1" 1 "G2" [].
Definition ex_lab1 : subject := mkSubject "S101" (1 # 2) "T3" 1 "G1" ["A1/1"].
Definition ex_lab2 : subject := mkSubject "S102" (1 # 2) "T4" 1 "G2" ["A1/2"].
Definition ex_lock : lock := mkLock "HR" ["ALL"] "จันทร์" 3.
Definition ex_unnamed_lock : lock := mkLock "" ["ALL"] "จันทร์" 2.

(** Teacher T1 already teaches in room A1 at slot M2. *)
Definition ex_teacher_slots : teacher_slots_t :=
  {[ "T1" := {[ "M2" := "A1" ]} ]}.

Definition ex_state : run_state :=
  mkState ∅ fresh_slots_used ex_teacher_slots [ex_eng; ex_art].

(** * Further functions of main.py *)

(** ** Room sort key (lines 60-62) and the order of the groups *)

(** [re.findall(r'\d+', room)]: the maximal runs of digits, from left to
    right; [cur] is the run being read. *)
Fixpoint digit_runs_go (cur : string) (s : string) : list string :=
  match s with
  | EmptyString =>
      match cur with EmptyString => [] | _ => [cur] end
  | String c r =>
      if Str.is_digit c then digit_runs_go (cur +:+ String c EmptyString) r
      else match cur with
           | EmptyString => digit_runs_go EmptyString r
           | _ => cur :: digit_runs_go EmptyString r
           end
  end.

Definition digit_runs (s : string) : list string :=
  digit_runs_go EmptyString s.

(** [int(part)] for a run of digits. *)
Definition int_of_digits (s : string) : Z :=
  fold_left (fun acc c => 10 * acc + (Z.of_N (Str.code c) - 48))
            (list_ascii_of_string s) 0.

(** The tuple of [room_sort_key], as a list, for a [room] of plain
    text. *)
Definition room_sort_key (room : string) : list Z :=
  match digit_runs room with
  | [] => [9999]
  | parts => map int_of_digits parts
  end.

(** [<] on tuples of integers. *)
Fixpoint tuple_ltb (a b : list Z) : bool :=
  match a, b with
  | [], [] => false
  | [], _ :: _ => true
  | _ :: _, [] => false
  | x :: a', y :: b' => if x =? y then tuple_ltb a' b' else x <? y
  end.

(** [sorted(rooms, key=room_sort_key)] (lines 455, 471, 597), for rooms
    of plain text. *)
Definition sorted_rooms (rooms : list string) : list string :=
  sorted_by (fun a b => tuple_ltb (room_sort_key a) (room_sort_key b)) rooms.

(** ** [find_actual_room] (lines 167-176) *)

Definition find_actual_room (s : subject) (group_short : string) : string :=
  match actual_room s with
  | [] => group_short
  | _ =>
      match List.find (fun r => String.eqb r (group s)) (actual_room s) with
      | Some r => r
      | None =>
          match List.find (fun r => String.eqb (short_room r) group_short)
                          (actual_room s) with
          | Some r => r
          | None => group_short
          end
      end
  end.

(** ** [interleave] (lines 314-323) *)

(** [lst[i]], for an index that the loop keeps in range. *)
Definition item {A} (lst : list A) (i : nat) : list A :=
  match lst !! i with Some x => [x] | None => [] end.

Definition interleave {A} (lst : list A) : list A :=
  let half := (length lst / 2)%nat in
  let result :=
    flat_map (fun i =>
                item lst i
                ++ (if (i + half <? length lst)%nat
                    then item lst (i + half) else []))%list
             (seq 0 half) in
  (result ++ (if (length lst mod 2 =? 0)%nat then []
              else item lst (length lst - 1)))%list.

(** ** Teacher helpers (lines 325-348) *)

Definition room_distance (room1 room2 : string) : nat :=
  if String.eqb room1 room2 then 0%nat else 1%nat.

(** [groups.setdefault(t["teacher"], []).append(t)] over the tasks. *)
Definition group_by_teacher_tasks (tasks : list task)
    : gmap string (list task) :=
  foldl (fun groups t =>
           <[teacher t := (default [] (groups !! teacher t) ++ [t])%list]>
             groups)
        ∅ tasks.

(** [min((room_distance(r, pr) for pr in prev_rooms), default=0)] *)
Definition min_distance (r : string) (prev_rooms : list string) : nat :=
  match prev_rooms with
  | [] => 0%nat
  | pr :: rest =>
      fold_left (fun d pr' => Nat.min d (room_distance r pr')) rest
                (room_distance r pr)
  end.

(** The loop of lines 339-346; [best_dist = None] is [float("inf")]. *)
Fixpoint best_room_go (prev_rooms : list string) (tch : string)
    (tasks : list task) (best : option task) (best_dist : option nat)
    : option task :=
  match tasks with
  | [] => best
  | t :: rest =>
      if negb (String.eqb (teacher t) tch)
      then best_room_go prev_rooms tch rest best best_dist
      else
        let dist := min_distance (group t) prev_rooms in
        if match best_dist with
           | None => true
           | Some d => (dist <? d)%nat
           end
        then best_room_go prev_rooms tch rest (Some t) (Some dist)
        else best_room_go prev_rooms tch rest best best_dist
  end.

(** The slot argument of the Python function is not used. *)
Definition find_best_room_for_teacher (tasks : list task) (tch : string)
    (teacher_slots : teacher_slots_t) : option task :=
  let prev_rooms :=
    (map_to_list (default ∅ (teacher_slots !! tch))).*2 in
  best_room_go prev_rooms tch tasks None None.

(** ** Orders and selections used in the statements *)

(** The order inside a band: heavier first, then by code. *)
Definition band_order (a b : task) : Prop :=
  (weight b < weight a)%Q
  \/ ((weight a == weight b)%Q /\ String.leb (code a) (code b) = true).

(** Credits whose float sum is exact: non-negative multiples of 1/2 with
    a total of at most 2^50, so that every partial sum is a float. *)
Definition exact_credits (subs : list subject) : Prop :=
  Forall (fun s => exists k : Z, 0 <= k /\ (credit s == k # 2)%Q) subs
  /\ (sum_credit subs <= inject_Z (2 ^ 50))%Q.

(** The teacher's tasks, and among them the ones in a room the teacher
    already has. *)
Definition tasks_of (tch : string) (tasks : list task) : list task :=
  List.filter (fun t => String.eqb (teacher t) tch) tasks.

Definition near (prev_rooms : list string) (t : task) : bool :=
  bool_decide (prev_rooms = [] \/ group t ∈ prev_rooms).

(** * Proofs *)

(** Closes a decidable goal about closed terms by evaluation. *)
Ltac by_evaluation := apply (bool_decide_unpack _); vm_compute; exact I.

(** ** Facts about strings *)

Lemma app_cons c (s t : string) : String c s +:+ t = String c (s +:+ t).
Proof. reflexivity. Qed.

Lemma app_nil_l (t : string) : "" +:+ t = t.
Proof. reflexivity. Qed.

Lemma all_cons p c s : Str.all p (String c s) = p c && Str.all p s.
Proof. reflexivity. Qed.

Lemma all_app p (s t : string) :
  Str.all p (s +:+ t) = Str.all p s && Str.all p t.
Proof.
  induction s as [|c s IH]; [reflexivity|].
  rewrite app_cons, !all_cons, IH. apply andb_assoc.
Qed.

Lemma all_impl (p q : ascii -> bool) s :
  (forall c, p c = true -> q c = true) ->
  Str.all p s = true -> Str.all q s = true.
Proof.
  intros Hpq. induction s as [|c s IH]; [reflexivity|].
  rewrite !all_cons, !andb_true_iff. intros [? ?]. auto.
Qed.

(** What [span] returns: the prefix satisfies [p], the rest does not
    start with a character satisfying [p]. *)
Lemma span_spec p s a b :
  Str.span p s = (a, b) ->
  s = a +:+ b /\ Str.all p a = true /\
  match b with String c _ => p c = false | EmptyString => True end.
Proof.
  revert a b. induction s as [|c s IH]; intros a b; simpl.
  - intros [= <- <-]. auto.
  - destruct (p c) eqn:Hc.
    + destruct (Str.span p s) as [a' b']. intros [= <- <-].
      destruct (IH _ _ eq_refl) as (-> & Ha & Hb).
      rewrite app_cons, all_cons, Hc. auto.
    + intros [= <- <-]. rewrite Hc. auto.
Qed.

Lemma span_app p a b :
  Str.all p a = true ->
  match b with String c _ => p c = false | EmptyString => True end ->
  Str.span p (a +:+ b) = (a, b).
Proof.
  intros Ha Hb. induction a as [|c a IH].
  - rewrite app_nil_l. destruct b as [|c b]; [reflexivity|].
    simpl. now rewrite Hb.
  - rewrite all_cons, andb_true_iff in Ha. destruct Ha as [Hc Ha].
    rewrite app_cons. simpl. now rewrite Hc, (IH Ha).
Qed.

Lemma match_letters_digits_Some s letter number :
  match_letters_digits s = Some (letter, number) ->
  letter <> "" /\ number <> "" /\
  Str.all Str.is_upper letter = true /\
  Str.all Str.is_digit number = true /\
  exists rest, s = letter +:+ number +:+ rest.
Proof.
  unfold match_letters_digits.
  destruct (Str.span Str.is_upper s) as [l r] eqn:E1.
  destruct (Str.span Str.is_digit r) as [d r'] eqn:E2.
  destruct l; [discriminate|]. destruct d; [discriminate|].
  intros [= <- <-].
  apply span_spec in E1 as (-> & Hl & _).
  apply span_spec in E2 as (-> & Hd & _).
  repeat split; try discriminate; eauto.
Qed.

Lemma upper_id s :
  Str.all (fun c => negb (Str.is_lower c)) s = true -> Str.upper s = s.
Proof.
  induction s as [|c s IH]; [reflexivity|].
  rewrite all_cons, andb_true_iff, negb_true_iff. intros [Hc Hs].
  simpl. unfold Str.upper_char. now rewrite Hc, IH.
Qed.

Lemma rstrip_id s :
  Str.all (fun c => negb (Str.is_space c)) s = true -> Str.rstrip s = s.
Proof.
  induction s as [|c s IH]; [reflexivity|].
  rewrite all_cons, andb_true_iff, negb_true_iff. intros [Hc Hs].
  simpl. rewrite (IH Hs), Hc. now destruct s.
Qed.

Lemma strip_id s :
  Str.all (fun c => negb (Str.is_space c)) s = true -> Str.strip s = s.
Proof.
  intros H. unfold Str.strip.
  assert (Str.lstrip s = s) as ->; [|now apply rstrip_id].
  destruct s as [|c s]; [reflexivity|].
  rewrite all_cons, andb_true_iff, negb_true_iff in H.
  simpl. now rewrite (proj1 H).
Qed.

Lemma label_char_plain c :
  is_label_char c = true ->
  negb (Str.is_space c) = true /\ negb (Str.is_lower c) = true.
Proof.
  unfold is_label_char, Str.is_upper, Str.is_digit, Str.is_space,
    Str.is_lower, Str.code.
  rewrite !orb_true_iff, !andb_true_iff, !negb_true_iff, Ascii.eqb_eq.
  intros [[[H1 H2]|[H1 H2]]| ->].
  - apply N.leb_le in H1, H2.
    split; [apply orb_false_iff; split|]; apply andb_false_iff;
      rewrite !N.leb_gt; lia.
  - apply N.leb_le in H1, H2.
    split; [apply orb_false_iff; split|]; apply andb_false_iff;
      rewrite !N.leb_gt; lia.
  - now vm_compute.
Qed.

Lemma digit_not_upper c : Str.is_digit c = true -> Str.is_upper c = false.
Proof.
  unfold Str.is_digit, Str.is_upper. rewrite !andb_true_iff.
  intros [H1 H2]. apply N.leb_le in H1, H2.
  apply andb_false_iff. rewrite !N.leb_gt. lia.
Qed.

Lemma string_of_uint_digits d :
  Str.all Str.is_digit (NilEmpty.string_of_uint d) = true.
Proof. induction d; simpl; try reflexivity; rewrite all_cons; exact IHd. Qed.

(** [str(v)] is an optional minus sign followed by digits. *)
Lemma of_int_shape v :
  exists sign digits,
    Str.of_int v = sign +:+ digits /\ (sign = "" \/ sign = "-") /\
    Str.all Str.is_digit digits = true.
Proof.
  unfold Str.of_int. destruct (Z.to_int v) as [d|d]; simpl.
  - exists "", (NilEmpty.string_of_uint d).
    auto using string_of_uint_digits.
  - exists "-", (NilEmpty.string_of_uint d).
    auto using string_of_uint_digits.
Qed.

Lemma match_letters_digits_not_upper c s :
  Str.is_upper c = false -> match_letters_digits (String c s) = None.
Proof.
  intros Hc. unfold match_letters_digits. simpl. rewrite Hc.
  now destruct (Str.span Str.is_digit (String c s)).
Qed.

Lemma match_letters_digits_exact letter number :
  letter <> "" -> number <> "" ->
  Str.all Str.is_upper letter = true ->
  Str.all Str.is_digit number = true ->
  match_letters_digits (letter +:+ number) = Some (letter, number).
Proof.
  intros Hl Hn Hu Hd. unfold match_letters_digits.
  rewrite (span_app Str.is_upper letter number Hu).
  - replace number with (number +:+ "") at 1.
    + rewrite (span_app Str.is_digit number "" Hd I).
      destruct letter, number; congruence.
    + clear. induction number as [|c n IH]; [reflexivity|].
      now rewrite app_cons, IH.
  - destruct number as [|c n]; [congruence|].
    rewrite all_cons, andb_true_iff in Hd. now apply digit_not_upper.
Qed.

Lemma convert_no_match room mapping :
  match_letters_digits (Str.upper (Str.strip room)) = None ->
  convert_room_letter_to_number room mapping = room.
Proof. unfold convert_room_letter_to_number. now intros ->. Qed.

Lemma plain_label_fixed s :
  Str.all is_label_char s = true -> Str.upper (Str.strip s) = s.
Proof.
  intros H. rewrite strip_id, upper_id; [reflexivity| |].
  - eapply all_impl; [|exact H]. intros c Hc. now apply label_char_plain.
  - eapply all_impl; [|exact H]. intros c Hc. now apply label_char_plain.
Qed.

Lemma py_int_nonneg_floor (x : Q) : (0 <= x)%Q -> py_int x = Qfloor x.
Proof.
  destruct x as [n d]. unfold Qle, py_int, Qfloor. simpl. intros H.
  apply Z.quot_div_nonneg; lia.
Qed.

Lemma task_count_floor (s : subject) :
  (0 <= credit s)%Q ->
  task_count s = Z.to_nat (Z.max 1 (Qfloor (credit s * 2))).
Proof.
  intros H. unfold task_count. rewrite py_int_nonneg_floor; [reflexivity|].
  apply Qmult_le_0_compat; [exact H|discriminate].
Qed.

Lemma insert_by_perm {A} (lt : A -> A -> bool) x l :
  insert_by lt x l ≡ₚ x :: l.
Proof.
  induction l as [|y l IH]; simpl; [reflexivity|].
  destruct (lt y x); [|reflexivity].
  rewrite IH. apply Permutation_swap.
Qed.

Lemma sorted_by_perm {A} (lt : A -> A -> bool) l : sorted_by lt l ≡ₚ l.
Proof.
  induction l as [|x l IH]; simpl; [reflexivity|].
  unfold sorted_by in *. simpl. now rewrite insert_by_perm, IH.
Qed.

(** ** What one scan does *)

Lemma scan_rooms_spec used rms rc found rc' :
  scan_rooms used rms rc = Some (found, rc') ->
  match found with
  | Some a => a ∈ rms /\ exists u, used = Some u /\ a ∉ u
  | None => Forall (fun a => exists u, used = Some u /\ a ∈ u) rms
            /\ rc' = rc || negb (bool_decide (rms = []))
  end.
Proof.
  revert rc. induction rms as [|a rms IH]; intros rc; cbn [scan_rooms].
  - intros [= <- <-]. split; [constructor|]. by rewrite orb_false_r.
  - destruct used as [u|]; [|done]. cbn [mbind option_bind].
    destruct (bool_decide_reflect (a ∈ u)) as [Ha|Ha].
    + intros E. apply IH in E. destruct found as [b|].
      * destruct E as [Hb Hu]. split; [by right|done].
      * destruct E as [HF ->]. split; [constructor; eauto|].
        by rewrite orb_true_r.
    + intros [= <- <-]. split; [by left|eauto].
Qed.

Lemma scan_rooms_total (u : gset string) rms rc :
  is_Some (scan_rooms (Some u) rms rc).
Proof.
  revert rc. induction rms as [|a rms IH]; intros rc; cbn [scan_rooms].
  - by eexists.
  - cbn [mbind option_bind]. destruct (bool_decide (a ∈ u)); [apply IH|].
    by eexists.
Qed.

Lemma busy_rooms_cons_Some ts sl t rest r :
  teacher_busy ts (teacher t) sl = Some r ->
  busy_rooms ts sl (t :: rest) = {[r]} ∪ busy_rooms ts sl rest.
Proof. intros H. unfold busy_rooms. simpl. by rewrite H. Qed.

Lemma busy_rooms_cons_None ts sl t rest :
  teacher_busy ts (teacher t) sl = None ->
  busy_rooms ts sl (t :: rest) = busy_rooms ts sl rest.
Proof. intros H. unfold busy_rooms. simpl. by rewrite H. Qed.

Lemma busy_rooms_elem ts sl tasks r :
  r ∈ busy_rooms ts sl tasks <->
  exists t, t ∈ tasks /\ teacher_busy ts (teacher t) sl = Some r.
Proof.
  unfold busy_rooms. rewrite elem_of_list_to_set, list_elem_of_omap.
  naive_solver.
Qed.

Lemma room_flag_cons_Some ts sl t rest r :
  teacher_busy ts (teacher t) sl = Some r ->
  room_flag ts sl (t :: rest) = room_flag ts sl rest.
Proof.
  intros H. unfold room_flag. cbn [existsb].
  by rewrite H, bool_decide_eq_false_2.
Qed.

Lemma room_flag_cons_None ts sl t rest :
  teacher_busy ts (teacher t) sl = None ->
  room_flag ts sl (t :: rest)
  = negb (bool_decide (actual_room t = [])) || room_flag ts sl rest.
Proof.
  intros H. unfold room_flag. cbn [existsb].
  by rewrite H, bool_decide_eq_true_2.
Qed.

(** The result of a scan: the task placed is the first one that is not
    blocked, with its first free room; [tr_rooms] has gained the rooms of
    the clashes met on the way, and [room_conf], when nothing is placed,
    tells whether some task with a free teacher had a room to test. *)
Lemma scan_tasks_spec sl used ts tasks tr rc res tr' rc' :
  scan_tasks sl used ts tasks tr rc = Some (res, tr', rc') ->
  match res with
  | Some (t, a) =>
      exists pre post u,
        tasks = (pre ++ t :: post)%list
        /\ Forall (blocked used ts sl) pre
        /\ teacher_busy ts (teacher t) sl = None
        /\ a ∈ actual_room t /\ used = Some u /\ a ∉ u
        /\ tr' = busy_rooms ts sl pre ∪ tr
  | None =>
      Forall (blocked used ts sl) tasks
      /\ tr' = busy_rooms ts sl tasks ∪ tr
      /\ rc' = rc || room_flag ts sl tasks
  end.
Proof.
  revert tr rc. induction tasks as [|t rest IH]; intros tr rc;
    cbn [scan_tasks].
  - intros [= <- <- <-]. split; [constructor|].
    split; [set_solver|by rewrite orb_false_r].
  - destruct (teacher_busy ts (teacher t) sl) as [r|] eqn:Hb.
    + intros E. apply IH in E.
      assert (Hbl : blocked used ts sl t) by (left; by rewrite Hb).
      destruct res as [[t' a]|].
      * destruct E as (pre & post & u & -> & Hpre & Hb' & Ha & Hu & Hna & ->).
        exists (t :: pre), post, u.
        rewrite (busy_rooms_cons_Some _ _ _ _ _ Hb).
        split; [done|]. split; [by constructor|].
        do 4 (split; [done|]). set_solver.
      * destruct E as (HF & -> & ->).
        rewrite (busy_rooms_cons_Some _ _ _ _ _ Hb).
        split; [by constructor|]. split; [set_solver|].
        by rewrite (room_flag_cons_Some _ _ _ _ _ Hb).
    + destruct (scan_rooms used (actual_room t) rc) as [[found rc1]|] eqn:Er;
        [|done].
      apply scan_rooms_spec in Er. cbn [mbind option_bind].
      destruct found as [a|].
      * intros [= <- <- <-]. destruct Er as (Ha & u & Hu & Hna).
        exists [], rest, u.
        split; [done|]. split; [constructor|].
        do 4 (split; [done|]). unfold busy_rooms. simpl. set_solver.
      * destruct Er as [HF ->]. intros E. apply IH in E.
        assert (Hbl : blocked used ts sl t) by (by right).
        destruct res as [[t' a]|].
        -- destruct E as (pre & post & u & -> & Hpre & Hb' & Ha & Hu & Hna & ->).
           exists (t :: pre), post, u.
           rewrite (busy_rooms_cons_None _ _ _ _ Hb).
           split; [done|]. split; [by constructor|].
           by do 4 (split; [done|]).
        -- destruct E as (HF' & -> & ->).
           rewrite (busy_rooms_cons_None _ _ _ _ Hb).
           split; [by constructor|]. split; [done|].
           by rewrite (room_flag_cons_None _ _ _ _ Hb), orb_assoc.
Qed.

Lemma scan_tasks_total sl (u : gset string) ts tasks tr rc :
  is_Some (scan_tasks sl (Some u) ts tasks tr rc).
Proof.
  revert tr rc. induction tasks as [|t rest IH]; intros tr rc;
    cbn [scan_tasks]; [by eexists|].
  destruct (teacher_busy ts (teacher t) sl); [apply IH|].
  destruct (scan_rooms_total u (actual_room t) rc) as [[found rc1] ->].
  cbn [mbind option_bind]. destruct found; [by eexists|apply IH].
Qed.

(** A scan whose tasks are all blocked places nothing and never fails. *)
Lemma scan_tasks_blocked sl used ts tasks tr rc :
  Forall (blocked used ts sl) tasks ->
  scan_tasks sl used ts tasks tr rc
  = Some (None, busy_rooms ts sl tasks ∪ tr, rc || room_flag ts sl tasks).
Proof.
  intros HF. assert (exists r, scan_tasks sl used ts tasks tr rc = Some r)
    as [[[res tr'] rc'] E].
  { revert tr rc. induction HF as [|t rest Ht _ IH]; intros tr rc;
      cbn [scan_tasks]; [by eexists|].
    destruct (teacher_busy ts (teacher t) sl) as [r|] eqn:Hb; [apply IH|].
    destruct Ht as [[r Hr]|Ht]; [congruence|].
    assert (exists rc1, scan_rooms used (actual_room t) rc = Some (None, rc1))
      as [rc1 ->].
    { clear IH Hb. revert rc.
      induction Ht as [|a rms (u & -> & Ha) _ IHr]; intros rc;
        cbn [scan_rooms]; [by eexists|].
      cbn [mbind option_bind]. rewrite bool_decide_eq_true_2 by done.
      apply IHr. }
    cbn [mbind option_bind]. apply IH. }
  rewrite E. apply scan_tasks_spec in E. destruct res as [[t a]|].
  - exfalso. destruct E as (pre & post & u & -> & _ & Hb & Ha & Hu & Hna & _).
    apply Forall_app in HF as [_ HF]. apply Forall_cons in HF as [Ht _].
    destruct Ht as [[r Hr]|Ht]; [congruence|].
    rewrite Forall_forall in Ht. destruct (Ht _ Ha) as (u' & Hu' & Hin).
    congruence.
  - by destruct E as (_ & -> & ->).
Qed.

(** ** What one slot does *)

Lemma slot_step_spec m st sl st' :
  slot_step m st sl = Some st' ->
  exists k, parse_slot sl = Some k /\ step_outcome m st sl k st'.
Proof.
  unfold slot_step. destruct (parse_slot sl) as [k|]; [|done].
  cbn [mbind option_bind]. intros E. exists k. split; [done|].
  destruct (cell_eqb_empty (table_at (st_table st) k)) eqn:He;
    cbn [negb] in E.
  2:{ injection E as <-. by apply step_skip. }
  destruct (scan_tasks sl (st_used st !! sl) (st_teacher st) (st_pool st)
              ∅ false) as [[[res tr'] rc']|] eqn:Es; [|done].
  apply scan_tasks_spec in Es. cbn [mbind option_bind] in E.
  destruct res as [[t a]|].
  - destruct Es as (pre & post & u & Hp & Hpre & Hb & Ha & Hu & Hna & _).
    rewrite Hu in E, Hpre. cbn [mbind option_bind] in E. injection E as <-.
    by eapply (step_place m st sl k u pre t post a).
  - destruct Es as (HF & -> & ->). injection E as <-.
    rewrite (right_id_L ∅ (∪)). cbn [orb].
    by apply (step_diag m st sl k).
Qed.

Lemma slot_step_total m st sl :
  is_Some (parse_slot sl) -> is_Some (st_used st !! sl) ->
  is_Some (slot_step m st sl).
Proof.
  intros [k Hk] [u Hu]. unfold slot_step. rewrite Hk, Hu.
  cbn [mbind option_bind].
  destruct (cell_eqb_empty (table_at (st_table st) k)); cbn [negb];
    [|by eexists].
  destruct (scan_tasks_total sl u (st_teacher st) (st_pool st) ∅ false)
    as [[[res tr'] rc'] ->].
  cbn [mbind option_bind]. destruct res as [[t a]|]; by eexists.
Qed.

Lemma step_outcome_dom m st sl k st' :
  step_outcome m st sl k st' -> dom (st_used st') = dom (st_used st).
Proof.
  destruct 1 as [|u pre t post a _ Hu|]; try done.
  cbn. rewrite dom_insert_L.
  apply (elem_of_dom_2 (D:=gset string)) in Hu. set_solver.
Qed.

(** Walking a list of slots keeps whatever each step keeps. *)
Lemma walk_slots_spec (P : run_state -> Prop) m slots st st' :
  walk_slots m slots st = Some st' ->
  P st ->
  (forall st1 sl k st2,
     sl ∈ slots -> parse_slot sl = Some k ->
     P st1 -> step_outcome m st1 sl k st2 -> P st2) ->
  P st' /\ dom (st_used st') = dom (st_used st).
Proof.
  revert st. induction slots as [|sl rest IH]; intros st E HP Hstep.
  - injection E as <-. done.
  - cbn [walk_slots] in E.
    destruct (slot_step m st sl) as [st1|] eqn:E1; [|done].
    cbn [mbind option_bind] in E.
    apply slot_step_spec in E1 as (k & Hk & Ho).
    pose proof (step_outcome_dom _ _ _ _ _ Ho) as Hd.
    destruct (IH st1 E) as [HP' Hd'].
    + eapply Hstep; [by left|exact Hk|exact HP|exact Ho].
    + intros st2 s k2 st3 Hin. apply Hstep. by right.
    + split; [done|congruence].
Qed.

(** The walk runs to the end when the labels parse and are keys of
    [slots_used]. *)
Lemma walk_slots_total m slots st :
  Forall (fun sl => is_Some (parse_slot sl)
                    /\ is_Some (st_used st !! sl)) slots ->
  is_Some (walk_slots m slots st).
Proof.
  revert st. induction slots as [|sl rest IH]; intros st Hok.
  - by eexists.
  - apply Forall_cons in Hok as [[Hk Hu] Hrest].
    destruct (slot_step_total m st sl Hk Hu) as [st1 E1].
    cbn [walk_slots]. rewrite E1. cbn [mbind option_bind]. apply IH.
    apply slot_step_spec in E1 as (k & _ & Ho).
    apply step_outcome_dom in Ho.
    eapply Forall_impl; [exact Hrest|]. intros s [? Hs']. split; [done|].
    apply (elem_of_dom (D:=gset string)). rewrite Ho. by apply elem_of_dom.
Qed.
(** ** Well-formed input *)

Lemma day_code_in_days dn d :
  DAY_TH_TO_CODE !! dn = Some d -> d ∈ days.
Proof.
  intros H. apply elem_of_list_to_map_2 in H.
  repeat (apply elem_of_cons in H as [[= -> ->]|H];
          [by apply (bool_decide_unpack _)|]).
  by apply elem_of_nil in H.
Qed.

Lemma day_map_total d : d ∈ days -> is_Some (day_map !! d).
Proof.
  intros H. unfold days in H.
  repeat (apply elem_of_cons in H as [->|H]; [by eexists|]).
  by apply elem_of_nil in H.
Qed.

Lemma slot_label_in_grid d p :
  d ∈ days -> 1 <= p <= 11 -> slot_label d p ∈ all_slot_labels.
Proof.
  intros Hd Hp. unfold all_slot_labels.
  apply list_elem_of_In, in_flat_map. exists d. split.
  - by apply list_elem_of_In.
  - apply list_elem_of_In, list_elem_of_fmap. exists p. split; [done|].
    apply elem_of_seqZ. lia.
Qed.

Lemma has_slot_keys_lookup su sl :
  has_slot_keys su -> sl ∈ all_slot_labels -> is_Some (su !! sl).
Proof. unfold has_slot_keys. rewrite Forall_forall. auto. Qed.

Lemma has_slot_keys_dom su su' :
  dom su' = dom su -> has_slot_keys su -> has_slot_keys su'.
Proof.
  intros Hd H. eapply Forall_impl; [exact H|]. intros sl Hs. cbn.
  apply (elem_of_dom (D:=gset string)). rewrite Hd. by apply elem_of_dom.
Qed.

(** ** The lock loop *)

Lemma used_le_refl su : used_le su su.
Proof. intros sl u H. by exists u. Qed.

Lemma used_le_trans su1 su2 su3 :
  used_le su1 su2 -> used_le su2 su3 -> used_le su1 su3.
Proof.
  intros H1 H2 sl u Hu.
  destruct (H1 _ _ Hu) as (u' & Hu' & ?).
  destruct (H2 _ _ Hu') as (u'' & Hu'' & ?).
  exists u''. split; [done|]. set_solver.
Qed.

Lemma used_le_insert (su : slots_used_t) sl u (x : gset string) :
  su !! sl = Some u -> used_le su (<[sl := x ∪ u]> su).
Proof.
  intros Hu sl' u' Hu'. destruct (decide (sl = sl')) as [<-|Hne].
  - rewrite lookup_insert_eq. eexists. split; [done|].
    assert (u' = u) as -> by congruence. set_solver.
  - rewrite lookup_insert_ne by done. by exists u'.
Qed.

Lemma lock_table_cons (grp : string) (lk : lock) (locks : list lock)
    (tb : table) :
  lock_table grp (lk :: locks) tb
  = lock_table grp locks
      (if lock_matches grp lk then
         match lock_cell lk with
         | Some k => <[k := Text (name lk)]> tb
         | None => tb
         end
       else tb).
Proof. reflexivity. Qed.

(** When the lock loop ends, the table is [lock_table], and
    [slots_used] has the same keys and has only grown. *)
Lemma apply_locks_spec (grp : string) (locks : list lock) (tb : table)
    su tb' su' :
  apply_locks grp locks (tb, su) = Some (tb', su') ->
  tb' = lock_table grp locks tb /\ used_le su su' /\ dom su' = dom su.
Proof.
  revert tb su. induction locks as [|lk locks IH]; intros tb su.
  - intros [= <- <-]. split; [done|]. split; [apply used_le_refl|done].
  - rewrite lock_table_cons. cbn [apply_locks]. unfold apply_lock, lock_cell.
    destruct (lock_matches grp lk).
    2:{ cbn [mbind option_bind]. apply IH. }
    destruct (DAY_TH_TO_CODE !! day lk) as [d|]; [|done].
    cbn [mbind option_bind].
    destruct (day_map !! d) as [row|]; [|done].
    cbn [mbind option_bind].
    destruct (su !! slot_label d (period lk)) as [u|] eqn:Hu; [|done].
    cbn [mbind option_bind].
    intros H. apply IH in H as (-> & Hle & Hd). split; [done|]. split.
    + eapply used_le_trans; [|exact Hle]. by apply used_le_insert.
    + rewrite Hd, dom_insert_L.
      apply (elem_of_dom_2 (D:=gset string)) in Hu. set_solver.
Qed.

Lemma apply_locks_total (grp : string) (locks : list lock) (tb : table) su :
  Forall lock_ok locks -> has_slot_keys su ->
  is_Some (apply_locks grp locks (tb, su)).
Proof.
  intros Hl. revert tb su.
  induction Hl as [|lk locks [[d Hd] Hp] _ IH]; intros tb su Hk.
  - by eexists.
  - cbn [apply_locks]. unfold apply_lock.
    destruct (lock_matches grp lk).
    2:{ cbn [mbind option_bind]. by apply IH. }
    rewrite Hd. cbn [mbind option_bind].
    pose proof (day_code_in_days _ _ Hd) as Hin.
    destruct (day_map_total d Hin) as [row ->]. cbn [mbind option_bind].
    destruct (has_slot_keys_lookup su (slot_label d (period lk)) Hk) as [u Hu].
    { by apply slot_label_in_grid. }
    rewrite Hu. cbn [mbind option_bind]. apply IH.
    apply (has_slot_keys_dom su); [|done]. rewrite dom_insert_L.
    apply (elem_of_dom_2 (D:=gset string)) in Hu. set_solver.
Qed.

(** The cells of the grid and the labels of the slots. *)
Lemma all_slot_labels_parse :
  Forall (fun sl => is_Some (parse_slot sl)) all_slot_labels.
Proof. by_evaluation. Qed.

Lemma parse_slot_inj sl1 sl2 k :
  sl1 ∈ all_slot_labels -> sl2 ∈ all_slot_labels ->
  parse_slot sl1 = Some k -> parse_slot sl2 = Some k -> sl1 = sl2.
Proof.
  intros H1 H2 E1 E2.
  assert (NoDup (parse_slot <$> all_slot_labels)) as Hnd.
  { by_evaluation. }
  apply list_elem_of_lookup in H1 as [i Hi], H2 as [j Hj].
  assert (i = j) as ->; [|congruence].
  eapply NoDup_lookup; [exact Hnd| |]; rewrite list_lookup_fmap.
  - rewrite Hi. cbn. by rewrite E1.
  - rewrite Hj. cbn. by rewrite E2.
Qed.

Lemma generate_schedule_slots_grid x :
  generate_schedule_slots x ⊆ all_slot_labels.
Proof.
  unfold generate_schedule_slots.
  destruct (Qle_bool x 18); by_evaluation.
Qed.

Lemma ordered_slots_ok x su :
  has_slot_keys su ->
  Forall (fun sl => is_Some (parse_slot sl) /\ is_Some (su !! sl))
         (generate_schedule_slots x).
Proof.
  intros Hk. apply Forall_forall. intros sl Hin.
  apply generate_schedule_slots_grid in Hin. split.
  - pose proof all_slot_labels_parse as H.
    rewrite Forall_forall in H. auto.
  - by apply has_slot_keys_lookup.
Qed.

(** ** The two phases of [schedule_room] *)

(** A property of the state that holds once the locks are applied, and
    that every step of the slot loop keeps, holds of what the call
    returns. *)
Lemma schedule_room_spec (P : run_state -> Prop)
    (grp : string) subjects su ts (locks : list lock) m tb leftover su' ts' :
  schedule_room grp subjects su ts locks m = Some (tb, leftover, su', ts') ->
  let subs := group_subjects grp subjects in
  let slots := generate_schedule_slots (sum_credit subs) in
  (forall su0, used_le su su0 ->
     P (mkState (lock_table grp locks ∅) su0 ts (candidate_pool subs))) ->
  (forall st1 sl k st2,
     sl ∈ slots -> parse_slot sl = Some k ->
     P st1 -> step_outcome m st1 sl k st2 -> P st2) ->
  P (mkState tb su' ts' leftover) /\ dom su' = dom su.
Proof.
  intros E subs slots H0 Hstep. unfold schedule_room in E.
  destruct (apply_locks grp locks (∅, su)) as [[tb0 su0]|] eqn:E0; [|done].
  cbn [mbind option_bind] in E. fold subs in E. fold slots in E.
  apply apply_locks_spec in E0 as (-> & Hle & Hd0).
  destruct (walk_slots m slots _) as [st|] eqn:Ew; [|done].
  cbn [mbind option_bind] in E. injection E as <- <- <- <-.
  destruct (walk_slots_spec P m slots _ st Ew (H0 su0 Hle) Hstep) as [HP Hd].
  split; [by destruct st|]. cbn in Hd. congruence.
Qed.

Lemma schedule_room_total (grp : string) subjects su ts (locks : list lock) m :
  Forall lock_ok locks -> has_slot_keys su ->
  is_Some (schedule_room grp subjects su ts locks m).
Proof.
  intros Hl Hk. unfold schedule_room.
  destruct (apply_locks_total grp locks ∅ su Hl Hk) as [[tb0 su0] E0].
  rewrite E0. cbn [mbind option_bind].
  apply apply_locks_spec in E0 as (_ & _ & Hd0).
  destruct (walk_slots_total m
              (generate_schedule_slots
                 (sum_credit (group_subjects grp subjects)))
              (mkState tb0 su0 ts
                 (candidate_pool (group_subjects grp subjects))))
    as [st ->]; [|by eexists].
  apply ordered_slots_ok. by apply (has_slot_keys_dom su).
Qed.

(** ** Counting *)

Lemma empty_cell_not_placement (tb : table) k :
  cell_eqb_empty (table_at tb k) = true ->
  forall c, tb !! k = Some c -> ~ is_placement c.
Proof.
  unfold table_at. intros H c Hc. rewrite Hc in H. cbn in H.
  destruct c; cbn; [tauto|discriminate].
Qed.

Lemma placements_insert_text (tb : table) k s :
  cell_eqb_empty (table_at tb k) = true ->
  placements (<[k := Text s]> tb) = placements tb.
Proof.
  intros H. unfold placements. rewrite map_filter_insert_not'; [done|auto|].
  intros c Hc. cbn. by apply (empty_cell_not_placement tb k).
Qed.

Lemma placements_insert_placement (tb : table) k c t r :
  cell_eqb_empty (table_at tb k) = true ->
  placements (<[k := Placement c t r]> tb) = S (placements tb).
Proof.
  intros H. unfold placements. rewrite map_filter_insert_True by done.
  apply map_size_insert_None, map_lookup_filter_None. right.
  intros x Hx. cbn. by apply (empty_cell_not_placement tb k).
Qed.

Lemma placements_all_text (tb : table) :
  (forall k c, tb !! k = Some c -> ~ is_placement c) -> placements tb = 0%nat.
Proof.
  intros H. unfold placements. apply map_size_empty_iff, map_empty.
  intros k. apply map_lookup_filter_None. right. intros c Hc. cbn. eauto.
Qed.

Lemma lock_table_text (grp : string) (locks : list lock) (tb : table) :
  (forall k c, tb !! k = Some c -> ~ is_placement c) ->
  forall k c, lock_table grp locks tb !! k = Some c -> ~ is_placement c.
Proof.
  revert tb. induction locks as [|lk locks IH]; intros tb H; [done|].
  cbn [lock_table foldl]. apply IH.
  destruct (lock_matches grp lk); [|done].
  destruct (lock_cell lk) as [k0|]; [|done].
  intros k c. rewrite lookup_insert. case_decide; [|by apply H].
  intros [= <-]. auto.
Qed.

Lemma task_eqb_refl t : task_eqb t t = true.
Proof.
  unfold task_eqb. rewrite !String.eqb_refl, bool_decide_eq_true_2 by done.
  assert (forall q, Qeq_bool q q = true) as Hq.
  { intros q. apply Qeq_bool_iff. reflexivity. }
  by rewrite !Hq.
Qed.

Lemma remove_first_length t l :
  t ∈ l -> S (length (remove_first t l)) = length l.
Proof.
  induction l as [|x l IH]; intros Hin; [by apply elem_of_nil in Hin|].
  cbn. destruct (task_eqb x t) eqn:E; [done|].
  apply elem_of_cons in Hin as [->|Hin].
  - by rewrite task_eqb_refl in E.
  - cbn. by rewrite IH.
Qed.

Lemma candidate_pool_perm subs : candidate_pool subs ≡ₚ expand_tasks subs.
Proof.
  unfold candidate_pool, sort_by_building.
  set (n := if Qle_bool (sum_credit subs) 18 then 15%nat else 20%nat).
  rewrite !sorted_by_perm.
  rewrite <- (take_drop n (expand_tasks subs)) at 4.
  apply Permutation_app_head.
  rewrite <- (take_drop 10 (drop n (expand_tasks subs))) at 2.
  by rewrite drop_drop.
Qed.

Lemma expand_tasks_length subs :
  length (expand_tasks subs) = sum_list (task_count <$> subs).
Proof.
  unfold expand_tasks. induction subs as [|s subs IH]; [done|].
  cbn. rewrite length_app, IH. unfold copies. by rewrite repeat_length.
Qed.

(** ** Locks *)

Lemma lock_table_lookup (grp : string) (locks : list lock) (tb : table) k :
  lock_table grp locks tb !! k
  = match last_lock grp locks k with
    | Some lk => Some (Text (name lk))
    | None => tb !! k
    end.
Proof.
  revert tb. unfold last_lock.
  induction locks as [|lk locks IH]; intros tb; [done|].
  rewrite lock_table_cons, IH. clear IH. cbn [List.filter].
  destruct (lock_matches grp lk); cbn [andb].
  2:{ done. }
  destruct (lock_cell lk) as [k0|].
  2:{ by rewrite bool_decide_eq_false_2. }
  destruct (decide (k0 = k)) as [->|Hne].
  - rewrite bool_decide_eq_true_2 by done. rewrite last_cons.
    destruct (last _); [done|]. by rewrite lookup_insert_eq.
  - rewrite bool_decide_eq_false_2 by congruence.
    destruct (last _); [done|]. by rewrite lookup_insert_ne.
Qed.

Lemma last_lock_Some (grp : string) (locks : list lock) k lk :
  last_lock grp locks k = Some lk ->
  lk ∈ locks /\ lock_matches grp lk = true /\ lock_cell lk = Some k.
Proof.
  unfold last_lock. intros H. apply last_Some_elem_of in H.
  apply list_elem_of_In, filter_In in H as [Hin Hf].
  apply andb_true_iff in Hf as [Hm Hc].
  apply bool_decide_eq_true in Hc. by rewrite <- list_elem_of_In in Hin.
Qed.

Lemma last_lock_exists (grp : string) (locks : list lock) k lk :
  lk ∈ locks -> lock_matches grp lk = true -> lock_cell lk = Some k ->
  is_Some (last_lock grp locks k).
Proof.
  intros Hin Hm Hc. unfold last_lock.
  destruct (last _) eqn:E; [by eexists|].
  apply last_None in E.
  assert (lk ∈ List.filter (fun lk => lock_matches grp lk
                               && bool_decide (lock_cell lk = Some k)) locks)
    as Hf.
  { apply list_elem_of_In, filter_In. rewrite <- list_elem_of_In.
    split; [done|]. by rewrite Hm, bool_decide_eq_true_2. }
  rewrite E in Hf. by apply elem_of_nil in Hf.
Qed.

(** A cell that is not empty is never written again by the slot loop. *)
Lemma step_outcome_keeps_cell m st sl k st' (k0 : string * Z) c0 :
  step_outcome m st sl k st' ->
  st_table st !! k0 = Some c0 -> cell_eqb_empty c0 = false ->
  st_table st' !! k0 = Some c0.
Proof.
  intros Ho H0 Hc.
  assert (cell_eqb_empty (table_at (st_table st) k) = true -> k <> k0) as Hne.
  { intros He ->. unfold table_at in He. rewrite H0 in He. cbn in He.
    congruence. }
  destruct Ho as [|u pre t post a He|He]; [done|..]; cbn;
    by rewrite lookup_insert_ne by auto.
Qed.

(** ** The candidate pool *)

Lemma task_eqb_fields a b :
  task_eqb a b = true ->
  teacher a = teacher b /\ actual_room a = actual_room b.
Proof.
  unfold task_eqb. rewrite !andb_true_iff.
  intros [[[[[_ _] Ht] _] _] Hr].
  apply String.eqb_eq in Ht. by apply bool_decide_eq_true in Hr.
Qed.

(** Removing a task leaves the tasks that differ from it in place. *)
Lemma remove_first_keeps t t' l :
  t ∈ l -> task_eqb t t' = false -> t ∈ remove_first t' l.
Proof.
  intros Hin Hne. induction l as [|x l IH]; [done|]. cbn.
  apply elem_of_cons in Hin as [<-|Hin].
  - rewrite Hne. by left.
  - destruct (task_eqb x t'); [done|]. right. auto.
Qed.

(** ** Diagnostic labels *)

Lemma string_app_assoc (a b c : string) : (a +:+ b) +:+ c = a +:+ b +:+ c.
Proof.
  induction a as [|x a IH]; [done|].
  change (String x ((a +:+ b) +:+ c) = String x (a +:+ b +:+ c)).
  by rewrite IH.
Qed.

Lemma fmt_no_subject tr rc n :
  fmt tr rc n = "ไม่มีวิชา" <-> n = 0%nat.
Proof.
  unfold fmt. destruct n as [|n]; [done|]. cbn [Nat.eqb].
  split; [|done].
  destruct (bool_decide (tr = ∅)), rc; cbn; discriminate.
Qed.

Lemma fmt_unplaceable tr rc n :
  n <> 0%nat ->
  fmt tr rc n
  = match bool_decide (tr = ∅), rc with
    | true, false => "ไม่ได้"
    | true, true => "ไม่ได้(ห้องเต็ม)"
    | false, false => "ไม่ได้(ครูชนที่ " +:+ clash_names tr +:+ ")"
    | false, true => "ไม่ได้(ครูชนที่ " +:+ clash_names tr +:+ ", ห้องเต็ม)"
    end.
Proof.
  intros Hn. unfold fmt. destruct n as [|n]; [done|]. cbn [Nat.eqb].
  fold (clash_names tr).
  destruct (bool_decide (tr = ∅)), rc; cbn [app Str.join String.concat];
    try reflexivity.
  by rewrite !string_app_assoc.
Qed.

Lemma blocked_not_placeable used ts sl t a :
  blocked used ts sl t -> teacher_busy ts (teacher t) sl = None ->
  a ∈ actual_room t -> exists u, used = Some u /\ a ∈ u.
Proof.
  intros [[r Hr]|HF] Hb Ha; [congruence|].
  rewrite Forall_forall in HF. auto.
Qed.

Lemma room_flag_true ts sl tasks :
  room_flag ts sl tasks = true <->
  exists t, t ∈ tasks /\ teacher_busy ts (teacher t) sl = None
            /\ actual_room t <> [].
Proof.
  unfold room_flag. rewrite existsb_exists. split.
  - intros (t & Hin & H). apply andb_true_iff in H as [H1 H2].
    apply bool_decide_eq_true in H1.
    apply negb_true_iff, bool_decide_eq_false in H2.
    exists t. by rewrite list_elem_of_In.
  - intros (t & Hin & H1 & H2). exists t.
    rewrite <- list_elem_of_In. split; [done|].
    by rewrite bool_decide_eq_true_2, bool_decide_eq_false_2.
Qed.

(** ** Tasks without a room *)

Lemma scan_tasks_no_room sl used ts t rest tr rc :
  actual_room t = [] ->
  scan_tasks sl used ts (t :: rest) tr rc
  = scan_tasks sl used ts rest
      (match teacher_busy ts (teacher t) sl with
       | Some r => {[r]} ∪ tr
       | None => tr
       end) rc.
Proof.
  intros H. cbn [scan_tasks]. rewrite H.
  by destruct (teacher_busy ts (teacher t) sl).
Qed.

Lemma copies_elem s : s ∈ copies s.
Proof.
  unfold copies, task_count.
  destruct (Z.to_nat (1 `max` py_int (credit s * 2))) as [|n] eqn:E; [lia|].
  by left.
Qed.

Lemma candidate_pool_elem (grp : string) subjects s :
  s ∈ subjects -> group s = grp ->
  s ∈ candidate_pool (group_subjects grp subjects).
Proof.
  intros Hin Hg. rewrite candidate_pool_perm. unfold expand_tasks.
  apply list_elem_of_In, in_flat_map. exists s. split.
  - apply filter_In. rewrite <- list_elem_of_In. split; [done|].
    by apply String.eqb_eq.
  - apply list_elem_of_In, copies_elem.
Qed.

(** ** The room-label mapping and the decisions of the scheduler *)

Lemma table_at_erase (tb : table) k :
  cell_eqb_empty (table_at (erase_room <$> tb) k)
  = cell_eqb_empty (table_at tb k).
Proof.
  unfold table_at. rewrite lookup_fmap.
  destruct (tb !! k) as [[s|c t r]|]; reflexivity.
Qed.

Lemma table_at_erase_eq (tb1 tb2 : table) k :
  erase_room <$> tb1 = erase_room <$> tb2 ->
  cell_eqb_empty (table_at tb1 k) = cell_eqb_empty (table_at tb2 k).
Proof.
  intros H. by rewrite <- (table_at_erase tb1), <- (table_at_erase tb2), H.
Qed.

Lemma slot_step_erase m1 m2 st1 st2 sl :
  erase_state st1 = erase_state st2 ->
  erase_state <$> slot_step m1 st1 sl = erase_state <$> slot_step m2 st2 sl.
Proof.
  destruct st1 as [tb1 su1 ts1 p1], st2 as [tb2 su2 ts2 p2].
  unfold erase_state. cbn. intros [= Htb <- <- <-].
  unfold slot_step. cbn.
  destruct (parse_slot sl) as [k|]; [|done]. cbn.
  rewrite (table_at_erase_eq tb1 tb2 k Htb).
  destruct (cell_eqb_empty (table_at tb2 k)); cbn.
  2:{ unfold erase_state. cbn. by rewrite Htb. }
  destruct (scan_tasks sl (su1 !! sl) ts1 p1 ∅ false)
    as [[[[[t a]|] tr] rc]|]; [| |done]; cbn.
  - destruct (su1 !! sl) as [u|]; [|done]. cbn.
    unfold erase_state. cbn. by rewrite !fmap_insert, Htb.
  - unfold erase_state. cbn. by rewrite !fmap_insert, Htb.
Qed.

Lemma walk_slots_erase m1 m2 slots st1 st2 :
  erase_state st1 = erase_state st2 ->
  erase_state <$> walk_slots m1 slots st1
  = erase_state <$> walk_slots m2 slots st2.
Proof.
  revert st1 st2. induction slots as [|sl rest IH]; intros st1 st2 H.
  - cbn. by rewrite H.
  - cbn [walk_slots].
    pose proof (slot_step_erase m1 m2 st1 st2 sl H) as Hs.
    destruct (slot_step m1 st1 sl) as [st1'|],
             (slot_step m2 st2 sl) as [st2'|]; try done.
    cbn. apply IH. cbn in Hs. congruence.
Qed.

Lemma mapping_no_effect (grp : string) subjects su ts (locks : list lock)
    m1 m2 :
  decisions <$> schedule_room grp subjects su ts locks m1
  = decisions <$> schedule_room grp subjects su ts locks m2.
Proof.
  unfold schedule_room.
  destruct (apply_locks grp locks (∅, su)) as [[tb su0]|]; [|done]. cbn.
  pose proof (walk_slots_erase m1 m2
                (generate_schedule_slots
                   (sum_credit (group_subjects grp subjects)))
                (mkState tb su0 ts
                   (candidate_pool (group_subjects grp subjects)))
                _ eq_refl) as H.
  destruct (walk_slots m1 _ _) as [st1|], (walk_slots m2 _ _) as [st2|];
    try done.
  cbn in *. destruct st1, st2. unfold erase_state in H. cbn in *.
  by injection H as -> -> -> ->.
Qed.

Lemma convert_unknown_prefix room mapping letter number :
  match_letters_digits (Str.upper (Str.strip room)) = Some (letter, number) ->
  mapping !! letter = None ->
  convert_room_letter_to_number room mapping = letter +:+ number.
Proof.
  intros E Hm. unfold convert_room_letter_to_number. by rewrite E, Hm.
Qed.

(** ** No double booking over a run *)

Lemma tracker_inv_init su ts0 : tracker_inv ts0 su ts0.
Proof. split; [done|congruence|congruence]. Qed.

Lemma teacher_busy_place (ts : teacher_slots_t) t sl a t' sl' :
  teacher_busy
    (<[t := <[sl := a]> (default ∅ (ts !! t))]> ts) t' sl'
  = if decide (t' = t /\ sl' = sl) then Some a else teacher_busy ts t' sl'.
Proof.
  unfold teacher_busy. destruct (decide (t = t')) as [<-|Hne].
  - rewrite lookup_insert_eq. cbn.
    destruct (decide (sl = sl')) as [<-|Hne].
    + rewrite lookup_insert_eq. by rewrite decide_True.
    + rewrite lookup_insert_ne by done. rewrite decide_False; [done|].
      intros [_ ->]. done.
  - rewrite lookup_insert_ne by done. rewrite decide_False; [done|].
    intros [-> _]. done.
Qed.

Lemma teacher_busy_place_keep (ts : teacher_slots_t) t sl a t' sl' r :
  teacher_busy ts t sl = None ->
  teacher_busy ts t' sl' = Some r ->
  teacher_busy (<[t := <[sl := a]> (default ∅ (ts !! t))]> ts) t' sl'
  = Some r.
Proof.
  intros Hn Hs. rewrite teacher_busy_place.
  rewrite decide_False; [done|]. intros [-> ->]. congruence.
Qed.

Lemma apart_insert_text (tb tb2 : table) k s :
  apart tb tb2 -> apart (<[k := Text s]> tb) tb2.
Proof.
  intros Ha k' c1 t1 l1 c2 t2 l2. rewrite lookup_insert.
  case_decide; [done|]. apply Ha.
Qed.

Lemma no_placements_apart (tb tb2 : table) :
  (forall k c, tb !! k = Some c -> ~ is_placement c) -> apart tb tb2.
Proof. intros H k c1 t1 l1 c2 t2 l2 Hc. by destruct (H _ _ Hc). Qed.

Section run_invariant.

(** The mapping of the run and the [teacher_slots] it started with. *)
Variable m : gmap string Z.
Variable ts0 : teacher_slots_t.

Lemma tracker_inv_used su su' ts :
  used_le su su' -> tracker_inv ts0 su ts -> tracker_inv ts0 su' ts.
Proof.
  intros Hle [H1 H2 H3]. split; [done| |done].
  intros t sl r Hn Hs. destruct (H2 _ _ _ Hn Hs) as (u & Hu & Hr).
  destruct (Hle _ _ Hu) as (u' & Hu' & Hsub). exists u'. set_solver.
Qed.

(** The tracker entry that a placement adds. *)
Lemma tracker_inv_place (su : slots_used_t) ts t sl a u :
  tracker_inv ts0 su ts ->
  su !! sl = Some u -> teacher_busy ts t sl = None -> a ∉ u ->
  tracker_inv ts0 (<[sl := {[t; a]} ∪ u]> su)
    (<[t := <[sl := a]> (default ∅ (ts !! t))]> ts).
Proof.
  intros [H1 H2 H3] Hu Hn Ha. split.
  - intros t' sl' r H0. apply teacher_busy_place_keep; auto.
  - intros t' sl' r H0. rewrite teacher_busy_place.
    case_decide as Hd.
    + destruct Hd as [-> ->]. intros [= <-]. rewrite lookup_insert_eq.
      eexists. split; [done|]. set_solver.
    + intros Hs. destruct (H2 _ _ _ H0 Hs) as (u' & Hu' & Hr).
      destruct (used_le_insert su sl u {[t; a]} Hu _ _ Hu')
        as (u'' & Hu'' & Hsub).
      exists u''. set_solver.
  - intros sl' t1 t2 r H01 H02. rewrite !teacher_busy_place.
    assert (forall t', teacher_busy ts0 t' sl = None ->
              teacher_busy ts t' sl = Some a -> False) as Hfresh.
    { intros t' H0 Hs. destruct (H2 _ _ _ H0 Hs) as (u' & Hu' & Hr).
      assert (u' = u) as -> by congruence. done. }
    case_decide as Hd1; case_decide as Hd2.
    + destruct Hd1 as [-> _], Hd2 as [-> _]. done.
    + destruct Hd1 as [-> ->]. intros [= <-] Hs. exfalso. eauto.
    + destruct Hd2 as [-> ->]. intros Hs [= <-]. exfalso. eauto.
    + eauto.
Qed.

Lemma booked_keep (ts ts' : teacher_slots_t) (tb : table) :
  (forall t sl r, teacher_busy ts t sl = Some r ->
                  teacher_busy ts' t sl = Some r) ->
  booked m ts0 ts tb -> booked m ts0 ts' tb.
Proof.
  intros Hk Hb k c t l Hc.
  destruct (Hb _ _ _ _ Hc) as (sl & r & ? & ? & ? & ? & ?).
  exists sl, r. eauto 10.
Qed.

Lemma booked_insert_text (ts : teacher_slots_t) (tb : table) k s :
  booked m ts0 ts tb -> booked m ts0 ts (<[k := Text s]> tb).
Proof.
  intros Hb k' c t l. rewrite lookup_insert. case_decide; [done|]. apply Hb.
Qed.

Lemma no_placements_booked (ts : teacher_slots_t) (tb : table) :
  (forall k c, tb !! k = Some c -> ~ is_placement c) -> booked m ts0 ts tb.
Proof. intros H k c t l Hc. by destruct (H _ _ Hc). Qed.

Lemma run_inv_step (finished : list table) st sl k st' :
  sl ∈ all_slot_labels -> parse_slot sl = Some k ->
  run_inv m ts0 finished st -> step_outcome m st sl k st' ->
  run_inv m ts0 finished st'.
Proof.
  intros Hsl Hk (Htr & Hb & Hfb & Hfa) Ho.
  destruct Ho as [|u pre t post a He Hu Hp Hpre Hn Ha Hna|He HF];
    [done|..].
  - assert (Hkeep : forall t' sl' r,
              teacher_busy (st_teacher st) t' sl' = Some r ->
              teacher_busy (st_teacher (place m st sl k u t a)) t' sl'
              = Some r).
    { intros t' sl' r Hs. cbn. by apply teacher_busy_place_keep. }
    assert (Hnew : teacher_busy (st_teacher (place m st sl k u t a))
                     (teacher t) sl = Some a).
    { cbn. rewrite teacher_busy_place. by rewrite decide_True. }
    assert (H0 : teacher_busy ts0 (teacher t) sl = None).
    { destruct (teacher_busy ts0 (teacher t) sl) as [r|] eqn:E; [|done].
      apply (tr_keep _ _ _ Htr) in E. congruence. }
    split; [by apply tracker_inv_place|].
    split; [|split].
    + intros k' c t' l. cbn [place st_table]. rewrite lookup_insert.
      case_decide as Hd.
      * intros [= <- <- <-]. subst k'. exists sl, a. by repeat split.
      * intros Hc. destruct (Hb _ _ _ _ Hc) as (sl' & r & ? & ? & ? & ? & ?).
        exists sl', r. repeat split; auto.
    + eapply Forall_impl; [exact Hfb|]. intros tb. by apply booked_keep.
    + rewrite Forall_forall in Hfb, Hfa. apply Forall_forall.
      intros tb Hin k' c1 t1 l1 c2 t2 l2. cbn [place st_table].
      rewrite lookup_insert. case_decide as Hd.
      * intros [= <- <- <-] Hc2. subst k'.
        destruct (Hfb _ Hin _ _ _ _ Hc2) as (sl' & r & Hin' & Hk' & _ & Hs & _).
        assert (sl' = sl) as -> by (by eapply parse_slot_inj).
        congruence.
      * by apply Hfa.
  - split; [done|]. split; [by apply booked_insert_text|].
    split; [done|].
    eapply Forall_impl; [exact Hfa|]. intros tb. apply apart_insert_text.
Qed.

Lemma schedule_room_run_inv (finished : list table) (grp : string)
    subjects su ts
    (locks : list lock) tb leftover su' ts' :
  schedule_room grp subjects su ts locks m = Some (tb, leftover, su', ts') ->
  tracker_inv ts0 su ts -> Forall (booked m ts0 ts) finished ->
  tracker_inv ts0 su' ts'
  /\ Forall (booked m ts0 ts') (tb :: finished)
  /\ Forall (apart tb) finished.
Proof.
  intros E Htr Hfb.
  destruct (schedule_room_spec (run_inv m ts0 finished)
              grp subjects su ts locks m tb leftover su' ts' E)
    as [(H1 & H2 & H3 & H4) _].
  - intros su0 Hle.
    assert (forall k c, lock_table grp locks ∅ !! k = Some c
                        -> ~ is_placement c) as Htxt.
    { apply lock_table_text. intros k c. by rewrite lookup_empty. }
    split; [by apply (tracker_inv_used su)|].
    split; [by apply no_placements_booked|]. split; [done|].
    apply Forall_forall. intros tb0 _. by apply no_placements_apart.
  - intros st1 sl k st2 Hin Hp. apply run_inv_step; [|done].
    eapply generate_schedule_slots_grid, Hin.
  - cbn in *. split; [done|]. split; [by constructor|done].
Qed.

Lemma schedule_all_run_inv (grps : list string) subjects
    (locks : list lock) :
  forall (finished : list table) su ts tbs su' ts',
    schedule_all grps subjects su ts locks m = Some (tbs, su', ts') ->
    tracker_inv ts0 su ts ->
    Forall (booked m ts0 ts) finished ->
    ForallOrdPairs apart finished ->
    length tbs = length grps
    /\ tracker_inv ts0 su' ts'
    /\ Forall (booked m ts0 ts') (rev tbs ++ finished)
    /\ ForallOrdPairs apart (rev tbs ++ finished).
Proof.
  induction grps as [|g grps IH];
    intros finished su ts tbs su' ts' E Htr Hfb Hfo.
  - injection E as <- <- <-. by cbn.
  - cbn [schedule_all] in E.
    destruct (schedule_room g subjects su ts locks m)
      as [[[[tb lo] su1] ts1]|] eqn:E1; [|done].
    cbn [mbind option_bind] in E.
    destruct (schedule_all grps subjects su1 ts1 locks m)
      as [[[tbs1 su2] ts2]|] eqn:E2; [|done].
    cbn [mbind option_bind] in E. injection E as <- <- <-.
    destruct (schedule_room_run_inv finished g subjects su ts locks
                tb lo su1 ts1 E1 Htr Hfb) as (Htr1 & Hfb1 & Hfa1).
    destruct (IH (tb :: finished) su1 ts1 tbs1 su2 ts2 E2 Htr1 Hfb1)
      as (Hlen & Htr' & Hfb' & Hfo').
    { by constructor. }
    split; [cbn; congruence|]. split; [done|].
    cbn [rev]. rewrite <- !app_assoc. by cbn.
Qed.

End run_invariant.

Lemma schedule_all_total (grps : list string) subjects su ts
    (locks : list lock) m :
  Forall lock_ok locks -> has_slot_keys su ->
  is_Some (schedule_all grps subjects su ts locks m).
Proof.
  intros Hl. revert su ts. induction grps as [|g grps IH]; intros su ts Hk.
  - by eexists.
  - cbn [schedule_all].
    destruct (schedule_room_total g subjects su ts locks m Hl Hk)
      as [[[[tb lo] su1] ts1] E1].
    rewrite E1. cbn [mbind option_bind].
    destruct (IH su1 ts1) as [[[tbs su2] ts2] ->]; [|by eexists].
    destruct (schedule_room_spec (fun _ => True) g subjects su ts locks m
                tb lo su1 ts1 E1) as [_ Hd]; [done..|].
    by apply (has_slot_keys_dom su).
Qed.

Lemma ordered_pairs_lookup {A} (R : A -> A -> Prop) (l : list A) i j a b :
  ForallOrdPairs R l -> (i < j)%nat ->
  l !! i = Some a -> l !! j = Some b -> R a b.
Proof.
  intros H. revert i j. induction H as [|x l Hx _ IH]; intros i j Hij Hi Hj.
  - done.
  - destruct j as [|j]; [lia|]. cbn in Hj. destruct i as [|i].
    + cbn in Hi. injection Hi as ->.
      rewrite List.Forall_forall in Hx. apply Hx.
      apply list_elem_of_In. by eapply list_elem_of_lookup_2.
    + cbn in Hi. apply (IH i j); [lia|done..].
Qed.

Lemma apart_sym (tb1 tb2 : table) : apart tb1 tb2 -> apart tb2 tb1.
Proof. intros H k c1 t1 l1 c2 t2 l2 H1 H2 E. by eapply H. Qed.

Lemma apart_lookup (tbs : list table) (i j : nat) (tb1 tb2 : table) :
  ForallOrdPairs apart (rev tbs) -> i <> j ->
  tbs !! i = Some tb1 -> tbs !! j = Some tb2 -> apart tb1 tb2.
Proof.
  intros H Hij Hi Hj.
  pose proof (lookup_lt_Some _ _ _ Hi) as Hli.
  pose proof (lookup_lt_Some _ _ _ Hj) as Hlj.
  assert (forall n x, (n < length tbs)%nat -> tbs !! n = Some x ->
            rev tbs !! (length tbs - S n)%nat = Some x) as Hrev.
  { intros n x Hn Hx. rewrite rev_alt.
    change (rev_append tbs []) with (reverse tbs).
    rewrite reverse_lookup by lia. rewrite <- Hx. f_equal. lia. }
  apply Hrev in Hi; [|done]. apply Hrev in Hj; [|done].
  destruct (decide (i < j)%nat).
  - apply apart_sym.
    eapply (ordered_pairs_lookup apart (rev tbs)); [done| |exact Hj|exact Hi].
    lia.
  - eapply (ordered_pairs_lookup apart (rev tbs)); [done| |exact Hi|exact Hj].
    lia.
Qed.


Lemma scan_tasks_records sl used ts tasks tr rc res tr' rc' :
  scan_tasks sl used ts tasks tr rc = Some (res, tr', rc') -> tr ⊆ tr'.
Proof.
  intros E. apply scan_tasks_spec in E. destruct res as [[t a]|].
  - destruct E as (pre & post & u & _ & _ & _ & _ & _ & _ & ->). set_solver.
  - destruct E as (_ & -> & _). set_solver.
Qed.

Lemma scan_tasks_clash sl used ts t rest tr rc r :
  teacher_busy ts (teacher t) sl = Some r ->
  scan_tasks sl used ts (t :: rest) tr rc
  = scan_tasks sl used ts rest ({[r]} ∪ tr) rc.
Proof. intros H. cbn [scan_tasks]. by rewrite H. Qed.

(** * The claims *)

(** Against C1 as the specification words it: the rooms A1/1 and A1/2 are
    distinct for the tracker, and the two placements of slot M2, in the
    tables of two groups, both show the room A1. *)
Lemma room_labels_coincide :
  cells_at ("Mon", 2)
    (schedule_all ["G1"; "G2"] [ex_lab1; ex_lab2] fresh_slots_used ∅ [] ∅)
  = Some [Some (Placement "S101" "T3" "A1");
          Some (Placement "S102" "T4" "A1")].
Proof. vm_compute. reflexivity. Qed.

(** C1 (as the code has it).  Over one run, with the two maps threaded through all
    the calls, the run returns when the locks are well formed and
    [slots_used] has the slot keys; and in what it returns, two placements
    that two different tables hold in the same cell never have the same
    teacher, each of them is backed by the tracker entry of its teacher at
    the slot of the cell, the rooms of these two entries are different,
    and the room that a placement shows is the converted label of the room
    of its entry. *)
Theorem no_double_booking (grps : list string) subjects su ts
    (locks : list lock) (m : gmap string Z) :
  (Forall lock_ok locks -> has_slot_keys su ->
   is_Some (schedule_all grps subjects su ts locks m))
  /\ forall tbs su' ts',
       schedule_all grps subjects su ts locks m = Some (tbs, su', ts') ->
       length tbs = length grps
       /\ forall (i j : nat) (tb1 tb2 : table) k c1 t1 l1 c2 t2 l2,
            i <> j -> tbs !! i = Some tb1 -> tbs !! j = Some tb2 ->
            tb1 !! k = Some (Placement c1 t1 l1) ->
            tb2 !! k = Some (Placement c2 t2 l2) ->
            t1 <> t2
            /\ exists sl r1 r2,
                 sl ∈ all_slot_labels /\ parse_slot sl = Some k
                 /\ teacher_busy ts' t1 sl = Some r1
                 /\ teacher_busy ts' t2 sl = Some r2
                 /\ l1 = convert_room_letter_to_number r1 m
                 /\ l2 = convert_room_letter_to_number r2 m
                 /\ r1 <> r2.
Proof.
  split; [apply schedule_all_total|].
  intros tbs su' ts' E.
  destruct (schedule_all_run_inv m ts grps subjects locks [] su ts
              tbs su' ts' E (tracker_inv_init su ts) (Forall_nil_2 _)
              (FOP_nil _))
    as (Hlen & Htr & Hfb & Hfo).
  rewrite app_nil_r in Hfb, Hfo. split; [done|].
  intros i j tb1 tb2 k c1 t1 l1 c2 t2 l2 Hij Hi Hj H1 H2.
  pose proof (apart_lookup tbs i j tb1 tb2 Hfo Hij Hi Hj _ _ _ _ _ _ _ H1 H2)
    as Hne.
  split; [done|].
  rewrite Forall_forall in Hfb.
  assert (forall (n : nat) (tb : table),
            tbs !! n = Some tb -> tb ∈ rev tbs) as Hin.
  { intros n tb Hn. apply list_elem_of_In. rewrite <- in_rev.
    apply list_elem_of_In. by eapply list_elem_of_lookup_2. }
  destruct (Hfb _ (Hin _ _ Hi) _ _ _ _ H1)
    as (sl1 & r1 & Hs1 & Hp1 & Hn1 & Hb1 & ->).
  destruct (Hfb _ (Hin _ _ Hj) _ _ _ _ H2)
    as (sl2 & r2 & Hs2 & Hp2 & Hn2 & Hb2 & ->).
  assert (sl2 = sl1) as -> by (by eapply parse_slot_inj).
  exists sl1, r1, r2. do 6 (split; [done|]).
  intros ->. apply Hne. by eapply (tr_inj _ _ _ Htr).
Qed.

Lemma no_double_booking_witness :
  Forall lock_ok [ex_lock] /\ has_slot_keys fresh_slots_used
  /\ exists tbs su' ts',
       schedule_all ["G1"; "G2"] [ex_math; ex_eng] fresh_slots_used ∅
         [ex_lock] ∅ = Some (tbs, su', ts')
       /\ length tbs = 2%nat.
Proof.
  assert (H1 : Forall lock_ok [ex_lock])
    by by_evaluation.
  assert (H2 : has_slot_keys fresh_slots_used)
    by by_evaluation.
  split; [exact H1|]. split; [exact H2|].
  destruct (no_double_booking ["G1"; "G2"] [ex_math; ex_eng]
              fresh_slots_used ∅ [ex_lock] ∅) as [Htot Hpart].
  destruct (Htot H1 H2) as [[[tbs su'] ts'] E].
  exists tbs, su', ts'. split; [exact E|].
  exact (proj1 (Hpart tbs su' ts' E)).
Defined.

(** Against C2 as the specification words it: the sequence has 50
    slots, not 55, and no slot of period 5. *)
Lemma slot_sequence_not_55 :
  length (generate_schedule_slots 0) = 50%nat
  /\ length (generate_schedule_slots 19) = 50%nat
  /\ length (generate_schedule_slots 0) <> 55%nat
  /\ "M5" ∉ generate_schedule_slots 0.
Proof.
  split; [vm_compute; reflexivity|]. split; [vm_compute; reflexivity|].
  split; [vm_compute; discriminate|].
  by_evaluation.
Qed.

(** C2 (as the code has it).  For every total credit the sequencer returns exactly 50
    distinct slots: the five days times the ten periods 1-4 and 6-11, all
    of them slots of the grid; period 5 is never in the sequence. *)
Theorem slot_sequence_50_distinct (x : Q) :
  length (generate_schedule_slots x) = 50%nat
  /\ NoDup (generate_schedule_slots x)
  /\ generate_schedule_slots x ≡ₚ sequenced_slot_labels
  /\ generate_schedule_slots x ⊆ all_slot_labels
  /\ Forall (fun d => slot_label d 5 ∉ generate_schedule_slots x) days.
Proof.
  unfold generate_schedule_slots.
  destruct (Qle_bool x 18); (split; [vm_compute; reflexivity|]);
    (split; [|split; [|split]]); by_evaluation.
Qed.

(** C3.  A call of [schedule_room] returns when the locks are well formed
    and [slots_used] has the slot keys; and whenever it returns, the
    number of placements in the table plus the number of leftover tasks is
    the number of tasks that the subjects of the group generate. *)
Theorem task_conservation (grp : string) subjects su ts
    (locks : list lock) (m : gmap string Z) :
  (Forall lock_ok locks -> has_slot_keys su ->
   is_Some (schedule_room grp subjects su ts locks m))
  /\ forall tb leftover su' ts',
       schedule_room grp subjects su ts locks m
       = Some (tb, leftover, su', ts') ->
       (placements tb + length leftover)%nat
       = sum_list (task_count <$> group_subjects grp subjects).
Proof.
  split; [apply schedule_room_total|].
  intros tb leftover su' ts' E.
  set (T := sum_list (task_count <$> group_subjects grp subjects)).
  destruct (schedule_room_spec
              (fun st => (placements (st_table st) + length (st_pool st))%nat = T)
              grp subjects su ts locks m tb leftover su' ts' E) as [HP _];
    [| |exact HP].
  - intros su0 _. cbn.
    rewrite placements_all_text.
    + by rewrite (Permutation_length (candidate_pool_perm _)),
        expand_tasks_length.
    + apply lock_table_text. intros k c. by rewrite lookup_empty.
  - intros st1 sl k st2 _ _ HP.
    destruct 1 as [|u pre t post a He Hu Hp|He]; [done|..].
    + cbn. rewrite placements_insert_placement by done.
      assert (t ∈ st_pool st1) as Hin by (rewrite Hp; set_solver).
      apply remove_first_length in Hin. lia.
    + cbn. by rewrite placements_insert_text.
Qed.

Lemma task_conservation_witness :
  Forall lock_ok [ex_lock] /\ has_slot_keys fresh_slots_used
  /\ exists tb leftover su' ts',
       schedule_room "G1" [ex_math; ex_eng] fresh_slots_used ∅ [ex_lock] ∅
       = Some (tb, leftover, su', ts')
       /\ (placements tb + length leftover)%nat = 4%nat.
Proof.
  assert (H1 : Forall lock_ok [ex_lock])
    by by_evaluation.
  assert (H2 : has_slot_keys fresh_slots_used)
    by by_evaluation.
  split; [exact H1|]. split; [exact H2|].
  destruct (task_conservation "G1" [ex_math; ex_eng] fresh_slots_used ∅
              [ex_lock] ∅) as [Htot Hpart].
  destruct (Htot H1 H2) as [[[[tb lo] su'] ts'] E].
  exists tb, lo, su', ts'. split; [exact E|].
  exact (Hpart tb lo su' ts' E).
Defined.

(** Against C4 as the specification words it: a matching lock whose name
    is empty leaves its cell empty, and the cell takes a placement. *)
Lemma unnamed_lock_overwritten :
  lock_matches "G1" ex_unnamed_lock = true
  /\ lock_cell ex_unnamed_lock = Some ("Mon", 2)
  /\ cell_of ("Mon", 2)
       (schedule_room "G1" [ex_math] fresh_slots_used ∅ [ex_unnamed_lock] ∅)
     = Some (Placement "M101" "T1" "A1").
Proof. repeat split; vm_compute; reflexivity. Qed.

(** C4 (as the code has it).  When every lock has a name that is not empty (the only
    locks that [add_lock] builds), the cell of a lock that matches the
    group holds, once the locks are applied, the name of the last matching
    lock of that cell; it holds it after every prefix of the slot walk and
    in the table that [schedule_room] returns.  The call returns when the
    locks are well formed and [slots_used] has the slot keys. *)
Theorem lock_precedence (grp : string) subjects su ts (locks : list lock)
    (m : gmap string Z) lk k :
  Forall (fun lk => name lk <> "") locks ->
  lk ∈ locks -> lock_matches grp lk = true -> lock_cell lk = Some k ->
  let subs := group_subjects grp subjects in
  let slots := generate_schedule_slots (sum_credit subs) in
  exists lk',
    last_lock grp locks k = Some lk'
    /\ (Forall lock_ok locks -> has_slot_keys su ->
        is_Some (schedule_room grp subjects su ts locks m))
    /\ (forall tb0 su0,
          apply_locks grp locks (∅, su) = Some (tb0, su0) ->
          tb0 !! k = Some (Text (name lk'))
          /\ forall n st,
               walk_slots m (take n slots)
                 (mkState tb0 su0 ts (candidate_pool subs)) = Some st ->
               st_table st !! k = Some (Text (name lk')))
    /\ (forall tb leftover su' ts',
          schedule_room grp subjects su ts locks m
          = Some (tb, leftover, su', ts') ->
          tb !! k = Some (Text (name lk'))).
Proof.
  intros Hn Hin Hm Hc subs slots.
  destruct (last_lock_exists grp locks k lk Hin Hm Hc) as [lk' Hlast].
  assert (Hcell : lock_table grp locks ∅ !! k = Some (Text (name lk'))).
  { by rewrite lock_table_lookup, Hlast. }
  assert (Hne : cell_eqb_empty (Text (name lk')) = false).
  { apply last_lock_Some in Hlast as (Hin' & _ & _).
    rewrite Forall_forall in Hn. specialize (Hn _ Hin').
    cbn. by apply String.eqb_neq. }
  assert (Hstep : forall (slots' : list string) st1 sl k1 st2,
            sl ∈ slots' -> parse_slot sl = Some k1 ->
            st_table st1 !! k = Some (Text (name lk')) ->
            step_outcome m st1 sl k1 st2 ->
            st_table st2 !! k = Some (Text (name lk'))).
  { intros slots' st1 sl k1 st2 _ _ HP Ho.
    by apply (step_outcome_keeps_cell m st1 sl k1 st2 k _ Ho). }
  exists lk'. split; [done|]. split; [apply schedule_room_total|]. split.
  - intros tb0 su0 E0. apply apply_locks_spec in E0 as (-> & _ & _).
    split; [done|]. intros n st Ew.
    by destruct (walk_slots_spec
                   (fun st => st_table st !! k = Some (Text (name lk')))
                   m (take n slots) _ st Ew Hcell (Hstep _)).
  - intros tb leftover su' ts' E.
    by destruct (schedule_room_spec
                   (fun st => st_table st !! k = Some (Text (name lk')))
                   grp subjects su ts locks m tb leftover su' ts' E
                   (fun _ _ => Hcell) (Hstep _)).
Qed.

Lemma lock_precedence_witness :
  Forall (fun lk => name lk <> "") [ex_lock]
  /\ ex_lock ∈ [ex_lock] /\ lock_matches "G1" ex_lock = true
  /\ lock_cell ex_lock = Some ("Mon", 3)
  /\ cell_of ("Mon", 3)
       (schedule_room "G1" [ex_math] fresh_slots_used ∅ [ex_lock] ∅)
     = Some (Text "HR").
Proof.
  assert (H3 : Forall (fun lk => name lk <> "") [ex_lock])
    by (repeat constructor; discriminate).
  assert (H4 : ex_lock ∈ [ex_lock]) by (apply list_elem_of_here).
  assert (H5 : lock_matches "G1" ex_lock = true) by (vm_compute; reflexivity).
  assert (H6 : lock_cell ex_lock = Some ("Mon", 3))
    by (vm_compute; reflexivity).
  do 4 (split; [assumption|]).
  destruct (lock_precedence "G1" [ex_math] fresh_slots_used ∅ [ex_lock] ∅
              ex_lock ("Mon", 3) H3 H4 H5 H6)
    as (lk' & Hlast & _ & _ & Hfin).
  vm_compute in Hlast. injection Hlast as <-.
  destruct (schedule_room "G1" [ex_math] fresh_slots_used ∅ [ex_lock] ∅)
    as [[[[tb lo] su'] ts']|] eqn:E.
  - cbn. exact (Hfin tb lo su' ts' eq_refl).
  - vm_compute in E. discriminate E.
Defined.

(** C5.  For subjects with non-negative credit, each subject yields
    exactly [max 1 (floor (2 * credit))] tasks, each a copy of the subject:
    the task list of [schedule_room] is these copies in the order of the
    subjects, and that of [build_tasks] is a permutation of them. *)
Theorem task_generation_count (subs : list subject) :
  Forall (fun s => (0 <= credit s)%Q) subs ->
  let n s := Z.to_nat (Z.max 1 (Qfloor (credit s * 2))) in
  Forall (fun s => copies s = repeat s (n s) /\ length (copies s) = n s) subs
  /\ expand_tasks subs = flat_map (fun s => repeat s (n s)) subs
  /\ build_tasks subs ≡ₚ flat_map (fun s => repeat s (n s)) subs.
Proof.
  intros H n.
  assert (Hc : Forall (fun s => copies s = repeat s (n s)) subs).
  { eapply Forall_impl; [exact H|]. intros s Hs. unfold copies.
    now rewrite task_count_floor. }
  assert (He : expand_tasks subs = flat_map (fun s => repeat s (n s)) subs).
  { unfold expand_tasks. clear H.
    induction Hc as [|s l Hs _ IH]; simpl; [reflexivity|].
    now rewrite Hs, IH. }
  split; [|split].
  - eapply Forall_impl; [exact Hc|]. intros s Hs. split; [exact Hs|].
    rewrite Hs. apply repeat_length.
  - exact He.
  - unfold build_tasks. now rewrite sorted_by_perm, He.
Qed.

Lemma task_generation_count_witness :
  Forall (fun s => (0 <= credit s)%Q) [ex_math; ex_art]
  /\ expand_tasks [ex_math; ex_art]
     = [ex_math; ex_math; ex_math; ex_math; ex_art].
Proof.
  assert (H : Forall (fun s => (0 <= credit s)%Q) [ex_math; ex_art])
    by (repeat constructor; discriminate).
  split; [exact H|].
  destruct (task_generation_count [ex_math; ex_art] H) as (_ & E & _).
  rewrite E. vm_compute. reflexivity.
Defined.

(** Against C6 as the specification words it: with a prefix that the
    mapping does not know the result is the normalised match, without
    what follows the digits, and not the input. *)
Lemma unknown_prefix_changed :
  match_letters_digits (Str.upper (Str.strip "A1/2")) = Some ("A", "1")
  /\ (∅ : gmap string Z) !! "A" = None
  /\ convert_room_letter_to_number "A1/2" ∅ = "A1"
  /\ convert_room_letter_to_number "A1/2" ∅ <> "A1/2"
  /\ convert_room_letter_to_number "a1" ∅ = "A1".
Proof.
  split; [vm_compute; reflexivity|]. split; [reflexivity|].
  split; [vm_compute; reflexivity|]. split; [vm_compute; discriminate|].
  vm_compute; reflexivity.
Qed.

(** C6 (as the code has it).  For an identifier of plain text, the
    conversion returns its input when the stripped, upper-cased identifier
    does not start with capitals followed by a digit, and when the
    identifier is exactly capitals followed by digits with a prefix that
    is not a key.  For every identifier of plain text whose prefix is not
    a key it gives the capitals and the digits of the normalised
    identifier.  The function is pure, and the mapping changes nothing in
    what [schedule_room] decides: the leftover tasks, the two maps and
    every cell are the same up to the room label of the placements. *)
Theorem convert_pass_through (room : string) (mapping : gmap string Z) :
  (Str.plain_text room = true ->
   (match_letters_digits (Str.upper (Str.strip room)) = None ->
    convert_room_letter_to_number room mapping = room)
   /\ (forall letter number,
         room = letter +:+ number ->
         match_letters_digits room = Some (letter, number) ->
         mapping !! letter = None ->
         convert_room_letter_to_number room mapping = room)
   /\ (forall letter number,
         match_letters_digits (Str.upper (Str.strip room))
         = Some (letter, number) ->
         mapping !! letter = None ->
         convert_room_letter_to_number room mapping = letter +:+ number))
  /\ (forall (grp : string) subjects su ts (locks : list lock)
             (m2 : gmap string Z),
        decisions <$> schedule_room grp subjects su ts locks mapping
        = decisions <$> schedule_room grp subjects su ts locks m2).
Proof.
  split; [intros _; split; [|split]|].
  - apply convert_no_match.
  - intros letter number Hr Hm Hk.
    apply match_letters_digits_Some in Hm as Hs.
    destruct Hs as (Hl & Hn & Hu & Hd & _).
    assert (Str.upper (Str.strip room) = room) as Hfix.
    { apply plain_label_fixed. rewrite Hr, all_app.
      apply andb_true_iff. split.
      - eapply all_impl; [|exact Hu]. intros c Hc. unfold is_label_char.
        by rewrite Hc.
      - eapply all_impl; [|exact Hd]. intros c Hc. unfold is_label_char.
        by rewrite Hc, orb_true_r. }
    rewrite (convert_unknown_prefix room mapping letter number);
      [done| |done].
    by rewrite Hfix.
  - intros letter number. apply convert_unknown_prefix.
  - intros grp subjects su ts locks m2. apply mapping_no_effect.
Qed.

Lemma convert_pass_through_witness :
  Str.plain_text "ม.1/1" = true
  /\ match_letters_digits (Str.upper (Str.strip "ม.1/1")) = None
  /\ convert_room_letter_to_number "ม.1/1" {[ "A" := 7 ]} = "ม.1/1"
  /\ Str.plain_text "B12" = true
  /\ match_letters_digits "B12" = Some ("B", "12")
  /\ ({[ "A" := 7 ]} : gmap string Z) !! "B" = None
  /\ convert_room_letter_to_number "B12" {[ "A" := 7 ]} = "B12"
  /\ Str.plain_text " b12/3" = true
  /\ match_letters_digits (Str.upper (Str.strip " b12/3")) = Some ("B", "12")
  /\ convert_room_letter_to_number " b12/3" {[ "A" := 7 ]} = "B" +:+ "12".
Proof.
  assert (H1 : Str.plain_text "ม.1/1" = true) by (vm_compute; reflexivity).
  assert (H2 : match_letters_digits (Str.upper (Str.strip "ม.1/1")) = None)
    by (vm_compute; reflexivity).
  assert (H3 : Str.plain_text "B12" = true) by (vm_compute; reflexivity).
  assert (H4 : match_letters_digits "B12" = Some ("B", "12"))
    by (vm_compute; reflexivity).
  assert (H5 : ({[ "A" := 7 ]} : gmap string Z) !! "B" = None)
    by (vm_compute; reflexivity).
  assert (H6 : Str.plain_text " b12/3" = true) by (vm_compute; reflexivity).
  assert (H7 : match_letters_digits (Str.upper (Str.strip " b12/3"))
               = Some ("B", "12")) by (vm_compute; reflexivity).
  split; [exact H1|]. split; [exact H2|]. split.
  { exact (proj1 (proj1 (convert_pass_through "ม.1/1" {[ "A" := 7 ]}) H1)
             H2). }
  split; [exact H3|]. split; [exact H4|]. split; [exact H5|]. split.
  { exact (proj1 (proj2 (proj1 (convert_pass_through "B12" {[ "A" := 7 ]})
                           H3)) "B" "12" eq_refl H4 H5). }
  split; [exact H6|]. split; [exact H7|].
  exact (proj2 (proj2 (proj1 (convert_pass_through " b12/3" {[ "A" := 7 ]})
                         H6)) "B" "12" H7 H5).
Defined.

(** C7.  A candidate whose teacher already occupies the slot is skipped:
    the scan goes on to the next candidate with the conflicting room
    added to [tr_rooms], where it stays to the end of the scan.  The slot
    step returns when the label parses and is a key of [slots_used]; when
    it returns, the candidate is still in the pool, and the cell of the
    slot, when it was free, has taken a placement of another teacher or a
    diagnostic label computed from a [tr_rooms] that holds the conflicting
    room, the pool being left as it was. *)
Theorem teacher_clash_keeps_candidate (m : gmap string Z) st sl t r :
  t ∈ st_pool st ->
  teacher_busy (st_teacher st) (teacher t) sl = Some r ->
  (forall used rest tr rc,
     scan_tasks sl used (st_teacher st) (t :: rest) tr rc
     = scan_tasks sl used (st_teacher st) rest ({[r]} ∪ tr) rc)
  /\ (forall used tasks tr rc res tr' rc',
        scan_tasks sl used (st_teacher st) tasks tr rc
        = Some (res, tr', rc') -> tr ⊆ tr')
  /\ (is_Some (parse_slot sl) -> is_Some (st_used st !! sl) ->
      is_Some (slot_step m st sl))
  /\ forall st',
       slot_step m st sl = Some st' ->
       t ∈ st_pool st'
       /\ exists k,
            parse_slot sl = Some k
            /\ (cell_eqb_empty (table_at (st_table st) k) = true ->
                (exists c tch rm,
                    st_table st' !! k = Some (Placement c tch rm)
                    /\ tch <> teacher t)
                \/ (exists tr rc,
                      st_table st' !! k
                      = Some (Text (fmt tr rc (length (st_pool st))))
                      /\ r ∈ tr /\ st_pool st' = st_pool st)).
Proof.
  intros Hin Hb.
  split; [intros used rest tr rc; by apply scan_tasks_clash|].
  split; [intros used tasks tr rc res tr' rc'; apply scan_tasks_records|].
  split; [apply slot_step_total|].
  intros st' E. apply slot_step_spec in E as (k & Hk & Ho).
  destruct Ho as [He|u' pre t' post a He Hu' Hp Hpre Hb' Ha Hna|He HF].
  - split; [done|]. exists k. split; [done|]. congruence.
  - assert (teacher t' <> teacher t) as Hne by congruence.
    split.
    + cbn. apply remove_first_keeps; [done|].
      destruct (task_eqb t t') eqn:Et; [|done].
      apply task_eqb_fields in Et as [Et _]. congruence.
    + exists k. split; [done|]. intros _. left. eexists _, _, _. cbn.
      by rewrite lookup_insert_eq.
  - split; [done|]. exists k. split; [done|]. intros _. right.
    eexists _, _. cbn. rewrite lookup_insert_eq. split; [done|].
    split; [|done]. apply busy_rooms_elem. eauto.
Qed.

Lemma teacher_clash_keeps_candidate_witness :
  ex_eng ∈ st_pool ex_state
  /\ teacher_busy (st_teacher ex_state) (teacher ex_eng) "M2" = Some "A1"
  /\ exists st', slot_step ∅ ex_state "M2" = Some st' /\ ex_eng ∈ st_pool st'.
Proof.
  assert (H3 : ex_eng ∈ st_pool ex_state) by (apply list_elem_of_here).
  assert (H4 : teacher_busy (st_teacher ex_state) (teacher ex_eng) "M2"
               = Some "A1") by (vm_compute; reflexivity).
  do 2 (split; [assumption|]).
  destruct (teacher_clash_keeps_candidate ∅ ex_state "M2" ex_eng "A1" H3 H4)
    as (_ & _ & Htot & Hpart).
  destruct Htot as [st' E].
  - vm_compute. eexists. reflexivity.
  - vm_compute. eexists. reflexivity.
  - exists st'. split; [exact E|]. exact (proj1 (Hpart st' E)).
Defined.

(** C8.  At a free slot where no candidate can be placed (each one has
    its teacher taken or all its rooms taken), the step writes the label
    [fmt tr rc n]: the no-subject label exactly when the pool is empty,
    and otherwise the unplaceable label made of the two flags, where [tr]
    holds exactly the rooms recorded for the candidates whose teacher is
    taken and [rc] is raised exactly when a candidate whose teacher is
    free has a room; the pool and the two maps are left as they are and
    the walk goes on with the remaining slots. *)
Theorem diagnostic_label (m : gmap string Z) st sl k rest :
  parse_slot sl = Some k ->
  cell_eqb_empty (table_at (st_table st) k) = true ->
  Forall (blocked (st_used st !! sl) (st_teacher st) sl) (st_pool st) ->
  let tr := busy_rooms (st_teacher st) sl (st_pool st) in
  let rc := room_flag (st_teacher st) sl (st_pool st) in
  let label := fmt tr rc (length (st_pool st)) in
  slot_step m st sl = Some (diagnose st sl k)
  /\ st_table (diagnose st sl k) !! k = Some (Text label)
  /\ (label = "ไม่มีวิชา" <-> st_pool st = [])
  /\ (st_pool st <> [] ->
      label = match bool_decide (tr = ∅), rc with
              | true, false => "ไม่ได้"
              | true, true => "ไม่ได้(ห้องเต็ม)"
              | false, false => "ไม่ได้(ครูชนที่ " +:+ clash_names tr +:+ ")"
              | false, true =>
                  "ไม่ได้(ครูชนที่ " +:+ clash_names tr +:+ ", ห้องเต็ม)"
              end)
  /\ (forall r, r ∈ tr <->
        exists t, t ∈ st_pool st
                  /\ teacher_busy (st_teacher st) (teacher t) sl = Some r)
  /\ (rc = true <->
        exists t, t ∈ st_pool st
                  /\ teacher_busy (st_teacher st) (teacher t) sl = None
                  /\ actual_room t <> [])
  /\ st_pool (diagnose st sl k) = st_pool st
  /\ st_used (diagnose st sl k) = st_used st
  /\ st_teacher (diagnose st sl k) = st_teacher st
  /\ walk_slots m (sl :: rest) st = walk_slots m rest (diagnose st sl k).
Proof.
  intros Hk He HF tr rc label.
  assert (E : slot_step m st sl = Some (diagnose st sl k)).
  { unfold slot_step. rewrite Hk. cbn [mbind option_bind].
    rewrite He. cbn [negb]. rewrite (scan_tasks_blocked _ _ _ _ _ _ HF).
    cbn [mbind option_bind orb]. by rewrite (right_id_L ∅ (∪)). }
  split; [done|]. split; [apply lookup_insert_eq|].
  split.
  { unfold label. rewrite fmt_no_subject. by destruct (st_pool st). }
  split.
  { intros Hne. apply fmt_unplaceable. by destruct (st_pool st). }
  split; [intros r; apply busy_rooms_elem|].
  split; [apply room_flag_true|].
  do 3 (split; [done|]).
  cbn [walk_slots]. by rewrite E.
Qed.

Lemma diagnostic_label_witness :
  parse_slot "M2" = Some ("Mon", 2)
  /\ cell_eqb_empty (table_at (st_table ex_state) ("Mon", 2)) = true
  /\ Forall (blocked (st_used ex_state !! "M2") (st_teacher ex_state) "M2")
       (st_pool ex_state)
  /\ st_table (diagnose ex_state "M2" ("Mon", 2)) !! ("Mon", 2)
     = Some (Text "ไม่ได้(ครูชนที่ A1A1)").
Proof.
  assert (H1 : parse_slot "M2" = Some ("Mon", 2)) by (vm_compute; reflexivity).
  assert (H3 : cell_eqb_empty (table_at (st_table ex_state) ("Mon", 2)) = true)
    by (vm_compute; reflexivity).
  assert (H4 : Forall (blocked (st_used ex_state !! "M2")
                         (st_teacher ex_state) "M2") (st_pool ex_state)).
  { constructor; [left; eexists; vm_compute; reflexivity|].
    constructor; [left; eexists; vm_compute; reflexivity|constructor]. }
  do 3 (split; [assumption|]).
  destruct (diagnostic_label ∅ ex_state "M2" ("Mon", 2) [] H1 H3 H4)
    as (_ & E & _).
  rewrite E. vm_compute. reflexivity.
Defined.

(** C9.  For every room identifier and every mapping to integers,
    converting twice gives what converting once gives. *)
Theorem convert_idempotent (r : string) (m : gmap string Z) :
  convert_room_letter_to_number (convert_room_letter_to_number r m) m
  = convert_room_letter_to_number r m.
Proof.
  unfold convert_room_letter_to_number at 2 3.
  destruct (match_letters_digits (Str.upper (Str.strip r)))
    as [[letter number]|] eqn:E.
  2:{ unfold convert_room_letter_to_number. now rewrite E. }
  apply match_letters_digits_Some in E as (Hl & Hn & Hu & Hd & _).
  assert (Hdl : Str.all is_label_char number = true).
  { eapply all_impl; [|exact Hd]. intros c Hc. unfold is_label_char.
    now rewrite Hc, orb_true_r. }
  destruct (m !! letter) as [v|] eqn:Em.
  - apply convert_no_match.
    destruct (of_int_shape v) as (sign & digits & -> & Hs & Hdg).
    assert (Hdd : Str.all is_label_char digits = true).
    { eapply all_impl; [|exact Hdg]. intros c Hc. unfold is_label_char.
      now rewrite Hc, orb_true_r. }
    rewrite plain_label_fixed.
    + destruct Hs as [-> | ->].
      * rewrite app_nil_l.
        destruct digits as [|c ds].
        -- rewrite app_nil_l. destruct number as [|c n]; [congruence|].
           apply match_letters_digits_not_upper.
           rewrite all_cons, andb_true_iff in Hd.
           now apply digit_not_upper.
        -- rewrite app_cons. apply match_letters_digits_not_upper.
           rewrite all_cons, andb_true_iff in Hdg.
           now apply digit_not_upper.
      * now apply match_letters_digits_not_upper.
    + rewrite !all_app, Hdd, Hdl, andb_true_r.
      destruct Hs as [-> | ->]; reflexivity.
  - unfold convert_room_letter_to_number.
    rewrite plain_label_fixed.
    + rewrite match_letters_digits_exact by assumption. now rewrite Em.
    + rewrite all_app, Hdl, andb_true_r.
      eapply all_impl; [|exact Hu]. intros c Hc. unfold is_label_char.
      now rewrite Hc.
Qed.

(** Against C10 as the specification words it: a task without a room
    raises the teacher-clash flag when its teacher is taken.  It is the
    only candidate of group G2, and the label of slot M2 names the room of
    the clash. *)
Lemma roomless_task_raises_teacher_clash :
  actual_room ex_art = []
  /\ scan_tasks "M2" (Some ∅) ex_teacher_slots [ex_art] ∅ false
     = Some (None, {[ "A1" ]}, false)
  /\ cells_at ("Mon", 2)
       (schedule_all ["G1"; "G2"] [ex_math; ex_art] fresh_slots_used ∅ [] ∅)
     = Some [Some (Placement "M101" "T1" "A1");
             Some (Text "ไม่ได้(ครูชนที่ A1A1)")].
Proof. repeat split; vm_compute; reflexivity. Qed.

(** C10 (as the code has it).  A task whose room list is empty is never placed:
    whenever a call of [schedule_room] on its group returns, the task is
    among the leftover tasks (and the call returns when the locks are well
    formed and [slots_used] has the slot keys).  The scan tests no room
    for it and leaves [room_conf] as it is; it adds the room of a clash to
    [tr_rooms] exactly when the teacher of the task is taken at the
    slot. *)
Theorem roomless_task_unplaced (grp : string) subjects su ts
    (locks : list lock) (m : gmap string Z) s :
  s ∈ subjects -> group s = grp -> actual_room s = [] ->
  (Forall lock_ok locks -> has_slot_keys su ->
   is_Some (schedule_room grp subjects su ts locks m))
  /\ (forall tb leftover su' ts',
        schedule_room grp subjects su ts locks m
        = Some (tb, leftover, su', ts') ->
        s ∈ leftover)
  /\ (forall sl used ts1 rest tr rc,
        scan_tasks sl used ts1 (s :: rest) tr rc
        = scan_tasks sl used ts1 rest
            (match teacher_busy ts1 (teacher s) sl with
             | Some r => {[r]} ∪ tr
             | None => tr
             end) rc).
Proof.
  intros Hin Hg Hr.
  split; [apply schedule_room_total|].
  split; [|intros sl used ts1 rest tr rc; by apply scan_tasks_no_room].
  intros tb leftover su' ts' E.
  destruct (schedule_room_spec (fun st => s ∈ st_pool st)
              grp subjects su ts locks m tb leftover su' ts' E) as [HP _];
    [| |exact HP].
  - intros su0 _. cbn. by apply candidate_pool_elem.
  - intros st1 sl k st2 _ _ HP.
    destruct 1 as [|u pre t post a He Hu Hp Hpre Hb Ha Hna|He]; [done| |done].
    cbn. apply remove_first_keeps; [done|].
    destruct (task_eqb s t) eqn:Et; [|done].
    apply task_eqb_fields in Et as [_ Et].
    rewrite <- Et, Hr in Ha. by apply elem_of_nil in Ha.
Qed.

Lemma roomless_task_unplaced_witness :
  ex_art ∈ [ex_eng; ex_art] /\ group ex_art = "G2"
  /\ actual_room ex_art = []
  /\ exists tb leftover su' ts',
       schedule_room "G2" [ex_eng; ex_art] fresh_slots_used ∅ [ex_lock] ∅
       = Some (tb, leftover, su', ts')
       /\ ex_art ∈ leftover.
Proof.
  assert (H1 : Forall lock_ok [ex_lock])
    by by_evaluation.
  assert (H2 : has_slot_keys fresh_slots_used)
    by by_evaluation.
  assert (H3 : ex_art ∈ [ex_eng; ex_art])
    by (apply list_elem_of_further, list_elem_of_here).
  split; [assumption|]. split; [reflexivity|]. split; [reflexivity|].
  destruct (roomless_task_unplaced "G2" [ex_eng; ex_art]
              fresh_slots_used ∅ [ex_lock] ∅ ex_art H3 eq_refl eq_refl)
    as (Htot & Hpart & _).
  destruct (Htot H1 H2) as [[[[tb lo] su'] ts'] E].
  exists tb, lo, su', ts'. split; [exact E|].
  exact (Hpart tb lo su' ts' E).
Defined.

(** * The scenarios of the specification *)

(** One subject of two credits: four tasks, placed in room A1 at the first
    four slots of the sequence, and nothing left over. *)
Example scenario_single_subject :
  take 4 (generate_schedule_slots 2) = ["M2"; "M3"; "T2"; "T3"]
  /\ (let r := schedule_room "G1" [ex_math] fresh_slots_used ∅ [] ∅ in
      map (fun k => cell_of k r) [("Mon", 2); ("Mon", 3); ("Tue", 2); ("Tue", 3)]
      = repeat (Some (Placement "M101" "T1" "A1")) 4
      /\ (fun x => x.1.1.2) <$> r = Some []).
Proof. repeat split; vm_compute; reflexivity. Qed.

(** Two groups share teacher T1: the first group takes M2, M3, T2 and T3
    for T1; the task of the second group is skipped there and placed at
    the next slot, W2. *)
Example scenario_shared_teacher :
  let r := schedule_all ["G1"; "G2"] [ex_math; ex_eng]
             fresh_slots_used ∅ [] ∅ in
  cells_at ("Mon", 2) r
  = Some [Some (Placement "M101" "T1" "A1"); Some (Text "ไม่ได้(ครูชนที่ A1A1)")]
  /\ cells_at ("Wed", 2) r
     = Some [Some (Text "ไม่มีวิชา"); Some (Placement "E101" "T1" "A1")].
Proof. split; vm_compute; reflexivity. Qed.

(** * Further properties *)

(** A call on fresh [slots_used] returns when the locks are well formed. *)
Lemma fresh_call_returns (grp : string) subjects ts (locks : list lock)
    (m : gmap string Z) :
  Forall lock_ok locks ->
  is_Some (schedule_room grp subjects fresh_slots_used ts locks m).
Proof.
  intros H. apply schedule_room_total; [exact H|]. by_evaluation.
Qed.

(** The call of an example returns: its result is bound and the equation
    kept. *)
Ltac run_call E :=
  match goal with
  | |- exists tb leftover su' ts',
         schedule_room ?g ?s fresh_slots_used ?ts ?l ?m = Some _ /\ _ =>
      let H := fresh "H" in
      assert (H : Forall lock_ok l) by by_evaluation;
      destruct (fresh_call_returns g s ts l m H) as [[[[tb lo] su'] ts'] E];
      exists tb, lo, su', ts'; split; [exact E|]
  end.

(** ** What a call leaves in the two maps *)

Lemma teacher_busy_kept_trans (ts1 ts2 ts3 : teacher_slots_t) :
  (forall t sl r, teacher_busy ts1 t sl = Some r ->
                  teacher_busy ts2 t sl = Some r) ->
  (forall t sl r, teacher_busy ts2 t sl = Some r ->
                  teacher_busy ts3 t sl = Some r) ->
  forall t sl r, teacher_busy ts1 t sl = Some r ->
                 teacher_busy ts3 t sl = Some r.
Proof. auto. Qed.

Lemma schedule_room_grows (grp : string) subjects su ts
    (locks : list lock) (m : gmap string Z) tb leftover su' ts' :
  schedule_room grp subjects su ts locks m = Some (tb, leftover, su', ts') ->
  dom su' = dom su
  /\ (forall sl u, su !! sl = Some u ->
        exists u', su' !! sl = Some u' /\ u ⊆ u')
  /\ (forall t sl r, teacher_busy ts t sl = Some r ->
        teacher_busy ts' t sl = Some r).
Proof.
  intros E.
  destruct (schedule_room_spec
              (fun st => used_le su (st_used st)
                         /\ forall t sl r, teacher_busy ts t sl = Some r ->
                              teacher_busy (st_teacher st) t sl = Some r)
              grp subjects su ts locks m tb leftover su' ts' E)
    as [[H1 H2] Hd].
  - intros su0 Hle. by split.
  - intros st1 sl k st2 _ _ [Hle Hk].
    destruct 1 as [|u pre t post a He Hu Hp Hpre Hb Ha Hna|He]; [done| |done].
    cbn. split.
    + eapply used_le_trans; [exact Hle|]. by apply used_le_insert.
    + intros t' sl' r Hs. apply teacher_busy_place_keep; auto.
  - done.
Qed.

(** X1.  A call to [schedule_room] that returns only adds to the two
    shared maps: [slots_used] keeps its keys and the occupants of every
    slot only grow, and a room recorded for a teacher at a slot is still
    recorded for them afterwards. *)
Theorem schedule_room_maps_grow (grp : string) subjects su ts
    (locks : list lock) (m : gmap string Z) tb leftover su' ts' :
  schedule_room grp subjects su ts locks m = Some (tb, leftover, su', ts') ->
  dom su' = dom su
  /\ (forall sl u, su !! sl = Some u ->
        exists u', su' !! sl = Some u' /\ u ⊆ u')
  /\ (forall t sl r, teacher_busy ts t sl = Some r ->
        teacher_busy ts' t sl = Some r).
Proof. apply schedule_room_grows. Qed.

Lemma schedule_room_maps_grow_witness :
  exists tb leftover su' ts',
    schedule_room "G1" [ex_math; ex_eng] fresh_slots_used ex_teacher_slots
      [ex_lock] ∅ = Some (tb, leftover, su', ts')
    /\ dom su' = dom fresh_slots_used
    /\ (forall sl u, fresh_slots_used !! sl = Some u ->
          exists u', su' !! sl = Some u' /\ u ⊆ u')
    /\ (forall t sl r, teacher_busy ex_teacher_slots t sl = Some r ->
          teacher_busy ts' t sl = Some r).
Proof.
  run_call E.
  exact (schedule_room_maps_grow "G1" [ex_math; ex_eng] fresh_slots_used
           ex_teacher_slots [ex_lock] ∅ tb lo su' ts' E).
Defined.

(** The lock loop marks the slot of every matching lock with the group. *)
Lemma apply_locks_marks (grp : string) (locks : list lock) (tb : table)
    su tb' su' lk d :
  apply_locks grp locks (tb, su) = Some (tb', su') ->
  lk ∈ locks -> lock_matches grp lk = true ->
  DAY_TH_TO_CODE !! day lk = Some d ->
  exists u, su' !! slot_label d (period lk) = Some u /\ grp ∈ u.
Proof.
  revert tb su. induction locks as [|lk0 locks IH]; intros tb su E Hin Hm Hd.
  - by apply elem_of_nil in Hin.
  - cbn [apply_locks] in E.
    destruct (apply_lock grp (tb, su) lk0) as [[tb1 su1]|] eqn:E1; [|done].
    cbn [mbind option_bind] in E.
    apply elem_of_cons in Hin as [->|Hin]; [|by eapply IH].
    unfold apply_lock in E1. rewrite Hm, Hd in E1.
    cbn [mbind option_bind] in E1.
    destruct (day_map !! d) as [row|]; [|done].
    cbn [mbind option_bind] in E1.
    destruct (su !! slot_label d (period lk0)) as [u|] eqn:Hu; [|done].
    cbn [mbind option_bind] in E1. injection E1 as <- <-.
    apply apply_locks_spec in E as (_ & Hle & _).
    destruct (Hle (slot_label d (period lk0)) ({[grp]} ∪ u))
      as (u' & Hu' & Hsub); [by rewrite lookup_insert_eq|].
    exists u'. split; [done|]. set_solver.
Qed.

(** The two phases of a call that returns. *)
Lemma schedule_room_phases (grp : string) subjects su ts
    (locks : list lock) (m : gmap string Z) tb leftover su' ts' :
  schedule_room grp subjects su ts locks m = Some (tb, leftover, su', ts') ->
  let subs := group_subjects grp subjects in
  exists su0,
    apply_locks grp locks (∅, su) = Some (lock_table grp locks ∅, su0)
    /\ walk_slots m (generate_schedule_slots (sum_credit subs))
         (mkState (lock_table grp locks ∅) su0 ts (candidate_pool subs))
       = Some (mkState tb su' ts' leftover).
Proof.
  intros E subs. unfold schedule_room in E.
  destruct (apply_locks grp locks (∅, su)) as [[tb0 su0]|] eqn:E0; [|done].
  cbn [mbind option_bind] in E. fold subs in E.
  destruct (walk_slots m _ _) as [st|] eqn:Ew; [|done].
  cbn [mbind option_bind] in E. injection E as <- <- <- <-.
  pose proof (apply_locks_spec _ _ _ _ _ _ E0) as (-> & _ & _).
  exists su0. split; [done|]. by destruct st.
Qed.

(** X2.  After a call that returns, every lock that names the group (or
    ALL) has put the group among the occupants of the lock's slot. *)
Theorem lock_marks_group (grp : string) subjects su ts
    (locks : list lock) (m : gmap string Z) tb leftover su' ts' lk d :
  schedule_room grp subjects su ts locks m = Some (tb, leftover, su', ts') ->
  lk ∈ locks -> lock_matches grp lk = true ->
  DAY_TH_TO_CODE !! day lk = Some d ->
  exists u, su' !! slot_label d (period lk) = Some u /\ grp ∈ u.
Proof.
  intros E Hin Hm Hd.
  apply schedule_room_phases in E as (su0 & E0 & Ew).
  destruct (apply_locks_marks grp locks ∅ su _ su0 lk d E0 Hin Hm Hd)
    as (u0 & Hu0 & Hg).
  destruct (walk_slots_spec
              (fun st => exists u,
                   st_used st !! slot_label d (period lk) = Some u /\ grp ∈ u)
              m _ _ _ Ew) as [HP _]; [by exists u0| |exact HP].
  intros st1 sl k st2 _ _ (u & Hu & Hgu).
  destruct 1 as [|u1 pre t post a He Hu1 Hp Hpre Hb Ha Hna|He];
    [by exists u| |by exists u].
  cbn. destruct (used_le_insert (st_used st1) sl u1 {[teacher t; a]} Hu1
                   _ _ Hu) as (u' & Hu' & Hsub).
  exists u'. split; [done|]. set_solver.
Qed.

Lemma lock_marks_group_witness :
  ex_lock ∈ [ex_lock] /\ lock_matches "G1" ex_lock = true
  /\ DAY_TH_TO_CODE !! day ex_lock = Some "M"
  /\ exists tb leftover su' ts',
       schedule_room "G1" [ex_math] fresh_slots_used ∅ [ex_lock] ∅
       = Some (tb, leftover, su', ts')
       /\ exists u, su' !! slot_label "M" (period ex_lock) = Some u
                    /\ "G1" ∈ u.
Proof.
  assert (H1 : ex_lock ∈ [ex_lock]) by apply list_elem_of_here.
  assert (H2 : lock_matches "G1" ex_lock = true) by (vm_compute; reflexivity).
  assert (H3 : DAY_TH_TO_CODE !! day ex_lock = Some "M")
    by (vm_compute; reflexivity).
  do 3 (split; [assumption|]).
  run_call E.
  exact (lock_marks_group "G1" [ex_math] fresh_slots_used ∅ [ex_lock] ∅
           tb lo su' ts' ex_lock "M" E H1 H2 H3).
Defined.

(** ** Where the placements come from *)

Lemma expand_tasks_elem subs t : t ∈ expand_tasks subs -> t ∈ subs.
Proof.
  unfold expand_tasks. intros H.
  apply list_elem_of_In, in_flat_map in H as (s & Hs & Ht).
  unfold copies in Ht. apply repeat_spec in Ht as ->.
  by apply list_elem_of_In.
Qed.

Lemma group_subjects_elem (grp : string) subjects s :
  s ∈ group_subjects grp subjects <-> s ∈ subjects /\ group s = grp.
Proof.
  unfold group_subjects. rewrite !list_elem_of_In, filter_In.
  by rewrite String.eqb_eq.
Qed.

Lemma remove_first_sublist t l : remove_first t l `sublist_of` l.
Proof.
  induction l as [|x l IH]; [done|]. cbn.
  destruct (task_eqb x t); [by apply sublist_cons|by apply sublist_skip].
Qed.

(** X3.  Every placement in the returned table comes from a subject of
    the group: its code and teacher are the subject's, its room label is
    the conversion of one of the subject's actual rooms, its cell is the
    cell of a slot of the sequence, the teacher was free and the room not
    among the occupants of that slot before the call, and both are
    recorded for the slot after it. *)
Theorem placement_provenance (grp : string) subjects su ts
    (locks : list lock) (m : gmap string Z) tb leftover su' ts' k c t l :
  schedule_room grp subjects su ts locks m = Some (tb, leftover, su', ts') ->
  tb !! k = Some (Placement c t l) ->
  exists s a sl,
    s ∈ subjects /\ group s = grp /\ c = code s /\ t = teacher s
    /\ a ∈ actual_room s /\ l = convert_room_letter_to_number a m
    /\ sl ∈ generate_schedule_slots (sum_credit (group_subjects grp subjects))
    /\ parse_slot sl = Some k
    /\ teacher_busy ts t sl = None
    /\ (forall u, su !! sl = Some u -> a ∉ u)
    /\ teacher_busy ts' t sl = Some a
    /\ exists u', su' !! sl = Some u' /\ t ∈ u' /\ a ∈ u'.
Proof.
  intros E Hc.
  pose proof (schedule_room_grows _ _ _ _ _ _ _ _ _ _ E) as (_ & Hle & Hkeep).
  set (subs := group_subjects grp subjects).
  set (slots := generate_schedule_slots (sum_credit subs)).
  set (P := fun st : run_state =>
    used_le su (st_used st)
    /\ (forall t sl r, teacher_busy ts t sl = Some r ->
          teacher_busy (st_teacher st) t sl = Some r)
    /\ (forall x, x ∈ st_pool st -> x ∈ subs)
    /\ forall k c t l,
         st_table st !! k = Some (Placement c t l) ->
         exists s a sl,
           s ∈ subs /\ c = code s /\ t = teacher s
           /\ a ∈ actual_room s /\ l = convert_room_letter_to_number a m
           /\ sl ∈ slots /\ parse_slot sl = Some k
           /\ teacher_busy ts t sl = None
           /\ (forall u, su !! sl = Some u -> a ∉ u)
           /\ teacher_busy (st_teacher st) t sl = Some a
           /\ exists u', st_used st !! sl = Some u' /\ t ∈ u' /\ a ∈ u').
  destruct (schedule_room_spec P grp subjects su ts locks m tb leftover
              su' ts' E) as [(_ & _ & _ & HP) _].
  - intros su0 Hle0. split; [done|]. split; [done|]. split.
    + intros x Hx. cbn in Hx. rewrite candidate_pool_perm in Hx.
      by apply expand_tasks_elem.
    + intros k0 c0 t0 l0 H0. cbn in H0.
      by destruct (lock_table_text grp locks ∅
                     (fun k c => ltac:(by rewrite lookup_empty)) _ _ H0).
  - intros st1 sl k1 st2 Hsl Hk1 (Hle1 & Hk & Hpool & Hpl).
    destruct 1 as [|u pre x post a He Hu Hp Hpre Hb Ha Hna|He]; [done|..].
    + assert (Hx : x ∈ subs) by (apply Hpool; rewrite Hp; set_solver).
      split; [|split; [|split]].
      * cbn. eapply used_le_trans; [exact Hle1|]. by apply used_le_insert.
      * intros t' sl' r Hs. cbn. apply teacher_busy_place_keep; auto.
      * intros y Hy. cbn in Hy.
        apply Hpool. eapply elem_of_sublist; [exact Hy|].
        apply remove_first_sublist.
      * intros k0 c0 t0 l0. cbn [place st_table]. rewrite lookup_insert.
        case_decide as Hd.
        -- intros [= <- <- <-]. subst k0. exists x, a, sl.
           do 7 (split; [done|]). split.
           { destruct (teacher_busy ts (teacher x) sl) as [r|] eqn:E0; [|done].
             apply Hk in E0. congruence. }
           split.
           { intros u0 Hu0 Hin0. destruct (Hle1 _ _ Hu0) as (u1 & Hu1 & Hsub).
             assert (u1 = u) as -> by congruence. set_solver. }
           split.
           { cbn. rewrite teacher_busy_place. by rewrite decide_True. }
           cbn. rewrite lookup_insert_eq. eexists. split; [done|]. set_solver.
        -- intros H0. destruct (Hpl _ _ _ _ H0)
             as (s & a0 & sl0 & ? & ? & ? & ? & ? & ? & ? & ? & ? & Hb0
                 & u0 & Hu0 & ? & ?).
           exists s, a0, sl0. do 9 (split; [done|]). split.
           { cbn. by apply teacher_busy_place_keep. }
           cbn. destruct (used_le_insert (st_used st1) sl u {[teacher x; a]}
                            Hu _ _ Hu0) as (u1 & Hu1 & Hsub).
           exists u1. split; [done|]. set_solver.
    + split; [done|]. split; [done|]. split; [done|].
      intros k0 c0 t0 l0. cbn [diagnose st_table]. rewrite lookup_insert.
      case_decide; [done|]. apply Hpl.
  - destruct (HP _ _ _ _ Hc)
      as (s & a & sl & Hs & ? & ? & ? & ? & ? & ? & ? & ? & ? & ?).
    apply group_subjects_elem in Hs as [? ?].
    exists s, a, sl. by do 11 (split; [done|]).
Qed.

Lemma placement_provenance_witness :
  exists tb leftover su' ts',
    schedule_room "G1" [ex_math] fresh_slots_used ∅ [ex_lock] ∅
    = Some (tb, leftover, su', ts')
    /\ tb !! ("Mon", 2) = Some (Placement "M101" "T1" "A1")
    /\ exists s a sl,
         s ∈ [ex_math] /\ group s = "G1" /\ "M101" = code s
         /\ "T1" = teacher s
         /\ a ∈ actual_room s /\ "A1" = convert_room_letter_to_number a ∅
         /\ sl ∈ generate_schedule_slots
                   (sum_credit (group_subjects "G1" [ex_math]))
         /\ parse_slot sl = Some ("Mon", 2)
         /\ teacher_busy ∅ "T1" sl = None
         /\ (forall u, fresh_slots_used !! sl = Some u -> a ∉ u)
         /\ teacher_busy ts' "T1" sl = Some a
         /\ exists u', su' !! sl = Some u' /\ "T1" ∈ u' /\ a ∈ u'.
Proof.
  assert (Hc : cell_of ("Mon", 2)
                 (schedule_room "G1" [ex_math] fresh_slots_used ∅ [ex_lock] ∅)
               = Some (Placement "M101" "T1" "A1"))
    by (vm_compute; reflexivity).
  run_call E. rewrite E in Hc. cbn [cell_of] in Hc.
  split; [exact Hc|].
  exact (placement_provenance "G1" [ex_math] fresh_slots_used ∅ [ex_lock] ∅
           tb lo su' ts' ("Mon", 2) "M101" "T1" "A1" E Hc).
Defined.



(** ** The cells that the slot loop writes *)

Lemma sequenced_not_period_5 x :
  Forall (fun sl => snd <$> parse_slot sl <> Some 5)
         (generate_schedule_slots x).
Proof.
  unfold generate_schedule_slots. destruct (Qle_bool x 18); by_evaluation.
Qed.

Lemma unsequenced_cell_kept (m : gmap string Z) slots st st' (k : string * Z) :
  walk_slots m slots st = Some st' ->
  (forall sl, sl ∈ slots -> parse_slot sl <> Some k) ->
  st_table st' !! k = st_table st !! k.
Proof.
  intros E Hk.
  destruct (walk_slots_spec (fun s => st_table s !! k = st_table st !! k)
              m slots st st' E) as [HP _]; [done| |exact HP].
  intros st1 sl k1 st2 Hin Hk1 HP.
  assert (k1 <> k) as Hne by (intros ->; by apply (Hk sl)).
  destruct 1 as [|u pre t post a He|He]; [done|..]; cbn;
    by rewrite lookup_insert_ne.
Qed.

(** X5.  The slot loop never writes period 5: in the returned table the
    period-5 cell of every row is what the locks left there, and it is
    never a placement. *)
Theorem period_five_untouched (grp : string) subjects su ts
    (locks : list lock) (m : gmap string Z) tb leftover su' ts' row :
  schedule_room grp subjects su ts locks m = Some (tb, leftover, su', ts') ->
  tb !! (row, 5) = lock_table grp locks ∅ !! (row, 5)
  /\ (forall c t l, tb !! (row, 5) <> Some (Placement c t l)).
Proof.
  intros E. apply schedule_room_phases in E as (su0 & _ & Ew).
  assert (tb !! (row, 5) = lock_table grp locks ∅ !! (row, 5)) as Hc.
  { apply (unsequenced_cell_kept _ _ _ _ (row, 5)) in Ew; [done|].
    intros sl Hin Hp.
    pose proof (sequenced_not_period_5
                  (sum_credit (group_subjects grp subjects))) as HF.
    rewrite Forall_forall in HF. apply (HF sl Hin). by rewrite Hp. }
  split; [done|]. intros c t l Hp. rewrite Hc in Hp.
  by destruct (lock_table_text grp locks ∅
                 (fun k c => ltac:(by rewrite lookup_empty)) _ _ Hp).
Qed.

Lemma period_five_untouched_witness :
  exists tb leftover su' ts',
    schedule_room "G1" [ex_math] fresh_slots_used ∅ [ex_lock] ∅
    = Some (tb, leftover, su', ts')
    /\ tb !! ("Mon", 5) = lock_table "G1" [ex_lock] ∅ !! ("Mon", 5)
    /\ (forall c t l, tb !! ("Mon", 5) <> Some (Placement c t l)).
Proof.
  run_call E.
  exact (period_five_untouched "G1" [ex_math] fresh_slots_used ∅ [ex_lock] ∅
           tb lo su' ts' "Mon" E).
Defined.

Lemma fmt_not_empty tr rc n : fmt tr rc n <> "".
Proof.
  unfold fmt. destruct (Nat.eqb n 0); [discriminate|].
  destruct (bool_decide (tr = ∅)), rc; cbn; discriminate.
Qed.

Lemma step_outcome_fills m st sl k st' :
  step_outcome m st sl k st' ->
  cell_eqb_empty (table_at (st_table st') k) = false.
Proof.
  destruct 1 as [|u pre t post a He|He]; [done|..]; cbn;
    unfold table_at; rewrite lookup_insert_eq; cbn; [done|].
  apply String.eqb_neq, fmt_not_empty.
Qed.

Lemma walk_keeps_filled (m : gmap string Z) slots st st' (k : string * Z) :
  walk_slots m slots st = Some st' ->
  cell_eqb_empty (table_at (st_table st) k) = false ->
  st_table st' !! k = st_table st !! k.
Proof.
  intros E Hk.
  destruct (walk_slots_spec (fun s => st_table s !! k = st_table st !! k)
              m slots st st' E) as [HP _]; [done| |exact HP].
  intros st1 sl k1 st2 _ _ HP Ho.
  assert (cell_eqb_empty (table_at (st_table st1) k) = false) as Hk1.
  { unfold table_at in *. by rewrite HP. }
  rewrite <- HP. unfold table_at in Hk1.
  destruct (st_table st1 !! k) as [c0|] eqn:Hc; [|done].
  by apply (step_outcome_keeps_cell m st1 sl k1 st2 k c0 Ho).
Qed.

Lemma walk_slots_fills (m : gmap string Z) slots st st' sl k :
  walk_slots m slots st = Some st' ->
  sl ∈ slots -> parse_slot sl = Some k ->
  cell_eqb_empty (table_at (st_table st') k) = false.
Proof.
  revert st. induction slots as [|sl0 rest IH]; intros st E Hin Hk.
  - by apply elem_of_nil in Hin.
  - cbn [walk_slots] in E.
    destruct (slot_step m st sl0) as [st1|] eqn:E1; [|done].
    cbn [mbind option_bind] in E.
    destruct (decide (sl0 = sl)) as [->|Hne].
    + apply slot_step_spec in E1 as (k1 & Hk1 & Ho).
      assert (k1 = k) as -> by congruence.
      apply step_outcome_fills in Ho.
      unfold table_at. rewrite (walk_keeps_filled m rest st1 st' k E Ho).
      exact Ho.
    + apply elem_of_cons in Hin as [->|Hin]; [done|]. by eapply IH.
Qed.

(** X6.  After a call that returns, the cell of every slot of the
    sequence is filled: it holds a lock name, a placement or a diagnostic
    label, never the empty string. *)
Theorem sequenced_cells_filled (grp : string) subjects su ts
    (locks : list lock) (m : gmap string Z) tb leftover su' ts' sl k :
  schedule_room grp subjects su ts locks m = Some (tb, leftover, su', ts') ->
  sl ∈ generate_schedule_slots (sum_credit (group_subjects grp subjects)) ->
  parse_slot sl = Some k ->
  exists c, tb !! k = Some c /\ c <> Text "".
Proof.
  intros E Hin Hk. apply schedule_room_phases in E as (su0 & _ & Ew).
  pose proof (walk_slots_fills _ _ _ _ sl k Ew Hin Hk) as Hf.
  cbn in Hf. unfold table_at in Hf.
  destruct (tb !! k) as [c|]; [|done].
  exists c. split; [done|]. intros ->. done.
Qed.

Lemma sequenced_cells_filled_witness :
  "F11" ∈ generate_schedule_slots (sum_credit (group_subjects "G1" [ex_math]))
  /\ parse_slot "F11" = Some ("Fri", 11)
  /\ exists tb leftover su' ts',
       schedule_room "G1" [ex_math] fresh_slots_used ∅ [ex_lock] ∅
       = Some (tb, leftover, su', ts')
       /\ exists c, tb !! ("Fri", 11) = Some c /\ c <> Text "".
Proof.
  assert (H1 : "F11" ∈ generate_schedule_slots
                         (sum_credit (group_subjects "G1" [ex_math])))
    by by_evaluation.
  assert (H2 : parse_slot "F11" = Some ("Fri", 11))
    by (vm_compute; reflexivity).
  do 2 (split; [assumption|]).
  run_call E.
  exact (sequenced_cells_filled "G1" [ex_math] fresh_slots_used ∅ [ex_lock] ∅
           tb lo su' ts' "F11" ("Fri", 11) E H1 H2).
Defined.

(** ** A group without subjects *)

(** X7.  For a group without subjects the call places nothing: no task
    is left over, [teacher_slots] is unchanged, [slots_used] is as the
    locks left it, and every cell holds what the locks wrote or the
    no-subject label. *)
Theorem empty_group_schedule (grp : string) subjects su ts
    (locks : list lock) (m : gmap string Z) tb leftover su' ts' :
  group_subjects grp subjects = [] ->
  schedule_room grp subjects su ts locks m = Some (tb, leftover, su', ts') ->
  leftover = [] /\ ts' = ts
  /\ (exists su0, apply_locks grp locks (∅, su) = Some (lock_table grp locks ∅, su0)
                  /\ su' = su0)
  /\ forall k, tb !! k = lock_table grp locks ∅ !! k
               \/ tb !! k = Some (Text "ไม่มีวิชา").
Proof.
  intros Hs E. apply schedule_room_phases in E as (su0 & E0 & Ew).
  rewrite Hs in Ew.
  destruct (walk_slots_spec
              (fun st => st_pool st = [] /\ st_teacher st = ts
                         /\ st_used st = su0
                         /\ forall k, st_table st !! k
                                      = lock_table grp locks ∅ !! k
                                      \/ st_table st !! k
                                         = Some (Text "ไม่มีวิชา"))
              m _ _ _ Ew) as [(H1 & H2 & H3 & H4) _].
  - cbn. repeat split; auto.
  - intros st1 sl k st2 _ _ (H1 & H2 & H3 & H4).
    destruct 1 as [|u pre t post a He Hu Hp|He]; [done|..].
    + rewrite H1 in Hp. by destruct pre.
    + cbn. do 3 (split; [done|]). intros k0. rewrite lookup_insert.
      case_decide; [|apply H4]. right. by rewrite H1.
  - cbn in *. split; [done|]. split; [done|]. split; [|done].
    exists su0. by split.
Qed.

Lemma empty_group_schedule_witness :
  group_subjects "G9" [ex_math] = []
  /\ exists tb leftover su' ts',
       schedule_room "G9" [ex_math] fresh_slots_used ex_teacher_slots
         [ex_lock] ∅ = Some (tb, leftover, su', ts')
       /\ leftover = [] /\ ts' = ex_teacher_slots
       /\ (exists su0,
             apply_locks "G9" [ex_lock] (∅, fresh_slots_used)
             = Some (lock_table "G9" [ex_lock] ∅, su0) /\ su' = su0)
       /\ forall k, tb !! k = lock_table "G9" [ex_lock] ∅ !! k
                    \/ tb !! k = Some (Text "ไม่มีวิชา").
Proof.
  assert (H1 : group_subjects "G9" [ex_math] = []) by reflexivity.
  split; [exact H1|].
  run_call E.
  exact (empty_group_schedule "G9" [ex_math] fresh_slots_used
           ex_teacher_slots [ex_lock] ∅ tb lo su' ts' H1 E).
Defined.

(** ** First fit *)

Lemma scan_rooms_fit used rms rc a rc' :
  scan_rooms used rms rc = Some (Some a, rc') ->
  exists pre post u,
    rms = (pre ++ a :: post)%list /\ used = Some u
    /\ Forall (fun r => r ∈ u) pre /\ a ∉ u
    /\ rc' = rc || negb (bool_decide (pre = [])).
Proof.
  revert rc. induction rms as [|r rms IH]; intros rc; cbn [scan_rooms];
    [done|].
  destruct used as [u|]; [|done]. cbn [mbind option_bind].
  destruct (bool_decide_reflect (r ∈ u)) as [Hr|Hr].
  - intros E. apply IH in E as (pre & post & u' & -> & [= <-] & HF & Ha & ->).
    exists (r :: pre), post, u. split; [done|]. split; [done|].
    split; [by constructor|]. split; [done|].
    rewrite (bool_decide_eq_false_2 (r :: pre = [])) by done.
    by rewrite orb_true_r.
  - intros [= <- <-]. exists [], rms, u. split; [done|]. split; [done|].
    split; [constructor|]. split; [done|]. by rewrite orb_false_r.
Qed.

(** X8.  The room loop takes the first room of the task's list that is
    not among the occupants of the slot: the rooms before it are all
    occupied, and the room flag is raised exactly when it was raised
    before or a room was skipped. *)
Theorem scan_rooms_first_fit used rms rc a rc' :
  scan_rooms used rms rc = Some (Some a, rc') ->
  exists pre post u,
    rms = (pre ++ a :: post)%list /\ used = Some u
    /\ Forall (fun r => r ∈ u) pre /\ a ∉ u
    /\ rc' = rc || negb (bool_decide (pre = [])).
Proof. apply scan_rooms_fit. Qed.

Lemma scan_rooms_first_fit_witness :
  scan_rooms (Some {["A1"]}) ["A1"; "B2"; "C3"] false
  = Some (Some "B2", true)
  /\ exists pre post u,
       ["A1"; "B2"; "C3"] = (pre ++ "B2" :: post)%list
       /\ Some ({["A1"]} : gset string) = Some u
       /\ Forall (fun r => r ∈ u) pre /\ "B2" ∉ u
       /\ true = false || negb (bool_decide (pre = [])).
Proof.
  assert (H1 : scan_rooms (Some {["A1"]}) ["A1"; "B2"; "C3"] false
               = Some (Some "B2", true)) by (vm_compute; reflexivity).
  split; [exact H1|].
  exact (scan_rooms_first_fit (Some {["A1"]}) ["A1"; "B2"; "C3"] false "B2"
           true H1).
Defined.

Lemma scan_tasks_first_fit sl used ts tasks tr rc t a tr' rc' :
  scan_tasks sl used ts tasks tr rc = Some (Some (t, a), tr', rc') ->
  exists pre post rpre rpost u,
    tasks = (pre ++ t :: post)%list
    /\ Forall (blocked used ts sl) pre
    /\ teacher_busy ts (teacher t) sl = None
    /\ actual_room t = (rpre ++ a :: rpost)%list
    /\ used = Some u /\ Forall (fun r => r ∈ u) rpre /\ a ∉ u.
Proof.
  revert tr rc. induction tasks as [|x rest IH]; intros tr rc;
    cbn [scan_tasks]; [done|].
  destruct (teacher_busy ts (teacher x) sl) as [r|] eqn:Hb.
  - intros E. apply IH in E
      as (pre & post & rpre & rpost & u & -> & HF & ? & ? & ? & ? & ?).
    exists (x :: pre), post, rpre, rpost, u. split; [done|].
    split; [constructor; [left; by rewrite Hb|done]|]. done.
  - destruct (scan_rooms used (actual_room x) rc) as [[found rc1]|] eqn:Er;
      [|done].
    cbn [mbind option_bind]. destruct found as [b|].
    + intros [= <- <- <- <-].
      apply scan_rooms_fit in Er
        as (rpre & rpost & u & Hr & Hu & HF & Ha & _).
      exists [], rest, rpre, rpost, u. split; [done|].
      split; [constructor|]. done.
    + apply scan_rooms_spec in Er as [HF _]. intros E. apply IH in E
        as (pre & post & rpre & rpost & u & -> & HF' & ? & ? & ? & ? & ?).
      exists (x :: pre), post, rpre, rpost, u. split; [done|].
      split; [constructor; [by right|done]|]. done.
Qed.

(** X9.  At a free slot a placement is the first fit: the placed task is
    the first candidate, in pool order, after candidates that are all
    blocked (teacher taken, or every room occupied); its teacher is free;
    it goes to the first of its rooms that is not occupied; and the state
    after the step is the placement of that task in that room. *)
Theorem placement_first_fit (m : gmap string Z) st sl st' k c tch l :
  slot_step m st sl = Some st' ->
  parse_slot sl = Some k ->
  cell_eqb_empty (table_at (st_table st) k) = true ->
  st_table st' !! k = Some (Placement c tch l) ->
  exists pre t post rpre a rpost u,
    st_pool st = (pre ++ t :: post)%list
    /\ Forall (blocked (Some u) (st_teacher st) sl) pre
    /\ teacher_busy (st_teacher st) (teacher t) sl = None
    /\ actual_room t = (rpre ++ a :: rpost)%list
    /\ st_used st !! sl = Some u
    /\ Forall (fun r => r ∈ u) rpre /\ a ∉ u
    /\ c = code t /\ tch = teacher t
    /\ l = convert_room_letter_to_number a m
    /\ st' = place m st sl k u t a.
Proof.
  unfold slot_step. intros E Hk He. rewrite Hk in E.
  cbn [mbind option_bind] in E. rewrite He in E. cbn [negb] in E.
  destruct (scan_tasks sl (st_used st !! sl) (st_teacher st) (st_pool st)
              ∅ false) as [[[res tr'] rc']|] eqn:Es; [|done].
  cbn [mbind option_bind] in E. destruct res as [[t a]|].
  - apply scan_tasks_first_fit in Es
      as (pre & post & rpre & rpost & u & Hp & HF & Hb & Hr & Hu & HFr & Ha).
    rewrite Hu in E, HF. cbn [mbind option_bind] in E. injection E as <-.
    cbn. rewrite lookup_insert_eq. intros [= <- <- <-].
    exists pre, t, post, rpre, a, rpost, u. by do 10 (split; [done|]).
  - injection E as <-. cbn. rewrite lookup_insert_eq. done.
Qed.

Lemma placement_first_fit_witness :
  parse_slot "M3" = Some ("Mon", 3)
  /\ cell_eqb_empty (table_at (st_table ex_state) ("Mon", 3)) = true
  /\ exists st',
       slot_step ∅ ex_state "M3" = Some st'
       /\ st_table st' !! ("Mon", 3) = Some (Placement "E101" "T1" "A1")
       /\ exists pre t post rpre a rpost u,
            st_pool ex_state = (pre ++ t :: post)%list
            /\ Forall (blocked (Some u) (st_teacher ex_state) "M3") pre
            /\ teacher_busy (st_teacher ex_state) (teacher t) "M3" = None
            /\ actual_room t = (rpre ++ a :: rpost)%list
            /\ st_used ex_state !! "M3" = Some u
            /\ Forall (fun r => r ∈ u) rpre /\ a ∉ u
            /\ "E101" = code t /\ "T1" = teacher t
            /\ "A1" = convert_room_letter_to_number a ∅
            /\ st' = place ∅ ex_state "M3" ("Mon", 3) u t a.
Proof.
  assert (H1 : parse_slot "M3" = Some ("Mon", 3)) by (vm_compute; reflexivity).
  assert (H2 : cell_eqb_empty (table_at (st_table ex_state) ("Mon", 3)) = true)
    by (vm_compute; reflexivity).
  assert (Hc : (slot_step ∅ ex_state "M3"
                ≫= fun st' => st_table st' !! ("Mon", 3))
               = Some (Placement "E101" "T1" "A1"))
    by (vm_compute; reflexivity).
  do 2 (split; [assumption|]).
  destruct (slot_step ∅ ex_state "M3") as [st'|] eqn:E;
    [|exfalso; discriminate Hc].
  exists st'. split; [reflexivity|]. cbn [mbind option_bind] in Hc.
  split; [exact Hc|].
  exact (placement_first_fit ∅ ex_state "M3" st' ("Mon", 3) "E101" "T1" "A1"
           E H1 H2 Hc).
Defined.

(** ** Slot labels *)

Lemma string_of_uint_not_empty d :
  d <> Decimal.Nil -> NilEmpty.string_of_uint d <> "".
Proof. by destruct d. Qed.

Lemma of_int_nonneg p :
  0 <= p ->
  exists u, Str.of_int p = NilEmpty.string_of_uint u /\ u <> Decimal.Nil
            /\ Z.of_uint u = p.
Proof.
  intros Hp. unfold Str.of_int, Z.to_int. destruct p as [|p|p]; [| |lia].
  - exists (Decimal.D0 Decimal.Nil). by repeat split.
  - exists (Pos.to_uint p). split; [done|]. split.
    + apply DecimalPos.Unsigned.to_uint_nonnil.
    + unfold Z.of_uint. by rewrite DecimalPos.Unsigned.of_to.
Qed.

Lemma string_app_nil_r (s : string) : s +:+ "" = s.
Proof.
  induction s as [|c s IH]; [done|].
  change (String c (s +:+ "") = String c s). by rewrite IH.
Qed.

Lemma day_code_upper d :
  d ∈ days -> d <> "" /\ Str.all Str.is_upper d = true.
Proof.
  intros H. unfold days in H.
  repeat (apply elem_of_cons in H as [->|H]; [by split|]).
  by apply elem_of_nil in H.
Qed.

Lemma parse_slot_of_label d p :
  d ∈ days -> 0 <= p ->
  parse_slot (slot_label d p) = (fun row => (row, p)) <$> day_map !! d.
Proof.
  intros Hd Hp. destruct (day_code_upper d Hd) as [Hne Hup].
  destruct (of_int_nonneg p Hp) as (u & Hu & Hnil & Hz).
  unfold parse_slot, slot_label. rewrite Hu.
  rewrite (match_letters_digits_exact d (NilEmpty.string_of_uint u));
    [|done|by apply string_of_uint_not_empty|done
     |apply string_of_uint_digits].
  cbn [mbind option_bind]. rewrite NilEmpty.usu. cbn [mbind option_bind].
  destruct (day_map !! d); cbn; [|done]. by rewrite Hz.
Qed.

(** X10.  Slot labels round-trip: for a day code of the week and a
    non-negative period [p], the regex and [day_map] of the slot loop read
    back from the label of day [d] and period [p] the row of [d] and
    [p]. *)
Theorem parse_slot_label d p :
  d ∈ days -> 0 <= p ->
  parse_slot (slot_label d p) = (fun row => (row, p)) <$> day_map !! d.
Proof. apply parse_slot_of_label. Qed.

Lemma parse_slot_label_witness :
  "TH" ∈ days /\ 0 <= 11
  /\ parse_slot (slot_label "TH" 11)
     = (fun row => (row, 11)) <$> day_map !! "TH".
Proof.
  assert (H1 : "TH" ∈ days) by by_evaluation.
  assert (H2 : 0 <= 11) by lia.
  do 2 (split; [assumption|]).
  exact (parse_slot_label "TH" 11 H1 H2).
Defined.

Lemma parse_slot_negative d p :
  d ∈ days -> p < 0 -> parse_slot (slot_label d p) = None.
Proof.
  intros Hd Hp. destruct (day_code_upper d Hd) as [Hne Hup].
  unfold parse_slot, slot_label, match_letters_digits.
  assert (exists s, Str.of_int p = String "-" s) as [s ->].
  { unfold Str.of_int, Z.to_int. destruct p as [|p|p]; [lia|lia|].
    by eexists. }
  rewrite (span_app Str.is_upper d (String "-" s) Hup); [|done].
  cbn. by destruct d.
Qed.

(** ** When a call raises *)

Lemma apply_locks_filter (grp : string) (locks : list lock)
    (st : table * slots_used_t) :
  apply_locks grp (List.filter (lock_matches grp) locks) st
  = apply_locks grp locks st.
Proof.
  revert st. induction locks as [|lk locks IH]; intros st; [done|].
  cbn [List.filter apply_locks]. destruct (lock_matches grp lk) eqn:Hm.
  - cbn [apply_locks]. destruct (apply_lock grp st lk); [|done].
    cbn [mbind option_bind]. apply IH.
  - unfold apply_lock. destruct st as [tb su]. rewrite Hm.
    cbn [mbind option_bind]. apply IH.
Qed.

Lemma group_subjects_idemp (grp : string) subjects :
  group_subjects grp (group_subjects grp subjects)
  = group_subjects grp subjects.
Proof.
  unfold group_subjects. induction subjects as [|s l IH]; [done|].
  cbn [List.filter]. destruct (String.eqb (group s) grp) eqn:E; [|done].
  cbn [List.filter]. by rewrite E, IH.
Qed.

Lemma schedule_room_own (grp : string) subjects su ts
    (locks : list lock) (m : gmap string Z) :
  schedule_room grp subjects su ts locks m
  = schedule_room grp (group_subjects grp subjects) su ts
      (List.filter (lock_matches grp) locks) m.
Proof.
  unfold schedule_room. by rewrite apply_locks_filter, group_subjects_idemp.
Qed.

(** X11.  A call depends only on the subjects of its group and on the
    locks that name the group or ALL: dropping the others gives the same
    result. *)
Theorem only_own_locks_and_subjects (grp : string) subjects su ts
    (locks : list lock) (m : gmap string Z) :
  schedule_room grp subjects su ts locks m
  = schedule_room grp (group_subjects grp subjects) su ts
      (List.filter (lock_matches grp) locks) m.
Proof. apply schedule_room_own. Qed.

Lemma apply_locks_ok (grp : string) (locks : list lock) (tb : table)
    su tb' su' lk :
  apply_locks grp locks (tb, su) = Some (tb', su') ->
  lk ∈ locks -> lock_matches grp lk = true ->
  exists d, DAY_TH_TO_CODE !! day lk = Some d
            /\ slot_label d (period lk) ∈ dom su.
Proof.
  intros E Hin Hm.
  destruct (DAY_TH_TO_CODE !! day lk) as [d|] eqn:Hd.
  - exists d. split; [done|].
    destruct (apply_locks_marks grp locks tb su tb' su' lk d E Hin Hm Hd)
      as (u & Hu & _).
    apply apply_locks_spec in E as (_ & _ & Hdom). rewrite <- Hdom.
    by apply (elem_of_dom_2 (D:=gset string)) in Hu.
  - exfalso. revert tb su E.
    induction locks as [|lk0 locks IH]; intros tb su E;
      [by apply elem_of_nil in Hin|].
    cbn [apply_locks] in E.
    destruct (apply_lock grp (tb, su) lk0) as [[tb1 su1]|] eqn:E1; [|done].
    cbn [mbind option_bind] in E.
    apply elem_of_cons in Hin as [->|Hin]; [|by eapply IH].
    unfold apply_lock in E1. by rewrite Hm, Hd in E1.
Qed.

Lemma grid_labels_periods :
  forallb (fun sl => match parse_slot sl with
                     | Some (_, p) => (1 <=? p) && (p <=? 11)
                     | None => false
                     end) all_slot_labels = true.
Proof. vm_compute. reflexivity. Qed.

Lemma slot_label_grid_period d p :
  d ∈ days -> slot_label d p ∈ all_slot_labels -> 1 <= p <= 11.
Proof.
  intros Hd Hin. pose proof grid_labels_periods as HF.
  rewrite forallb_forall in HF. apply list_elem_of_In in Hin.
  specialize (HF _ Hin).
  destruct (Z_lt_le_dec p 0) as [Hp|Hp].
  - by rewrite parse_slot_negative in HF.
  - rewrite parse_slot_of_label in HF by done.
    destruct (day_map_total d Hd) as [row Hrow]. rewrite Hrow in HF.
    cbn in HF. lia.
Qed.

Lemma grid_dom_keys (su : slots_used_t) :
  dom su = list_to_set all_slot_labels -> has_slot_keys su.
Proof.
  intros Hd. apply Forall_forall. intros sl Hin.
  apply (elem_of_dom (D:=gset string)). rewrite Hd.
  by apply elem_of_list_to_set.
Qed.

Lemma matching_locks_ok (grp : string) (locks : list lock) :
  Forall (fun lk => lock_matches grp lk = true -> lock_ok lk) locks ->
  Forall lock_ok (List.filter (lock_matches grp) locks).
Proof.
  rewrite !Forall_forall. intros H lk Hin.
  apply list_elem_of_In, filter_In in Hin as [Hin Hm].
  apply H; [by apply list_elem_of_In|done].
Qed.

Lemma schedule_room_returns (grp : string) subjects su ts
    (locks : list lock) (m : gmap string Z) :
  dom su = list_to_set all_slot_labels ->
  is_Some (schedule_room grp subjects su ts locks m)
  <-> Forall (fun lk => lock_matches grp lk = true -> lock_ok lk) locks.
Proof.
  intros Hd. split.
  - intros [[[[tb lo] su'] ts'] E].
    apply schedule_room_phases in E as (su0 & E0 & _).
    apply Forall_forall. intros lk Hin Hm.
    destruct (apply_locks_ok grp locks ∅ su _ su0 lk E0 Hin Hm)
      as (d & Hday & Hk).
    split; [by eexists|].
    apply (slot_label_grid_period d); [by eapply day_code_in_days|].
    rewrite Hd in Hk. by apply elem_of_list_to_set in Hk.
  - intros HF. rewrite schedule_room_own.
    apply schedule_room_total; [by apply matching_locks_ok|].
    by apply grid_dom_keys.
Qed.

(** X12.  With [slots_used] holding the 55 slot keys, a call returns
    exactly when every lock that names the group (or ALL) has a known day
    name and a period from 1 to 11; otherwise it raises. *)
Theorem schedule_room_returns_iff (grp : string) subjects su ts
    (locks : list lock) (m : gmap string Z) :
  dom su = list_to_set all_slot_labels ->
  is_Some (schedule_room grp subjects su ts locks m)
  <-> Forall (fun lk => lock_matches grp lk = true -> lock_ok lk) locks.
Proof. apply schedule_room_returns. Qed.

Lemma schedule_room_returns_iff_witness :
  dom fresh_slots_used = list_to_set all_slot_labels
  /\ (is_Some (schedule_room "G1" [ex_math] fresh_slots_used ∅ [ex_lock] ∅)
      <-> Forall (fun lk => lock_matches "G1" lk = true -> lock_ok lk)
            [ex_lock]).
Proof.
  assert (H1 : dom fresh_slots_used
               = (list_to_set all_slot_labels : gset string))
    by by_evaluation.
  split; [exact H1|].
  exact (schedule_room_returns_iff "G1" [ex_math] fresh_slots_used ∅
           [ex_lock] ∅ H1).
Defined.

Lemma fresh_slots_used_dom :
  dom fresh_slots_used = list_to_set all_slot_labels.
Proof.
  unfold fresh_slots_used. rewrite dom_list_to_map_L.
  f_equal.
Qed.

Lemma schedule_all_returns_iff (grps : list string) subjects su ts
    (locks : list lock) (m : gmap string Z) :
  dom su = list_to_set all_slot_labels ->
  is_Some (schedule_all grps subjects su ts locks m)
  <-> Forall (fun g => Forall (fun lk => lock_matches g lk = true -> lock_ok lk)
                              locks) grps.
Proof.
  revert su ts. induction grps as [|g grps IH]; intros su ts Hd.
  - split; [constructor|by eexists].
  - cbn [schedule_all]. rewrite Forall_cons.
    rewrite <- (schedule_room_returns g subjects su ts locks m Hd).
    destruct (schedule_room g subjects su ts locks m)
      as [[[[tb lo] su1] ts1]|] eqn:E; cbn [mbind option_bind].
    + pose proof (schedule_room_grows _ _ _ _ _ _ _ _ _ _ E) as (Hd1 & _).
      rewrite <- (IH su1 ts1) by congruence.
      destruct (schedule_all grps subjects su1 ts1 locks m)
        as [[[tbs su2] ts2]|]; cbn [mbind option_bind].
      * split; [intros _; split; by eexists|by eexists].
      * split; [by intros [? ?]|by intros [_ [? ?]]].
    + split; [by intros [? ?]|by intros [[? ?] _]].
Qed.

(** X13.  A run over the groups that starts from fresh maps, as the
    display and the export start it, returns exactly when, for every
    group of the run, the locks that name it have a known day name and a
    period from 1 to 11. *)
Theorem fresh_run_returns_iff (grps : list string) subjects
    (locks : list lock) (m : gmap string Z) :
  is_Some (schedule_all grps subjects fresh_slots_used ∅ locks m)
  <-> Forall (fun g => Forall (fun lk => lock_matches g lk = true -> lock_ok lk)
                              locks) grps.
Proof. apply schedule_all_returns_iff, fresh_slots_used_dom. Qed.

(** ** Sorting *)

Section stable_sort.

Context {A : Type} (lt : A -> A -> bool).

(** [lt] never holds both ways, as for [<] on the keys of a sort. *)
Hypothesis lt_asym : forall a b, lt a b = true -> lt b a = false.

Lemma insert_by_sorted x l :
  Sorted (fun a b => lt b a = false) l ->
  Sorted (fun a b => lt b a = false) (insert_by lt x l).
Proof.
  induction 1 as [|y l Hs IH Hh]; cbn [insert_by].
  - by repeat constructor.
  - destruct (lt y x) eqn:E.
    + constructor; [done|]. destruct Hh as [|z l Hz]; cbn [insert_by].
      * constructor. by apply lt_asym.
      * destruct (lt z x); constructor; [done|by apply lt_asym].
    + constructor; [by constructor|by constructor].
Qed.

Lemma sorted_by_sorted l :
  Sorted (fun a b => lt b a = false) (sorted_by lt l).
Proof.
  induction l as [|x l IH]; [constructor|].
  unfold sorted_by in *. cbn [foldr]. by apply insert_by_sorted.
Qed.

(** A sorted list is left as it is: the sort is stable. *)
Lemma sorted_by_id l :
  Sorted (fun a b => lt b a = false) l -> sorted_by lt l = l.
Proof.
  induction 1 as [|x l Hs IH Hh]; [done|].
  unfold sorted_by in *. cbn [foldr]. rewrite IH.
  destruct Hh as [|y l Hy]; [done|]. cbn [insert_by]. by rewrite Hy.
Qed.

Lemma sorted_by_idemp l : sorted_by lt (sorted_by lt l) = sorted_by lt l.
Proof. apply sorted_by_id, sorted_by_sorted. Qed.

End stable_sort.

Lemma Sorted_weaken {A} (R R' : A -> A -> Prop) (P : A -> Prop) l :
  (forall a b, P a -> P b -> R a b -> R' a b) ->
  Forall P l -> Sorted R l -> Sorted R' l.
Proof.
  intros HR HP Hs. induction Hs as [|x l Hs IH Hh]; [constructor|].
  apply Forall_cons in HP as [Hx HP]. constructor; [by apply IH|].
  destruct Hh as [|y l Hy]; constructor.
  apply Forall_cons in HP as [Hy' _]. by apply HR.
Qed.

Lemma string_ltb_asym a b : String.ltb a b = true -> String.ltb b a = false.
Proof.
  unfold String.ltb. rewrite (String.compare_antisym b a).
  by destruct (String.compare a b).
Qed.

Lemma string_ltb_leb a b : String.ltb b a = false -> String.leb a b = true.
Proof.
  unfold String.ltb, String.leb. rewrite (String.compare_antisym b a).
  by destruct (String.compare a b).
Qed.

Lemma Qeq_bool_sym a b : Qeq_bool a b = Qeq_bool b a.
Proof.
  destruct (Qeq_bool b a) eqn:E.
  - apply Qeq_bool_iff. symmetry. by apply Qeq_bool_iff.
  - apply not_true_is_false. intros H. apply Qeq_bool_iff in H.
    symmetry in H. apply Qeq_bool_iff in H. congruence.
Qed.

Lemma Qle_bool_asym a b :
  Qeq_bool a b = false -> Qle_bool b a = false -> Qle_bool a b = true.
Proof.
  intros _ H. apply Qle_bool_iff. apply Qlt_le_weak, Qnot_le_lt.
  intros Hle. apply Qle_bool_iff in Hle. congruence.
Qed.

Lemma build_key_ltb_asym a b :
  build_key_ltb a b = true -> build_key_ltb b a = false.
Proof.
  destruct a as [[a1 a2] a3], b as [[b1 b2] b3]. unfold build_key_ltb.
  rewrite (Qeq_bool_sym b1 a1), (String.eqb_sym b2 a2).
  destruct (Qeq_bool a1 b1) eqn:E1; cbn [negb].
  - destruct (String.eqb a2 b2); cbn [negb]; apply string_ltb_asym.
  - intros H. apply negb_true_iff in H.
    by rewrite (Qle_bool_asym a1 b1 E1 H).
Qed.

Lemma key3_ltb_asym a b : key3_ltb a b = true -> key3_ltb b a = false.
Proof.
  destruct a as [[a1 a2] a3], b as [[b1 b2] b3]. unfold key3_ltb.
  rewrite (Qeq_bool_sym b2 a2), (String.eqb_sym b1 a1).
  destruct (String.eqb a1 b1); cbn [negb]; [|apply string_ltb_asym].
  destruct (Qeq_bool a2 b2) eqn:E1; cbn [negb]; [apply string_ltb_asym|].
  intros H. apply negb_true_iff in H.
  by rewrite (Qle_bool_asym a2 b2 E1 H).
Qed.

Lemma Qopp_le_weight a b :
  Qle_bool (- weight a) (- weight b) = true -> (weight b <= weight a)%Q.
Proof.
  intros H. apply Qle_bool_iff in H. apply Qopp_le_compat in H.
  by rewrite !Qopp_involutive in H.
Qed.

Lemma Qopp_eq_weight (a b : task) :
  Qeq_bool (- weight b) (- weight a) = true -> (weight a == weight b)%Q.
Proof.
  intros H. apply Qeq_bool_iff in H.
  rewrite <- (Qopp_involutive (weight a)), <- (Qopp_involutive (weight b)).
  by rewrite H.
Qed.

(** X14.  [build_tasks] returns the expanded copies of the subjects,
    reordered so that the weights never increase along the list. *)
Theorem build_tasks_by_weight (subs : list subject) :
  build_tasks subs ≡ₚ expand_tasks subs
  /\ StronglySorted (fun a b => (weight b <= weight a)%Q) (build_tasks subs).
Proof.
  split; [apply sorted_by_perm|].
  apply Sorted_StronglySorted.
  { intros a b c Hab Hbc. by eapply Qle_trans. }
  unfold build_tasks.
  eapply (Sorted_weaken _ _ (fun _ => True)); [|by apply Forall_true|].
  2:{ apply sorted_by_sorted. intros a b. apply build_key_ltb_asym. }
  intros a b _ _ H. cbn beta in H. unfold build_key_ltb in H.
  destruct (Qeq_bool (- weight b) (- weight a)) eqn:E; cbn [negb] in H.
  - apply Qopp_eq_weight in E. rewrite E. apply Qle_refl.
  - apply negb_false_iff in H. by apply Qopp_le_weight.
Qed.

Lemma band_order_trans a b c :
  band_order a b -> band_order b c -> band_order a c.
Proof.
  intros [H1|[H1 H1']] [H2|[H2 H2']].
  - left. by eapply Qlt_trans.
  - left. by rewrite <- H2.
  - left. by rewrite H1.
  - right. split; [by rewrite H1|].
    apply Is_true_true. apply Is_true_true in H1', H2'.
    by apply (transitivity (R:=String.le) H1' H2').
Qed.

Lemma sort_by_building_order (g : string) l :
  Forall (fun t => group t = g) l ->
  sort_by_building l ≡ₚ l
  /\ StronglySorted band_order (sort_by_building l).
Proof.
  intros Hg. split; [apply sorted_by_perm|].
  apply Sorted_StronglySorted.
  { intros a b c. apply band_order_trans. }
  unfold sort_by_building.
  eapply (Sorted_weaken _ _ (fun t => group t = g)).
  3:{ apply sorted_by_sorted. intros a b. apply key3_ltb_asym. }
  2:{ rewrite Forall_forall in *. intros t Ht. apply Hg.
      eapply elem_of_Permutation_proper; [|exact Ht].
      symmetry. apply sorted_by_perm. }
  intros a b Ha Hb H. cbn beta in H. unfold key3_ltb in H.
  rewrite Ha, Hb, String.eqb_refl in H. cbn [negb] in H.
  destruct (Qeq_bool (- weight b) (- weight a)) eqn:E; cbn [negb] in H.
  - right. split; [by apply Qopp_eq_weight|by apply string_ltb_leb].
  - left. apply negb_false_iff in H. apply Qopp_le_weight in H.
    apply Qle_lteq in H as [H|H]; [done|].
    exfalso. assert (Qeq_bool (- weight b) (- weight a) = true); [|congruence].
    apply Qeq_bool_iff. by rewrite H.
Qed.

Lemma elem_of_take_list {A} (x : A) n l : x ∈ take n l -> x ∈ l.
Proof.
  intros H. rewrite <- (take_drop n l). apply elem_of_app. by left.
Qed.

Lemma elem_of_drop_list {A} (x : A) n l : x ∈ drop n l -> x ∈ l.
Proof.
  intros H. rewrite <- (take_drop n l). apply elem_of_app. by right.
Qed.

(** X15.  The candidate pool of a group is three bands in a row: the
    first [red_n] expanded tasks, the next 10, and the rest, where [red_n]
    is 15 or 20; when the credits are non-negative multiples of 1/2 with
    a total of at most 2^50, so that the float sum of the code is exact,
    [red_n] is 15 exactly when the total credit is at most 18.  Each band
    is a reordering of its slice, by decreasing weight and, at equal
    weight, by code. *)
Theorem candidate_pool_bands (grp : string) subjects :
  let subs := group_subjects grp subjects in
  let tasks := expand_tasks subs in
  exists (red_n : nat) red orange yellow,
    (red_n = 15 \/ red_n = 20)%nat
    /\ (exact_credits subs ->
        red_n = if Qle_bool (sum_credit subs) 18 then 15%nat else 20%nat)
    /\ candidate_pool subs = (red ++ orange ++ yellow)%list
    /\ red ≡ₚ take red_n tasks
    /\ orange ≡ₚ take 10 (drop red_n tasks)
    /\ yellow ≡ₚ drop (red_n + 10) tasks
    /\ StronglySorted band_order red
    /\ StronglySorted band_order orange
    /\ StronglySorted band_order yellow.
Proof.
  intros subs tasks.
  set (red_n := if Qle_bool (sum_credit subs) 18 then 15%nat else 20%nat).
  assert (Hg : Forall (fun t => group t = grp) tasks).
  { apply Forall_forall. intros t Ht. apply expand_tasks_elem in Ht.
    by apply group_subjects_elem in Ht as [_ ?]. }
  assert (Hsub : forall l, l ⊆ tasks -> Forall (fun t => group t = grp) l).
  { intros l Hl. rewrite Forall_forall in *. auto. }
  destruct (sort_by_building_order grp (take red_n tasks)) as [P1 S1].
  { apply Hsub. intros x Hx. by eapply elem_of_take_list. }
  destruct (sort_by_building_order grp (take 10 (drop red_n tasks)))
    as [P2 S2].
  { apply Hsub. intros x Hx. apply elem_of_take_list in Hx.
    by eapply elem_of_drop_list. }
  destruct (sort_by_building_order grp (drop (red_n + 10) tasks)) as [P3 S3].
  { apply Hsub. intros x Hx. by eapply elem_of_drop_list. }
  exists red_n. eexists _, _, _. split.
  { unfold red_n. destruct (Qle_bool (sum_credit subs) 18); auto. }
  split; [done|]. split; [reflexivity|]. done.
Qed.

(** ** The order of the groups *)

Lemma tuple_ltb_asym a b : tuple_ltb a b = true -> tuple_ltb b a = false.
Proof.
  revert b. induction a as [|x a IH]; intros [|y b]; cbn; try done.
  rewrite (Z.eqb_sym y x). destruct (Z.eqb_spec x y) as [->|Hne]; [apply IH|].
  intros H. apply Z.ltb_lt in H. apply Z.ltb_ge. lia.
Qed.

(** X16.  Sorting the sorted list of groups again changes nothing, so
    the export, which sorts [self.rooms] once more, runs the groups in the
    order of the display and, with the same subjects, locks and mapping,
    computes the same tables. *)
Theorem export_order_is_display_order (enum : list string) subjects
    (locks : list lock) (m : gmap string Z) :
  let rooms := sorted_rooms enum in
  sorted_rooms rooms = rooms
  /\ schedule_all (sorted_rooms rooms) subjects fresh_slots_used ∅ locks m
     = schedule_all rooms subjects fresh_slots_used ∅ locks m.
Proof.
  intros rooms.
  assert (sorted_rooms rooms = rooms) as E; [|by rewrite E].
  apply sorted_by_idemp. intros a b. apply tuple_ltb_asym.
Qed.

(** ** [interleave] *)

Lemma item_drop {A} (l : list A) (k : nat) :
  (item l k ++ drop (S k) l)%list = drop k l.
Proof.
  unfold item. destruct (l !! k) as [x|] eqn:E.
  - symmetry. by apply drop_S.
  - apply lookup_ge_None in E. rewrite !drop_ge; [done|lia..].
Qed.

Lemma flat_map_item {A} (l : list A) (h n k : nat) :
  flat_map (fun i => item l (i + h)%nat) (seq k n)
  = take n (drop (k + h)%nat l).
Proof.
  revert k. induction n as [|n IH]; intros k; [done|].
  cbn [seq flat_map]. rewrite IH.
  change (S k + h)%nat with (S (k + h)).
  rewrite <- (item_drop l (k + h)). unfold item.
  destruct (l !! (k + h)%nat) eqn:E; [done|].
  apply lookup_ge_None in E. rewrite drop_ge; [by destruct n|lia].
Qed.

Lemma flat_map_app_perm {A B} (f g : A -> list B) l :
  flat_map (fun x => f x ++ g x)%list l
  ≡ₚ (flat_map f l ++ flat_map g l)%list.
Proof.
  induction l as [|x l IH]; [done|]. cbn [flat_map]. rewrite IH.
  rewrite <- !(assoc_L app). f_equiv.
  rewrite !(assoc_L app). f_equiv. apply Permutation_app_comm.
Qed.

(** X17.  [interleave] only reorders: its result is a permutation of
    its argument, of the same length. *)
Theorem interleave_permutation {A} (lst : list A) :
  interleave lst ≡ₚ lst /\ length (interleave lst) = length lst.
Proof.
  assert (interleave lst ≡ₚ lst) as H; [|split; [done|by rewrite H]].
  unfold interleave. set (half := (length lst / 2)%nat).
  assert (length lst = 2 * half + length lst mod 2)%nat as Hlen
    by apply Nat.div_mod_eq.
  assert (length lst mod 2 < 2)%nat as Hmod
    by (apply Nat.mod_upper_bound; lia).
  rewrite (flat_map_ext _ (fun i => item lst (i + 0) ++ item lst (i + half))%list).
  2:{ intros i. rewrite Nat.add_0_r. f_equal.
      destruct (Nat.ltb_spec (i + half) (length lst)) as [_|Hge]; [done|].
      unfold item. by rewrite (lookup_ge_None_2 lst (i + half)). }
  rewrite flat_map_app_perm, !flat_map_item. cbn [Nat.add drop].
  assert ((if (length lst mod 2 =? 0)%nat then []
           else item lst (length lst - 1)) = drop (half + half) lst) as ->.
  { destruct (Nat.eqb_spec (length lst mod 2) 0) as [E|E].
    - rewrite drop_ge; [done|lia].
    - replace (half + half)%nat with (length lst - 1)%nat by lia.
      rewrite <- (item_drop lst (length lst - 1)).
      rewrite (drop_ge lst (S _)); [|lia].
      by rewrite (right_id_L [] app). }
  rewrite <- (drop_drop lst half half), <- (assoc_L app), take_drop.
  by rewrite take_drop.
Qed.

(** ** Teacher helpers *)

Lemma group_by_teacher_fold (tasks : list task) (tch : string)
    (groups : gmap string (list task)) :
  foldl (fun groups t =>
           <[teacher t := (default [] (groups !! teacher t) ++ [t])%list]>
             groups) groups tasks !! tch
  = match List.filter (fun t => String.eqb (teacher t) tch) tasks with
    | [] => groups !! tch
    | mine => Some (default [] (groups !! tch) ++ mine)%list
    end.
Proof.
  revert groups. induction tasks as [|t tasks IH]; intros groups; [done|].
  cbn [foldl List.filter]. rewrite IH.
  destruct (String.eqb_spec (teacher t) tch) as [->|Hne].
  - rewrite lookup_insert_eq. cbn [default].
    destruct (List.filter _ tasks) as [|t' mine].
    + done.
    + cbn. by rewrite <- (assoc_L app).
  - by rewrite lookup_insert_ne.
Qed.

(** X18.  [group_by_teacher_tasks] maps every teacher to exactly their
    tasks, in the order of the input; a teacher without a task has no
    key. *)
Theorem group_by_teacher_lookup (tasks : list task) (tch : string) :
  group_by_teacher_tasks tasks !! tch
  = match List.filter (fun t => String.eqb (teacher t) tch) tasks with
    | [] => None
    | mine => Some mine
    end.
Proof.
  unfold group_by_teacher_tasks. rewrite group_by_teacher_fold.
  rewrite lookup_empty. by destruct (List.filter _ tasks).
Qed.

Lemma room_distance_le r pr : (room_distance r pr <= 1)%nat.
Proof. unfold room_distance. destruct (String.eqb r pr); lia. Qed.

Lemma fold_min_distance r rest (d : nat) :
  (d <= 1)%nat ->
  fold_left (fun d pr' => Nat.min d (room_distance r pr')) rest d
  = if bool_decide (d = 0%nat \/ r ∈ rest) then 0%nat else 1%nat.
Proof.
  revert d. induction rest as [|pr rest IH]; intros d Hd; cbn [fold_left].
  - case_bool_decide as H.
    + destruct H as [->|H]; [done|]. by apply elem_of_nil in H.
    + destruct d as [|[|d]]; [|done|lia]. destruct H. by left.
  - rewrite IH; [|lia]. unfold room_distance.
    destruct (String.eqb_spec r pr) as [->|Hne].
    + rewrite Nat.min_0_r. rewrite !bool_decide_eq_true_2; [done|..].
      * right. by left.
      * by left.
    + erewrite bool_decide_ext; [done|]. rewrite elem_of_cons.
      destruct d as [|[|d]]; [|cbn|lia]; naive_solver.
Qed.

(** The distance is 0 when there is no earlier room or the room is one of
    them, and 1 otherwise. *)
Lemma min_distance_spec r prev_rooms :
  min_distance r prev_rooms
  = if bool_decide (prev_rooms = [] \/ r ∈ prev_rooms) then 0%nat else 1%nat.
Proof.
  destruct prev_rooms as [|pr rest]; [done|]. cbn [min_distance].
  rewrite fold_min_distance by apply room_distance_le.
  erewrite bool_decide_ext; [done|]. unfold room_distance.
  rewrite elem_of_cons.
  destruct (String.eqb_spec r pr); naive_solver.
Qed.

Lemma best_room_go_spec prev tch tasks best best_dist :
  match best, best_dist with
  | None, None => True
  | Some b, Some d => d = min_distance (group b) prev
  | _, _ => False
  end ->
  best_room_go prev tch tasks best best_dist
  = match best_dist with
    | Some 0%nat => best
    | _ => match List.find (near prev) (tasks_of tch tasks) with
           | Some t => Some t
           | None => match best with
                     | Some b => Some b
                     | None => head (tasks_of tch tasks)
                     end
           end
    end.
Proof.
  revert best best_dist.
  induction tasks as [|t tasks IH]; intros best best_dist Hinv.
  - cbn. destruct best, best_dist as [[|d]|]; done.
  - cbn [best_room_go tasks_of List.filter].
    destruct (String.eqb_spec (teacher t) tch) as [Ht|Ht]; cbn [negb].
    + pose proof (min_distance_spec (group t) prev) as Hd.
      fold (near prev t) in Hd. cbn [List.find head].
      destruct best_dist as [d|].
      * destruct best as [b|]; [|done].
        pose proof (min_distance_spec (group b) prev) as Hb.
        destruct (near prev t) eqn:En; rewrite Hd.
        -- destruct d as [|d]; cbn [Nat.ltb Nat.leb].
           ++ by rewrite IH.
           ++ by rewrite IH.
        -- assert ((1 <? d)%nat = false) as ->.
           { apply Nat.ltb_ge. rewrite Hinv, Hb. case_bool_decide; lia. }
           rewrite IH by done. by destruct d.
      * destruct best; [done|]. rewrite IH by done. rewrite Hd.
        destruct (near prev t) eqn:En; [done|].
        fold (tasks_of tch tasks). by destruct (List.find _ _).
    + by rewrite IH.
Qed.

(** X19.  [find_best_room_for_teacher] returns the teacher's first task
    whose group is a room already recorded for the teacher (every task
    counts when no room is recorded); when there is none, the teacher's
    first task; and nothing when the teacher has no task. *)
Theorem find_best_room_first_near (tasks : list task) (tch : string)
    (teacher_slots : teacher_slots_t) :
  let prev_rooms := (map_to_list (default ∅ (teacher_slots !! tch))).*2 in
  find_best_room_for_teacher tasks tch teacher_slots
  = match List.find (near prev_rooms) (tasks_of tch tasks) with
    | Some t => Some t
    | None => head (tasks_of tch tasks)
    end.
Proof.
  intros prev_rooms. unfold find_best_room_for_teacher.
  by rewrite best_room_go_spec.
Qed.

(** ** Room labels *)

(** X20.  [find_actual_room] returns the subject's group when it is one
    of the actual rooms; otherwise an actual room whose short form is
    [group_short], and [group_short] itself when there is no such room. *)
Theorem find_actual_room_choice (s : subject) (group_short : string) :
  let r := find_actual_room s group_short in
  (group s ∈ actual_room s -> r = group s)
  /\ (group s ∉ actual_room s ->
      (r ∈ actual_room s /\ short_room r = group_short)
      \/ (r = group_short
          /\ forall r', r' ∈ actual_room s -> short_room r' <> group_short)).
Proof.
  cbn zeta. unfold find_actual_room.
  destruct (actual_room s) as [|r0 rooms] eqn:E.
  { split; [by intros H%elem_of_nil|]. intros _. right. split; [done|].
    by intros r' H%elem_of_nil. }
  rewrite <- E. clear E r0 rooms.
  destruct (List.find (fun r => String.eqb r (group s)) (actual_room s))
    as [r|] eqn:E1.
  - apply find_some in E1 as [Hin Heq]. apply String.eqb_eq in Heq as ->.
    apply list_elem_of_In in Hin. split; [done|]. by intros [].
  - split.
    { intros Hin%list_elem_of_In.
      apply (find_none _ _ E1) in Hin. by rewrite String.eqb_refl in Hin. }
    intros _.
    destruct (List.find (fun r => String.eqb (short_room r) group_short)
                (actual_room s)) as [r|] eqn:E2.
    + apply find_some in E2 as [Hin Heq]. apply String.eqb_eq in Heq.
      apply list_elem_of_In in Hin. by left.
    + right. split; [done|]. intros r' Hin%list_elem_of_In Heq.
      apply (find_none _ _ E2) in Hin. apply String.eqb_neq in Hin. done.
Qed.

Lemma split_plain sep (a : string) :
  Str.all (fun c => negb (Ascii.eqb c sep)) a = true ->
  Str.split sep a = [a].
Proof.
  induction a as [|c a IH]; [done|].
  rewrite all_cons, andb_true_iff, negb_true_iff. intros [Hc Ha].
  cbn [Str.split]. by rewrite Hc, (IH Ha).
Qed.

Lemma split_cons sep (a r : string) :
  Str.all (fun c => negb (Ascii.eqb c sep)) a = true ->
  Str.split sep (a +:+ String sep r) = a :: Str.split sep r.
Proof.
  induction a as [|c a IH].
  - intros _. change ("" +:+ String sep r) with (String sep r).
    cbn [Str.split]. by rewrite Ascii.eqb_refl.
  - rewrite all_cons, andb_true_iff, negb_true_iff. intros [Hc Ha].
    rewrite app_cons. cbn [Str.split]. by rewrite Hc, (IH Ha).
Qed.

Lemma split_last sep (r b : string) :
  Str.all (fun c => negb (Ascii.eqb c sep)) b = true ->
  exists p l, Str.split sep (r +:+ String sep b) = (p :: l ++ [b])%list.
Proof.
  intros Hb. induction r as [|c r IH].
  - change ("" +:+ String sep b) with (String sep b).
    cbn [Str.split]. rewrite Ascii.eqb_refl, (split_plain sep b Hb).
    by exists "", [].
  - rewrite app_cons. cbn [Str.split]. destruct IH as (p & l & ->).
    destruct (Ascii.eqb c sep).
    + by exists "", (p :: l).
    + by exists (String c p), l.
Qed.

(** X21.  [short_room] joins the first and the last part of a label: a
    label without a slash is doubled, [a/b] gives [ab], and the middle
    parts of [a/.../b] are dropped. *)
Theorem short_room_first_last (a b : string) :
  Str.all (fun c => negb (Ascii.eqb c "/")) a = true ->
  Str.all (fun c => negb (Ascii.eqb c "/")) b = true ->
  short_room a = a +:+ a
  /\ short_room (a +:+ "/" +:+ b) = a +:+ b
  /\ forall mid, short_room (a +:+ "/" +:+ mid +:+ "/" +:+ b) = a +:+ b.
Proof.
  intros Ha Hb. unfold short_room. split; [|split].
  - by rewrite (split_plain _ a Ha).
  - change ("/" +:+ b) with (String "/" b).
    rewrite (split_cons _ a b Ha), (split_plain _ b Hb). done.
  - intros mid. change ("/" +:+ mid +:+ "/" +:+ b)
      with (String "/" (mid +:+ String "/" b)).
    rewrite (split_cons _ a _ Ha). cbn [hd]. f_equal.
    destruct (split_last "/" mid b Hb) as (p & l & ->).
    change (a :: p :: l ++ [b])%list with ((a :: p :: l) ++ [b])%list.
    apply last_last.
Qed.

Lemma short_room_first_last_witness :
  Str.all (fun c => negb (Ascii.eqb c "/")) "A1" = true
  /\ Str.all (fun c => negb (Ascii.eqb c "/")) "2" = true
  /\ short_room "A1" = "A1" +:+ "A1"
  /\ short_room ("A1" +:+ "/" +:+ "2") = "A1" +:+ "2"
  /\ forall mid, short_room ("A1" +:+ "/" +:+ mid +:+ "/" +:+ "2")
                 = "A1" +:+ "2".
Proof.
  assert (H1 : Str.all (fun c => negb (Ascii.eqb c "/")) "A1" = true)
    by reflexivity.
  assert (H2 : Str.all (fun c => negb (Ascii.eqb c "/")) "2" = true)
    by reflexivity.
  do 2 (split; [assumption|]).
  exact (short_room_first_last "A1" "2" H1 H2).
Defined.

(** ** The sort key of a group *)

Lemma digit_runs_skip (p s : string) :
  Str.all (fun c => negb (Str.is_digit c)) p = true ->
  digit_runs_go "" (p +:+ s) = digit_runs_go "" s.
Proof.
  induction p as [|c p IH]; [done|].
  rewrite all_cons, andb_true_iff, negb_true_iff. intros [Hc Hp].
  rewrite app_cons. cbn [digit_runs_go]. by rewrite Hc, (IH Hp).
Qed.

Lemma digit_runs_run (d cur s : string) :
  Str.all Str.is_digit d = true ->
  digit_runs_go cur (d +:+ s) = digit_runs_go (cur +:+ d) s.
Proof.
  revert cur. induction d as [|c d IH]; intros cur.
  - intros _. by rewrite string_app_nil_r.
  - rewrite all_cons, andb_true_iff. intros [Hc Hd].
    rewrite app_cons. cbn [digit_runs_go]. rewrite Hc, (IH _ Hd).
    by rewrite string_app_assoc.
Qed.

Lemma digit_value_pos (acc : positive) (d : Decimal.uint) :
  fold_left (fun acc c => 10 * acc + (Z.of_N (Str.code c) - 48))
    (list_ascii_of_string (NilEmpty.string_of_uint d)) (Z.pos acc)
  = Z.pos (Pos.of_uint_acc d acc).
Proof.
  revert acc. induction d; intros acc; cbn [NilEmpty.string_of_uint
    list_ascii_of_string fold_left Pos.of_uint_acc]; [done|..];
    rewrite <- IHd; f_equal; unfold Str.code; cbn [N_of_ascii N_of_digits];
    lia.
Qed.

Lemma int_of_digits_uint (d : Decimal.uint) :
  int_of_digits (NilEmpty.string_of_uint d) = Z.of_uint d.
Proof.
  unfold int_of_digits, Z.of_uint.
  induction d; cbn [NilEmpty.string_of_uint list_ascii_of_string fold_left
    Pos.of_uint]; [done|exact IHd|..]; apply digit_value_pos.
Qed.

(** [int(str(n)) = n] for the digits that [room_sort_key] reads. *)
Lemma int_of_digits_of_int (n : Z) :
  0 <= n -> int_of_digits (Str.of_int n) = n
            /\ Str.of_int n <> ""
            /\ Str.all Str.is_digit (Str.of_int n) = true.
Proof.
  intros Hn. destruct (of_int_nonneg n Hn) as (u & -> & Hu & <-).
  split; [apply int_of_digits_uint|]. split.
  - by apply string_of_uint_not_empty.
  - apply string_of_uint_digits.
Qed.

Lemma room_sort_key_plain (p : string) :
  Str.all (fun c => negb (Str.is_digit c)) p = true ->
  room_sort_key p = [9999].
Proof.
  intros Hp. unfold room_sort_key, digit_runs.
  rewrite <- (string_app_nil_r p), digit_runs_skip; done.
Qed.

Lemma room_sort_key_pair (p : string) (a b : Z) :
  Str.all (fun c => negb (Str.is_digit c)) p = true ->
  0 <= a -> 0 <= b ->
  room_sort_key (p +:+ Str.of_int a +:+ "/" +:+ Str.of_int b) = [a; b].
Proof.
  intros Hp Ha Hb. unfold room_sort_key, digit_runs.
  destruct (int_of_digits_of_int a Ha) as (Ea & Na & Da).
  destruct (int_of_digits_of_int b Hb) as (Eb & Nb & Db).
  rewrite digit_runs_skip by done.
  rewrite digit_runs_run by done.
  change ("" +:+ Str.of_int a) with (Str.of_int a).
  change ("/" +:+ Str.of_int b) with (String "/" (Str.of_int b)).
  cbn [digit_runs_go]. change (Str.is_digit "/") with false. cbn match.
  destruct (Str.of_int a) as [|ca ra] eqn:Ea'; [done|].
  rewrite <- (string_app_nil_r (Str.of_int b)) at 1.
  rewrite digit_runs_run by done.
  change ("" +:+ Str.of_int b) with (Str.of_int b).
  cbn [digit_runs_go].
  destruct (Str.of_int b) as [|cb rb] eqn:Eb'; [done|].
  cbn [map]. by rewrite Ea, Eb.
Qed.

(** X22.  [room_sort_key] reads the numbers of a label: for a prefix
    of plain text without a digit, the prefix alone has the key (9999,),
    and the prefix followed by [str(a)], a slash and [str(b)] has the key
    (a, b), for non-negative [a] and [b]. *)
Theorem room_sort_key_numbers (p : string) (a b : Z) :
  Str.plain_text p = true ->
  Str.all (fun c => negb (Str.is_digit c)) p = true ->
  0 <= a -> 0 <= b ->
  room_sort_key p = [9999]
  /\ room_sort_key (p +:+ Str.of_int a +:+ "/" +:+ Str.of_int b) = [a; b].
Proof.
  intros _ Hp Ha Hb. split.
  - by apply room_sort_key_plain.
  - by apply room_sort_key_pair.
Qed.

Lemma room_sort_key_numbers_witness :
  Str.plain_text "ม." = true
  /\ Str.all (fun c => negb (Str.is_digit c)) "ม." = true
  /\ 0 <= 1 /\ 0 <= 10
  /\ room_sort_key "ม." = [9999]
  /\ room_sort_key ("ม." +:+ Str.of_int 1 +:+ "/" +:+ Str.of_int 10)
     = [1; 10].
Proof.
  assert (H0 : Str.plain_text "ม." = true) by (vm_compute; reflexivity).
  assert (H1 : Str.all (fun c => negb (Str.is_digit c)) "ม." = true)
    by (vm_compute; reflexivity).
  assert (H2 : 0 <= 1) by lia.
  assert (H3 : 0 <= 10) by lia.
  do 4 (split; [assumption|]).
  exact (room_sort_key_numbers "ม." 1 10 H0 H1 H2 H3).
Defined.

(** X23.  The groups are ordered by their numbers and not by their
    text: of two labels made of a digit-free prefix of plain text,
    [str(a)], a slash and [str(b)], sorting by [room_sort_key] puts the
    second label first exactly when its pair of numbers is the smaller
    one (by the first number, then by the second); with equal pairs the
    order of the input is kept. *)
Theorem sorted_rooms_numeric (p q : string) (a b c d : Z) :
  Str.plain_text p = true -> Str.plain_text q = true ->
  Str.all (fun c => negb (Str.is_digit c)) p = true ->
  Str.all (fun c => negb (Str.is_digit c)) q = true ->
  0 <= a -> 0 <= b -> 0 <= c -> 0 <= d ->
  let l1 := p +:+ Str.of_int a +:+ "/" +:+ Str.of_int b in
  let l2 := q +:+ Str.of_int c +:+ "/" +:+ Str.of_int d in
  sorted_rooms [l1; l2]
  = if (c <? a) || ((c =? a) && (d <? b)) then [l2; l1] else [l1; l2].
Proof.
  intros _ _ Hp Hq Ha Hb Hc Hd l1 l2.
  unfold sorted_rooms, sorted_by. cbn [foldr insert_by].
  unfold l1, l2. rewrite !room_sort_key_pair by done.
  cbn [tuple_ltb].
  destruct (Z.eqb_spec c a) as [->|Hne].
  - destruct (Z.ltb_spec a a) as [?|_]; [lia|]. cbn [orb andb].
    destruct (Z.eqb_spec d b) as [->|Hne'].
    + by destruct (Z.ltb_spec b b) as [?|_]; [lia|].
    + done.
  - cbn [andb]. by rewrite orb_false_r.
Qed.

Lemma sorted_rooms_numeric_witness :
  Str.plain_text "ม." = true
  /\ Str.all (fun c => negb (Str.is_digit c)) "ม." = true
  /\ 0 <= 1 /\ 0 <= 10 /\ 0 <= 9
  /\ sorted_rooms ["ม." +:+ Str.of_int 1 +:+ "/" +:+ Str.of_int 10;
                   "ม." +:+ Str.of_int 1 +:+ "/" +:+ Str.of_int 9]
     = ["ม." +:+ Str.of_int 1 +:+ "/" +:+ Str.of_int 9;
        "ม." +:+ Str.of_int 1 +:+ "/" +:+ Str.of_int 10].
Proof.
  assert (H0 : Str.plain_text "ม." = true) by (vm_compute; reflexivity).
  assert (H1 : Str.all (fun c => negb (Str.is_digit c)) "ม." = true)
    by (vm_compute; reflexivity).
  assert (H2 : 0 <= 1) by lia.
  assert (H3 : 0 <= 10) by lia.
  assert (H4 : 0 <= 9) by lia.
  do 5 (split; [assumption|]).
  exact (sorted_rooms_numeric "ม." "ม." 1 10 1 9 H0 H0 H1 H1 H2 H3 H2 H4).
Defined.

(** X24.  A label made of capitals followed by digits, whose capitals
    are a key of the mapping, is rewritten to the mapped number followed
    by the digits. *)
Theorem convert_mapped_prefix (letter number : string) (v : Z)
    (mapping : gmap string Z) :
  letter <> "" -> number <> "" ->
  Str.all Str.is_upper letter = true ->
  Str.all Str.is_digit number = true ->
  mapping !! letter = Some v ->
  convert_room_letter_to_number (letter +:+ number) mapping
  = Str.of_int v +:+ number.
Proof.
  intros Hl Hn Hu Hd Hm. unfold convert_room_letter_to_number.
  rewrite plain_label_fixed.
  - by rewrite match_letters_digits_exact, Hm.
  - rewrite all_app, andb_true_iff. split.
    + eapply all_impl; [|exact Hu]. intros c Hc. unfold is_label_char.
      by rewrite Hc.
    + eapply all_impl; [|exact Hd]. intros c Hc. unfold is_label_char.
      rewrite Hc. by rewrite orb_true_r.
Qed.

Lemma convert_mapped_prefix_witness :
  "A" <> "" /\ "12" <> ""
  /\ Str.all Str.is_upper "A" = true /\ Str.all Str.is_digit "12" = true
  /\ ({["A" := 7]} : gmap string Z) !! "A" = Some 7
  /\ convert_room_letter_to_number ("A" +:+ "12") {["A" := 7]}
     = Str.of_int 7 +:+ "12".
Proof.
  assert (H1 : "A" <> "") by discriminate.
  assert (H2 : "12" <> "") by discriminate.
  assert (H3 : Str.all Str.is_upper "A" = true) by reflexivity.
  assert (H4 : Str.all Str.is_digit "12" = true) by reflexivity.
  assert (H5 : ({["A" := 7]} : gmap string Z) !! "A" = Some 7)
    by (vm_compute; reflexivity).
  do 5 (split; [assumption|]).
  exact (convert_mapped_prefix "A" "12" 7 {["A" := 7]} H1 H2 H3 H4 H5).
Defined.
